(** * Admission control and command channel of the Foodyeh backend

    A shallow embedding of [utils/rate_limiter.py] (class [RateLimiter]) and
    [services/mqtt_client.py] (class [MQTTService]), with the properties the
    specification states about them.

    Conventions.
    - Python [int] is [Z]; [a % b] is [Z.modulo] (both take the sign of the
      divisor) except that Python raises [ZeroDivisionError] for [b = 0].
    - Python [str] values that come from HTTP headers are latin-1 decoded, so
      a Rocq [string] (a list of 8-bit characters) holds them exactly.
    - A Python [dict] is a [gmap]; a Redis sorted set is a [gmap] from member
      to score.
    - Calls into Redis, the paho client, the clock and the logger are
      effects: the state they act on is threaded explicitly and what the
      code asked of them is kept in a journal. *)

From Stdlib Require Import ZArith String Ascii List Bool Lia.
From stdpp Require Import base option gmap strings list fin_maps pretty.

Local Open Scope Z_scope.

(** ** Python string helpers *)

Module Py.

(** Truthiness of a [str]: the empty string is falsy. *)
Definition truthy (s : string) : bool :=
  match s with EmptyString => false | String _ _ => true end.

(** Truthiness of an [Optional[str]]: [None] and [""] are falsy. *)
Definition truthy_opt (o : option string) : bool :=
  match o with Some s => truthy s | None => false end.

(** [str.isspace] on the code points below 256. *)
Definition isspace (c : ascii) : bool :=
  let n := nat_of_ascii c in
  (((9 <=? n) && (n <=? 13)) || ((28 <=? n) && (n <=? 32))
   || (n =? 133) || (n =? 160))%nat.

Fixpoint lstrip (s : string) : string :=
  match s with
  | String c r => if isspace c then lstrip r else s
  | EmptyString => EmptyString
  end.

(** [s.strip()]: white space removed at both ends. *)
Definition strip (s : string) : string :=
  String.rev (lstrip (String.rev (lstrip s))).

(** [s.split(sep)] for a one-character separator: every occurrence of
    [sep] cuts, empty fields are kept, the result is never empty. *)
Fixpoint split (sep : ascii) (s : string) : list string :=
  match s with
  | EmptyString => [EmptyString]
  | String c r =>
      if Ascii.eqb c sep then EmptyString :: split sep r
      else match split sep r with
           | f :: fs => String c f :: fs
           | [] => [String c EmptyString]
           end
  end.

(** The characters of [s] in front of the first [sep] (all of [s] when it
    holds none). *)
Fixpoint before (sep : ascii) (s : string) : string :=
  match s with
  | EmptyString => EmptyString
  | String c r => if Ascii.eqb c sep then EmptyString else String c (before sep r)
  end.

(** [s.lower()] on ASCII letters. *)
Definition lower_char (c : ascii) : ascii :=
  let n := nat_of_ascii c in
  if ((65 <=? n) && (n <=? 90))%nat then ascii_of_nat (n + 32) else c.

Fixpoint lower (s : string) : string :=
  match s with
  | EmptyString => EmptyString
  | String c r => String (lower_char c) (lower r)
  end.

(** [x or d] on an optional integer argument: [None] and [0] are falsy. *)
Definition or_default (x : option Z) (d : Z) : Z :=
  match x with
  | Some v => if bool_decide (v = 0) then d else v
  | None => d
  end.

End Py.

(** ** Log levels of [structlog] *)

Inductive level := Debug | Info | Warning | Error.

(** ** The Counter Store: the Redis commands the limiter issues *)

Module Redis.

(** A key of the store: a sorted set (member to score) with the time at
    which the key expires, if an expiry was set. *)
Record zset := ZSet {
  members : gmap string Z;
  expire_at : option Z
}.

Abbreviation db := (gmap string zset).

Inductive command :=
| ZREMRANGEBYSCORE (key : string) (lo hi : Z)
| ZADD (key member : string) (score : Z)
| ZCARD (key : string)
| EXPIRE (key : string) (seconds : Z).

Definition live (now : Z) (v : zset) : bool :=
  match expire_at v with
  | Some t => bool_decide (now < t)
  | None => true
  end.

(** Reading a key: one whose expiry has passed is gone. *)
Definition get (now : Z) (key : string) (d : db) : option zset :=
  match d !! key with
  | Some v => if live now v then Some v else None
  | None => None
  end.

Definition in_range (lo hi : Z) (p : string * Z) : Prop := lo ≤ p.2 ≤ hi.

Global Instance in_range_dec lo hi p : Decision (in_range lo hi p).
Proof. unfold in_range. apply _. Defined.

(** Storing a sorted set back: Redis drops a key whose set became empty. *)
Definition put (key : string) (m : gmap string Z) (e : option Z) (d : db) : db :=
  if bool_decide (m = ∅) then delete key d
  else <[key := ZSet m e]> d.

Definition zremrangebyscore (now : Z) (key : string) (lo hi : Z) (d : db) : db * Z :=
  match get now key d with
  | Some v =>
      let kept := filter (λ p, ¬ in_range lo hi p) (members v) in
      (put key kept (expire_at v) d,
       Z.of_nat (size (members v)) - Z.of_nat (size kept))
  | None => (delete key d, 0)
  end.

Definition zadd (now : Z) (key member : string) (score : Z) (d : db) : db * Z :=
  match get now key d with
  | Some v =>
      (<[key := ZSet (<[member := score]> (members v)) (expire_at v)]> d,
       match members v !! member with Some _ => 0 | None => 1 end)
  | None => (<[key := ZSet {[member := score]} None]> d, 1)
  end.

Definition zcard (now : Z) (key : string) (d : db) : db * Z :=
  match get now key d with
  | Some v => (d, Z.of_nat (size (members v)))
  | None => (delete key d, 0)
  end.

(** [EXPIRE key seconds]: a timeout that is not positive deletes the key. *)
Definition expire (now : Z) (key : string) (seconds : Z) (d : db) : db * Z :=
  match get now key d with
  | Some v =>
      (if bool_decide (seconds ≤ 0) then delete key d
       else <[key := ZSet (members v) (Some (now + seconds))]> d, 1)
  | None => (delete key d, 0)
  end.

(** [DEL key ...]: the keys are gone afterwards, whether they existed or
    not (the reply, the number of keys removed, is not used by the code). *)
Definition del (keys : list string) (d : db) : db :=
  foldr delete d keys.

Definition run (now : Z) (c : command) (d : db) : db * Z :=
  match c with
  | ZREMRANGEBYSCORE key lo hi => zremrangebyscore now key lo hi d
  | ZADD key member score => zadd now key member score d
  | ZCARD key => zcard now key d
  | EXPIRE key seconds => expire now key seconds d
  end.

(** [pipe.execute()]: the queued commands run in order as one
    transaction; the replies come back in the same order. *)
Fixpoint execute (now : Z) (cs : list command) (d : db) : db * list Z :=
  match cs with
  | [] => (d, [])
  | c :: cs' =>
      let '(d1, r) := run now c d in
      let '(d2, rs) := execute now cs' d1 in
      (d2, r :: rs)
  end.

(** The events held under a key at time [now]. *)
Definition events (now : Z) (key : string) (d : db) : gmap string Z :=
  match get now key d with
  | Some v => members v
  | None => ∅
  end.

(** The events that [ZREMRANGEBYSCORE key lo hi] leaves in place. *)
Definition outside (lo hi : Z) (m : gmap string Z) : gmap string Z :=
  filter (λ p, ¬ in_range lo hi p) m.

End Redis.

(** ** The sliding window limiter: [utils/rate_limiter.py] *)

Module RateLimiter.

(** What the limiter asked of its collaborators, oldest first. *)
Inductive effect :=
| Log (l : level) (msg : string)
| RedisExecute (cmds : list Redis.command)
| RedisDelete (keys : list string).

(** The [detail] dictionary of the 429 response. *)
Record Detail := mkDetail {
  error : string;
  limit_type : string;
  limit : Z;
  current : Z;
  reset_in_seconds : Z
}.

Inductive exn :=
| ZeroDivisionError
| AttributeError
| ConnectionError
| HTTPException (status_code : Z) (detail : Detail).

Inductive result (A : Type) :=
| Ok (a : A)
| Raise (e : exn).
Arguments Ok {A} a.
Arguments Raise {A} e.

(** [settings.rate_limit_per_minute] and [settings.rate_limit_per_hour]. *)
Record Settings := mkSettings {
  rate_limit_per_minute : Z;
  rate_limit_per_hour : Z
}.

(** The defaults of [config.py]. *)
Definition default_settings : Settings := mkSettings 60 1000.

(** What [self.redis] is, and what stands behind it: [None], which is what
    [__init__] leaves when the first ping fails; a client whose store
    answers, with the contents of that store; or a client whose store no
    longer answers, every command on which raises [redis.ConnectionError]. *)
Inductive connection :=
| NoClient
| Connected (d : Redis.db)
| Lost.

(** The limiter object and the world around it.  [store] is [self.redis]
    with the store behind it; whether the store answers is taken not to
    change while one method of the limiter runs.  [clock] gives the
    successive values of [int(time.time())] and [reads] counts how many were
    taken; the store is taken to run on the same clock as the caller. *)
Record World := mkWorld {
  store : connection;
  clock : nat → Z;
  reads : nat;
  journal : list effect
}.

(** The contents of the store, when there is a client and the store
    answers it. *)
Definition redis (w : World) : option Redis.db :=
  match store w with
  | Connected d => Some d
  | NoClient | Lost => None
  end.

Definition M (A : Type) : Type := World → result A * World.

Definition ret {A} (a : A) : M A := λ w, (Ok a, w).

Definition bind {A B} (m : M A) (k : A → M B) : M B :=
  λ w, match m w with
       | (Ok a, w') => k a w'
       | (Raise e, w') => (Raise e, w')
       end.

Declare Scope py_scope.
Delimit Scope py_scope with py.
Notation "'let*' x ':=' m 'in' k" := (bind m (λ x, k))
  (at level 10, x pattern, m at level 100, k at level 200) : py_scope.
Notation "m ';;' k" := (bind m (λ _, k))
  (at level 100, k at level 200, right associativity) : py_scope.
Local Open Scope py_scope.

Definition raise {A} (e : exn) : M A := λ w, (Raise e, w).

Definition emit (e : effect) : M unit :=
  λ w, (Ok tt, mkWorld (store w) (clock w) (reads w) (journal w ++ [e])).

Definition log (l : level) (msg : string) : M unit := emit (Log l msg).

(** [int(time.time())] *)
Definition time_time : M Z :=
  λ w, (Ok (clock w (reads w)),
        mkWorld (store w) (clock w) (S (reads w)) (journal w)).

(** [a % b] *)
Definition py_mod (a b : Z) : M Z :=
  if bool_decide (b = 0) then raise ZeroDivisionError else ret (a `mod` b).

(** A round trip to the store at server time [now], [pipe.execute()].  On
    [self.redis = None] the attribute access fails; on a store that does
    not answer the client raises [redis.ConnectionError], and nothing is
    entered in the journal for a command that did not get through. *)
Definition redis_execute (now : Z) (cmds : list Redis.command) : M (list Z) :=
  λ w, match store w with
       | Connected d =>
           let '(d', rs) := Redis.execute now cmds d in
           (Ok rs, mkWorld (Connected d') (clock w) (reads w)
                     (journal w ++ [RedisExecute cmds]))
       | Lost => (Raise ConnectionError, w)
       | NoClient => (Raise AttributeError, w)
       end.

(** [self.redis] as a condition: a client object is truthy, whether its
    store answers or not. *)
Definition redis_available : M bool :=
  λ w, (Ok (match store w with NoClient => false | _ => true end), w).

(** The incoming request: header names are lower case as the server hands
    them over, [client] is the transport peer. *)
Record Request := mkRequest {
  headers : list (string * string);
  client : option (string * Z)
}.

(** [request.headers.get(name)]: the first header of that name, compared
    without regard to case. *)
Definition headers_get (name : string) (r : Request) : option string :=
  snd <$> List.find (λ h, bool_decide (h.1 = Py.lower name)) (headers r).

(** [_get_client_ip], lines 31-42: [if forwarded_for:] and [if real_ip:]
    test the header values for truthiness. *)
Definition _get_client_ip (request : Request) : string :=
  let forwarded_for := headers_get "X-Forwarded-For" request in
  if Py.truthy_opt forwarded_for then
    Py.strip (List.hd EmptyString (Py.split "," (default EmptyString forwarded_for)))
  else
    let real_ip := headers_get "X-Real-IP" request in
    if Py.truthy_opt real_ip then default EmptyString real_ip
    else match client request with
         | Some (host, _) => host
         | None => "unknown"
         end.

(** [_get_token_from_request], lines 44-49. *)
Definition _get_token_from_request (request : Request) : option string :=
  match headers_get "Authorization" request with
  | Some auth_header =>
      if Py.truthy auth_header && String.prefix "Bearer " auth_header
      then Py.split " " auth_header !! 1%nat
      else None
  | None => None
  end.

(** [_generate_key], lines 51-53. *)
Definition _generate_key (prefix identifier window : string) : string :=
  "rate_limit:" +:+ prefix +:+ ":" +:+ identifier +:+ ":" +:+ window.

(** [_is_rate_limited], lines 55-89; the answer is
    [(is_limited, current_count, remaining_seconds)]. *)
Definition _is_rate_limited (key : string) (limit window_seconds : Z)
  : M (bool * Z * Z) :=
  let* up := redis_available in
  if negb up then
    log Warning "Redis not available, skipping rate limiting" ;;
    ret (false, 0, 0)
  else
    let* current_time := time_time in
    let* r := py_mod current_time window_seconds in
    let window_start := current_time - r in
    let* results := redis_execute current_time
      [ Redis.ZREMRANGEBYSCORE key 0 (window_start - 1);
        Redis.ZADD key (pretty current_time) current_time;
        Redis.ZCARD key;
        Redis.EXPIRE key window_seconds ] in
    let current_count := List.nth 2 results 0 in
    let is_limited := bool_decide (limit < current_count) in
    (if is_limited
     then log Warning ("Rate limit exceeded for key: " +:+ key)
     else ret tt) ;;
    let* r' := py_mod current_time window_seconds in
    ret (is_limited, current_count, window_seconds - r').

(** The start of the wall-clock aligned window that holds [now]. *)
Definition window_start (now window_seconds : Z) : Z :=
  now - now `mod` window_seconds.

(** The commands one check queues for [key] at time [now]. *)
Definition check_commands (key : string) (now window_seconds : Z)
  : list Redis.command :=
  [ Redis.ZREMRANGEBYSCORE key 0 (window_start now window_seconds - 1);
    Redis.ZADD key (pretty now) now;
    Redis.ZCARD key;
    Redis.EXPIRE key window_seconds ].

(** The events held under [key] once a check at [now] has run on [d]. *)
Definition checked_events (now window_seconds : Z) (key : string)
    (d : Redis.db) : gmap string Z :=
  <[pretty now := now]>
    (Redis.outside 0 (window_start now window_seconds - 1)
       (Redis.events now key d)).

(** A run of checks, one after the other, with their answers; each call
    is a key with its limit and window. *)
Fixpoint check_all (calls : list (string * Z * Z)) : M (list (bool * Z * Z)) :=
  match calls with
  | [] => ret []
  | (key, limit, window_seconds) :: rest =>
      let* r := _is_rate_limited key limit window_seconds in
      let* rs := check_all rest in
      ret (r :: rs)
  end.

(** The keys for which a round trip of a check went out, oldest first. *)
Definition checked_keys (j : list effect) : list string :=
  omap (λ e, match e with
             | RedisExecute (Redis.ZREMRANGEBYSCORE key _ _ :: _) => Some key
             | _ => None
             end) j.

(** [self.redis.delete(k1, k2, ...)] *)
Definition redis_delete (keys : list string) : M unit :=
  λ w, match store w with
       | Connected d =>
           (Ok tt, mkWorld (Connected (Redis.del keys d)) (clock w) (reads w)
                     (journal w ++ [RedisDelete keys]))
       | Lost => (Raise ConnectionError, w)
       | NoClient => (Raise AttributeError, w)
       end.

(** [try: m  except Exception as e: handler e] *)
Definition try_except {A} (m : M A) (handler : exn → M A) : M A :=
  λ w, match m w with
       | (Ok a, w') => (Ok a, w')
       | (Raise e, w') => handler e w'
       end.

Definition too_many (err lt : string) (lim cur reset : Z) : exn :=
  HTTPException 429 (mkDetail err lt lim cur reset).

Section Facade.

(** [hashlib.sha256(token.encode()).hexdigest()], a library function, and the
    [settings] object of [config.py]. *)
Variable sha256_hexdigest : string → string.
Variable settings : Settings.

(** [check_rate_limit], lines 91-197; raising [HTTPException(429, ...)] is
    the denial. *)
Definition check_rate_limit (request : Request)
    (limit_per_minute limit_per_hour : option Z) : M unit :=
  let* up := redis_available in
  if negb up then ret tt
  else
    let client_ip := _get_client_ip request in
    let token := _get_token_from_request request in
    let limit_per_minute :=
      Py.or_default limit_per_minute (rate_limit_per_minute settings) in
    let limit_per_hour :=
      Py.or_default limit_per_hour (rate_limit_per_hour settings) in
    let ip_key_minute := _generate_key "ip" client_ip "minute" in
    let ip_key_hour := _generate_key "ip" client_ip "hour" in
    let* (is_limited_minute, count_minute, remaining_minute) :=
      _is_rate_limited ip_key_minute limit_per_minute 60 in
    let* (is_limited_hour, count_hour, remaining_hour) :=
      _is_rate_limited ip_key_hour limit_per_hour 3600 in
    if is_limited_minute then
      raise (too_many "Rate limit exceeded" "per_minute"
               limit_per_minute count_minute remaining_minute)
    else if is_limited_hour then
      raise (too_many "Rate limit exceeded" "per_hour"
               limit_per_hour count_hour remaining_hour)
    else
      (if Py.truthy_opt token then
         let token_hash := sha256_hexdigest (default EmptyString token) in
         let token_key_minute := _generate_key "token" token_hash "minute" in
         let token_key_hour := _generate_key "token" token_hash "hour" in
         let* (is_limited_token_minute, count_token_minute, remaining_token_minute) :=
           _is_rate_limited token_key_minute limit_per_minute 60 in
         let* (is_limited_token_hour, count_token_hour, remaining_token_hour) :=
           _is_rate_limited token_key_hour limit_per_hour 3600 in
         if is_limited_token_minute then
           raise (too_many "Token rate limit exceeded" "per_minute"
                    limit_per_minute count_token_minute remaining_token_minute)
         else if is_limited_token_hour then
           raise (too_many "Token rate limit exceeded" "per_hour"
                    limit_per_hour count_token_hour remaining_token_hour)
         else ret tt
       else ret tt) ;;
      log Debug "Rate limit check passed".


End Facade.

(** [clear_rate_limits], lines 237-260. *)
Definition clear_rate_limits (identifier limit_type : string) : M bool :=
  let* up := redis_available in
  if negb up then ret false
  else
    try_except
      (let minute_key := _generate_key limit_type identifier "minute" in
       let hour_key := _generate_key limit_type identifier "hour" in
       redis_delete [minute_key; hour_key] ;;
       log Info ("Cleared rate limits for " +:+ limit_type +:+ ": " +:+ identifier) ;;
       ret true)
      (λ e, log Error "Failed to clear rate limits" ;; ret false).

(** *** Readings of the specification, to compare the code with *)

(** The identity of a request as the specification words it: a header that
    is present decides, whatever it holds. *)
Definition client_ip_as_specified (request : Request) : string :=
  match headers_get "X-Forwarded-For" request with
  | Some v => Py.strip (List.hd EmptyString (Py.split "," v))
  | None =>
      match headers_get "X-Real-IP" request with
      | Some v => v
      | None =>
          match client request with
          | Some (host, _) => host
          | None => "unknown"
          end
      end
  end.

(** The events of [m] with a time stamp in [[lo, hi]]. *)
Definition within (lo hi : Z) (m : gmap string Z) : gmap string Z :=
  filter (λ p, Redis.in_range lo hi p) m.

(** The window as the specification words it: a check at [now] reports the
    number of events, its own included, that lie in [[now - window, now]]. *)
Definition sliding_window_claim : Prop :=
  ∀ key limit window_seconds w d,
    redis w = Some d → 0 < window_seconds →
    let now := clock w (reads w) in
    ∃ is_limited remaining w',
      _is_rate_limited key limit window_seconds w
      = (Ok (is_limited,
             Z.of_nat (size (within (now - window_seconds) now
                               (<[pretty now := now]> (Redis.events now key d)))),
             remaining), w').


(** Short-circuiting as the specification words it, for the first window:
    when the IP minute window denies, no later window was checked. *)
Definition short_circuit_claim : Prop :=
  ∀ sha settings request limit_per_minute limit_per_hour w lim cur reset w',
    check_rate_limit sha settings request limit_per_minute limit_per_hour w
    = (Raise (too_many "Rate limit exceeded" "per_minute" lim cur reset), w') →
    checked_keys (journal w')
    = checked_keys (journal w)
      ++ [_generate_key "ip" (_get_client_ip request) "minute"].

End RateLimiter.


(** ** The command channel: [services/mqtt_client.py] *)

Module MQTT.

Local Unset Elimination Schemes.

(** A decoded JSON document, as [json.loads] returns it. *)
Inductive json :=
| JNull
| JBool (b : bool)
| JInt (n : Z)
| JFloat (literal : string)
| JString (s : string)
| JArray (items : list json)
| JObject (fields : list (string * json)).

Local Set Elimination Schemes.

(** The value of a decimal digit. *)
Definition digit (c : ascii) : option Z :=
  let n := Z.of_nat (nat_of_ascii c) in
  if (48 <=? n) && (n <=? 57) then Some (n - 48) else None.

(** The digits [s] starts with: their value, read after [acc], how many
    they are after [count], and what follows them. *)
Fixpoint read_digits (s : string) (acc count : Z) : Z * Z * string :=
  match s with
  | String c r =>
      match digit c with
      | Some d => read_digits r (10 * acc + d) (count + 1)
      | None => (acc, count, s)
      end
  | EmptyString => (acc, count, s)
  end.

(** Whether the float that the number token [literal] is read as is zero.
    [float] rounds to the nearest double, ties to even, so this is the case
    exactly when the value [mantissa * 10 ^ e10] is at most [2 ^ -1075],
    half the smallest positive double; a value below [10 ^ -324] is, and
    this is settled without computing the power.  [NaN] and [Infinity],
    which are no number tokens, are not zero. *)
Definition float_is_zero (literal : string) : bool :=
  let unsigned :=
    match literal with
    | String "-" r => r
    | _ => literal
    end in
  let '(int_part, n_int, rest) := read_digits unsigned 0 0 in
  if n_int =? 0 then false
  else
    let '(mantissa, n_frac, rest) :=
      match rest with
      | String "." r => read_digits r int_part 0
      | _ => (int_part, 0, rest)
      end in
    let exponent :=
      match rest with
      | String e r =>
          if Ascii.eqb e "e" || Ascii.eqb e "E" then
            match r with
            | String "-" r' => - (read_digits r' 0 0).1.1
            | String "+" r' => (read_digits r' 0 0).1.1
            | _ => (read_digits r 0 0).1.1
            end
          else 0
      | EmptyString => 0
      end in
    let e10 := exponent - n_frac in
    if mantissa =? 0 then true
    else if n_int + n_frac + e10 <=? -324 then true
    else if e10 <? 0 then mantissa * 2 ^ 1075 <=? 10 ^ (- e10)
    else false.

(** The truth value of a decoded document: [None], [False], zero, the
    empty string, the empty list and the empty dictionary are falsy. *)
Definition json_truthy (v : json) : bool :=
  match v with
  | JNull => false
  | JBool b => b
  | JInt n => negb (n =? 0)
  | JFloat literal => negb (float_is_zero literal)
  | JString s => Py.truthy s
  | JArray items => match items with [] => false | _ => true end
  | JObject fields => match fields with [] => false | _ => true end
  end.

(** [parameters or {}]: the argument, unless it is missing or falsy. *)
Definition or_empty_dict (parameters : option json) : json :=
  match parameters with
  | Some v => if json_truthy v then v else JObject []
  | None => JObject []
  end.

(** What a call into the paho client came back with: a result code, or an
    [Exception]. *)
Inductive outcome :=
| Returns (rc : Z)
| Raises (what : string).

Definition MQTT_ERR_SUCCESS : Z := 0.

(** How a call of a registered callable ends: it returns; it raises an
    [Exception]; or it raises a [BaseException] that is no [Exception]
    ([SystemExit], [KeyboardInterrupt], [GeneratorExit]), which
    [except Exception] does not catch. *)
Inductive ending :=
| Returned
| Raised (what : string)
| Exited (what : string).

Local Unset Elimination Schemes.

(** What a registered callable does to the service on its way: the calls
    it makes to the methods of the service, in order, each with what the
    outside world answers it.  A callable is handed the decoded document;
    it is foreign code, and it acts on the service through these methods. *)
Inductive call :=
| CallConnect (res : outcome)
| CallDisconnect (stop disc : outcome)
| CallPublishOrder (order_id item_id : string) (slot_id quantity utcnow : Z)
    (res : outcome)
| CallPublishAdminCommand (command : string) (parameters : option json)
    (utcnow : Z) (res : outcome)
| CallRegisterMessageHandler (topic : string) (h : json → list call * ending)
| CallIsHealthy (utcnow : Z).

Local Set Elimination Schemes.

(** A registered callback: the calls it makes for a document, and how it
    ends. *)
Definition handler : Type := json → list call * ending.

Record Message := mkMessage {
  topic : string;
  payload : string
}.

(** The dictionary that is serialized and published. *)
Inductive Payload :=
| OrderPayload (order_id item_id : string) (slot_id quantity : Z) (timestamp : Z)
| AdminPayload (command : string) (parameters : json) (timestamp : Z).

Inductive effect :=
| Log (l : level) (msg : string)
| Sleep (seconds : Z)
| ClientConnect (broker : string) (port keepalive : Z)
| ClientLoopStart
| ClientLoopStop
| ClientDisconnect
| ClientSubscribe (topic : string) (qos : Z)
| ClientPublish (topic : string) (message : Payload) (qos : Z)
| HandlerCall (topic : string) (data : json)
| Propagates (what : string).

Record Settings := mkSettings {
  mqtt_broker : string;
  mqtt_port : Z;
  mqtt_keepalive : Z
}.

(** The defaults of [config.py]. *)
Definition default_settings : Settings := mkSettings "mqtt.foodyeh.io" 8883 60.

(** The attributes of an [MQTTService] object.  [client] is the paho client
    (named by its client id), times are in microseconds since the epoch. *)
Record MQTTService := mkService {
  client : option string;
  is_connected : bool;
  connection_attempts : Z;
  max_connection_attempts : Z;
  reconnect_delay : Z;
  message_handlers : gmap string handler;
  last_connection_time : option Z;
  last_message_time : option Z
}.

Definition set_is_connected (b : bool) (s : MQTTService) : MQTTService :=
  mkService (client s) b (connection_attempts s) (max_connection_attempts s)
    (reconnect_delay s) (message_handlers s) (last_connection_time s)
    (last_message_time s).

Definition set_connection_attempts (n : Z) (s : MQTTService) : MQTTService :=
  mkService (client s) (is_connected s) n (max_connection_attempts s)
    (reconnect_delay s) (message_handlers s) (last_connection_time s)
    (last_message_time s).

Definition set_last_connection_time (t : Z) (s : MQTTService) : MQTTService :=
  mkService (client s) (is_connected s) (connection_attempts s)
    (max_connection_attempts s) (reconnect_delay s) (message_handlers s)
    (Some t) (last_message_time s).

Definition set_last_message_time (t : Z) (s : MQTTService) : MQTTService :=
  mkService (client s) (is_connected s) (connection_attempts s)
    (max_connection_attempts s) (reconnect_delay s) (message_handlers s)
    (last_connection_time s) (Some t).

Definition set_message_handlers (h : gmap string handler) (s : MQTTService)
  : MQTTService :=
  mkService (client s) (is_connected s) (connection_attempts s)
    (max_connection_attempts s) (reconnect_delay s) h
    (last_connection_time s) (last_message_time s).

(** [__init__], lines 21-37, with [_setup_client] having built the client. *)
Definition init (client_id : string) : MQTTService * list effect :=
  (mkService (Some client_id) false 0 5 5 ∅ None None,
   [Log Info "MQTT client setup completed"]).

Definition subscriptions : list (string * Z) :=
  [ ("foodyeh/status", 1);
    ("foodyeh/order/+/response", 1);
    ("foodyeh/error", 1);
    ("foodyeh/heartbeat", 0) ].

(** [_subscribe_to_topics], lines 153-170; [sub] is what [client.subscribe] answers for
    each topic. *)
Definition _subscribe_to_topics (sub : string → outcome) (s : MQTTService)
  : list effect :=
  flat_map
    (λ '(topic, qos),
       match client s with
       | None => [Log Error ("Error subscribing to topic " +:+ topic)]
       | Some _ =>
           ClientSubscribe topic qos ::
           match sub topic with
           | Returns rc =>
               if bool_decide (rc = MQTT_ERR_SUCCESS)
               then [Log Info ("Subscribed to topic: " +:+ topic)]
               else [Log Error ("Failed to subscribe to topic: " +:+ topic)]
           | Raises _ => [Log Error ("Error subscribing to topic " +:+ topic)]
           end
       end)
    subscriptions.

(** [_on_connect], lines 77-98. *)
Definition _on_connect (rc : Z) (utcnow : Z) (sub : string → outcome)
    (s : MQTTService) : MQTTService * list effect :=
  if bool_decide (rc = 0) then
    let s1 := set_is_connected true s in
    let s2 := set_connection_attempts 0 s1 in
    let s3 := set_last_connection_time utcnow s2 in
    (s3, Log Info "MQTT client connected successfully"
           :: _subscribe_to_topics sub s3)
  else
    (set_is_connected false s, [Log Error "MQTT connection failed"]).

Section Service.

(** The [settings] object, and the two library functions [_on_message]
    relies on: [bytes.decode('utf-8')] ([None] for [UnicodeDecodeError]) and
    [json.loads] ([None] for [JSONDecodeError]). *)
Variable settings : Settings.
Variable decode_utf8 : string → option string.
Variable json_loads : string → option json.

(** [connect], lines 172-203; [res] is what [client.connect] came back with. *)
Definition connect (res : outcome) (s : MQTTService) : bool * list effect :=
  match client s with
  | None => (false, [Log Error "MQTT client not initialized"])
  | Some _ =>
      let attempt :=
        [ Log Info "Connecting to MQTT broker";
          ClientConnect (mqtt_broker settings) (mqtt_port settings)
            (mqtt_keepalive settings) ] in
      match res with
      | Returns result =>
          if bool_decide (result = MQTT_ERR_SUCCESS)
          then (true, attempt ++ [ClientLoopStart])
          else (false, attempt ++ [Log Error "Failed to connect to MQTT broker"])
      | Raises _ => (false, attempt ++ [Log Error "MQTT connection error"])
      end
  end.

(** [_on_disconnect], lines 100-110; [res] is the result of the [client.connect] call a
    retry makes. *)
Definition _on_disconnect (rc : Z) (res : outcome) (s : MQTTService)
  : MQTTService * list effect :=
  let s1 := set_is_connected false s in
  let warned := [Log Warning "MQTT client disconnected"] in
  if bool_decide (rc ≠ 0)
     && bool_decide (connection_attempts s1 < max_connection_attempts s1)
  then
    let s2 := set_connection_attempts (connection_attempts s1 + 1) s1 in
    (s2, warned
         ++ [Log Info "Attempting MQTT reconnection"; Sleep (reconnect_delay s2)]
         ++ (connect res s2).2)
  else (s1, warned).

(** [disconnect], lines 205-214; [stop] and [disc] are what [client.loop_stop] and
    [client.disconnect] came back with. *)
Definition disconnect (stop disc : outcome) (s : MQTTService)
  : MQTTService * list effect :=
  match client s with
  | Some _ =>
      if is_connected s then
        match stop, disc with
        | Raises _, _ =>
            (s, [ClientLoopStop; Log Error "Error disconnecting MQTT client"])
        | Returns _, Raises _ =>
            (s, [ClientLoopStop; ClientDisconnect;
                 Log Error "Error disconnecting MQTT client"])
        | Returns _, Returns _ =>
            (set_is_connected false s,
             [ClientLoopStop; ClientDisconnect; Log Info "MQTT client disconnected"])
        end
      else (s, [])
  | None => (s, [])
  end.

(** The part of both publish methods under [try]: [client.publish] with the
    serialized payload, then the check of its result code [res].  [done],
    [refused] and [broke] are the three lines the method can log. *)
Definition send (done refused broke : string) (topic : string)
    (message : Payload) (qos : Z) (res : outcome) (s : MQTTService)
  : bool * list effect :=
  match client s with
  | None => (false, [Log Error broke])
  | Some _ =>
      match res with
      | Returns rc =>
          if bool_decide (rc = MQTT_ERR_SUCCESS)
          then (true, [ClientPublish topic message qos; Log Info done])
          else (false, [ClientPublish topic message qos; Log Error refused])
      | Raises _ => (false, [ClientPublish topic message qos; Log Error broke])
      end
  end.

(** [publish_order], lines 216-257. *)
Definition publish_order (order_id item_id : string) (slot_id quantity : Z)
    (utcnow : Z) (res : outcome) (s : MQTTService) : bool * list effect :=
  if negb (is_connected s) then
    (false, [Log Error "Cannot publish order: MQTT not connected"])
  else
    send "Order published successfully" "Failed to publish order"
      "Error publishing order"
      ("foodyeh/order/" +:+ order_id)
      (OrderPayload order_id item_id slot_id quantity utcnow) 1 res s.

(** [publish_admin_command], lines 259-295. *)
Definition publish_admin_command (command : string) (parameters : option json)
    (utcnow : Z) (res : outcome) (s : MQTTService) : bool * list effect :=
  if negb (is_connected s) then
    (false, [Log Error "Cannot publish admin command: MQTT not connected"])
  else
    send "Admin command published successfully"
      "Failed to publish admin command" "Error publishing admin command"
      ("foodyeh/admin/" +:+ command)
      (AdminPayload command (or_empty_dict parameters) utcnow) 2 res s.

(** [register_message_handler], lines 297-306. *)
Definition register_message_handler (topic : string) (h : handler)
    (s : MQTTService) : MQTTService * list effect :=
  (set_message_handlers (<[topic := h]> (message_handlers s)) s,
   [Log Info ("Registered message handler for topic: " +:+ topic)]).

(** [is_healthy], lines 324-342: [total_seconds() > 300], on microsecond
    time stamps. *)
Definition is_healthy (utcnow : Z) (s : MQTTService) : bool * list effect :=
  if negb (is_connected s) then (false, [])
  else
    match last_message_time s with
    | Some t =>
        let time_since_last_message := utcnow - t in
        if bool_decide (300 * 1000000 < time_since_last_message)
        then (false, [Log Warning "No MQTT messages received recently"])
        else (true, [])
    | None => (true, [])
    end.

(** One call of a method of the service by a registered callable. *)
Definition invoke (c : call) (s : MQTTService) : MQTTService * list effect :=
  match c with
  | CallConnect res => (s, (connect res s).2)
  | CallDisconnect stop disc => disconnect stop disc s
  | CallPublishOrder order_id item_id slot_id quantity utcnow res =>
      (s, (publish_order order_id item_id slot_id quantity utcnow res s).2)
  | CallPublishAdminCommand command parameters utcnow res =>
      (s, (publish_admin_command command parameters utcnow res s).2)
  | CallRegisterMessageHandler topic h => register_message_handler topic h s
  | CallIsHealthy utcnow => (s, (is_healthy utcnow s).2)
  end.

(** The calls of a callable, one after the other. *)
Fixpoint perform (calls : list call) (s : MQTTService)
  : MQTTService * list effect :=
  match calls with
  | [] => (s, [])
  | c :: rest =>
      let '(s1, tr1) := invoke c s in
      let '(s2, tr2) := perform rest s1 in
      (s2, tr1 ++ tr2)
  end.

(** [_on_message], lines 112-138.  Everything happens under
    [try ... except Exception], the call of the handler under one of its
    own: an [Exception] of the handler is logged there, anything else it
    raises passes both and leaves the callback, which [Propagates]
    records. *)
Definition _on_message (msg : Message) (utcnow : Z) (s : MQTTService)
  : MQTTService * list effect :=
  let s1 := set_last_message_time utcnow s in
  match decode_utf8 (payload msg) with
  | None => (s1, [Log Error "Error processing MQTT message"])
  | Some text =>
      let received := [Log Debug "Received MQTT message"] in
      match json_loads text with
      | None => (s1, received ++ [Log Warning "Invalid JSON payload received"])
      | Some data =>
          match message_handlers s1 !! topic msg with
          | Some h =>
              let '(s2, done) := perform (h data).1 s1 in
              (s2, received ++ HandlerCall (topic msg) data :: done ++
                   match (h data).2 with
                   | Returned => []
                   | Raised _ =>
                       [Log Error ("Error in message handler for topic "
                                   +:+ topic msg)]
                   | Exited what => [Propagates what]
                   end)
          | None =>
              (s1, received ++ [Log Debug "No handler registered for topic"])
          end
      end
  end.

(** What can happen to the service: the callbacks the client runtime
    delivers and the methods the request handlers call, each with the
    answers of the outside world it depends on. *)
Inductive event :=
| OnConnect (rc utcnow : Z) (sub : string → outcome)
| OnDisconnect (rc : Z) (res : outcome)
| OnMessage (msg : Message) (utcnow : Z)
| Connect (res : outcome)
| Disconnect (stop disc : outcome)
| PublishOrder (order_id item_id : string) (slot_id quantity utcnow : Z)
    (res : outcome)
| PublishAdminCommand (command : string) (parameters : option json)
    (utcnow : Z) (res : outcome)
| RegisterMessageHandler (topic : string) (h : handler)
| IsHealthy (utcnow : Z).

Definition step (s : MQTTService) (e : event) : MQTTService * list effect :=
  match e with
  | OnConnect rc utcnow sub => _on_connect rc utcnow sub s
  | OnDisconnect rc res => _on_disconnect rc res s
  | OnMessage msg utcnow => _on_message msg utcnow s
  | Connect res => (s, (connect res s).2)
  | Disconnect stop disc => disconnect stop disc s
  | PublishOrder order_id item_id slot_id quantity utcnow res =>
      (s, (publish_order order_id item_id slot_id quantity utcnow res s).2)
  | PublishAdminCommand command parameters utcnow res =>
      (s, (publish_admin_command command parameters utcnow res s).2)
  | RegisterMessageHandler topic h => register_message_handler topic h s
  | IsHealthy utcnow => (s, (is_healthy utcnow s).2)
  end.

Fixpoint run (s : MQTTService) (es : list event) : MQTTService * list effect :=
  match es with
  | [] => (s, [])
  | e :: es' =>
      let '(s1, tr1) := step s e in
      let '(s2, tr2) := run s1 es' in
      (s2, tr1 ++ tr2)
  end.

(** The states the service can be in: those [__init__] builds and those the
    events lead to. *)
Inductive reachable : MQTTService → Prop :=
| reachable_init client_id : reachable (init client_id).1
| reachable_step s e : reachable s → reachable (step s e).1.

End Service.

(** The delays of the reconnection attempts a trace holds, in order: every
    automatic retry sleeps first. *)
Definition retry_delays (tr : list effect) : list Z :=
  omap (λ e, match e with Sleep d => Some d | _ => None end) tr.

(** The calls to [client.connect] a trace holds. *)
Definition connect_calls (tr : list effect) : list (string * Z * Z) :=
  omap (λ e, match e with
             | ClientConnect b p k => Some (b, p, k)
             | _ => None
             end) tr.

(** The messages handed to [client.publish] in a trace. *)
Definition published (tr : list effect) : list (string * Payload * Z) :=
  omap (λ e, match e with
             | ClientPublish t m q => Some (t, m, q)
             | _ => None
             end) tr.

(** An unexpected disconnect: the callback fires with a code other than 0. *)
Definition unexpected (d : Z * outcome) : event := OnDisconnect d.1 d.2.

(** The broker accepting a connection: [_on_connect] fires with code 0. *)
Definition accepted (e : event) : bool :=
  match e with
  | OnConnect rc _ _ => bool_decide (rc = 0)
  | _ => false
  end.

(** A call of [connect] by the application. *)
Definition explicit_connect (e : event) : bool :=
  match e with
  | Connect _ => true
  | _ => false
  end.

(** What a trace holds of reconnection: the sleeps and the calls of
    [client.connect], in order. *)
Definition retries (tr : list effect) : list effect :=
  List.filter (λ e, match e with
                    | Sleep _ | ClientConnect _ _ _ => true
                    | _ => false
                    end) tr.

(** The exceptions that left a callback, in a trace. *)
Definition propagated (tr : list effect) : list string :=
  omap (λ e, match e with Propagates what => Some what | _ => None end) tr.

(** [is_healthy] as the specification words it: connected, and an inbound
    message observed within the last 300 seconds. *)
Definition healthy_as_specified (utcnow : Z) (s : MQTTService) : bool :=
  is_connected s
  && match last_message_time s with
     | Some t => bool_decide (utcnow - t ≤ 300 * 1000000)
     | None => false
     end.

(** What [__init__] sets up and every event keeps: the budget is 5 attempts
    with 5 seconds in between, the attempt count stays within the budget,
    and a connected service has a count of 0. *)
Definition well_formed (s : MQTTService) : Prop :=
  max_connection_attempts s = 5
  ∧ reconnect_delay s = 5
  ∧ 0 ≤ connection_attempts s ≤ 5
  ∧ (is_connected s = true → connection_attempts s = 0).

(** The retry budget is spent and the link is down: line 106 of the source
    refuses to retry in exactly this situation.  This is what the service
    has in place of a FAILED state. *)
Definition failed (s : MQTTService) : Prop :=
  is_connected s = false ∧ max_connection_attempts s ≤ connection_attempts s.

(** The FAILED state as the specification words it: once entered, it
    lasts until [connect] is called. *)
Definition stays_failed_claim : Prop :=
  ∀ settings decode_utf8 json_loads s es,
    reachable settings decode_utf8 json_loads s → failed s →
    Forall (λ e, explicit_connect e = false) es →
    failed (run settings decode_utf8 json_loads s es).1.

(** Handler faults as the specification words them: a handler that raises
    is caught and logged. *)
Definition handler_faults_caught_claim : Prop :=
  ∀ settings decode_utf8 json_loads msg utcnow s text data (h : handler),
    decode_utf8 (payload msg) = Some text → json_loads text = Some data →
    message_handlers s !! topic msg = Some h → (h data).2 ≠ Returned →
    last (_on_message settings decode_utf8 json_loads msg utcnow s).2
    = Some (Log Error ("Error in message handler for topic " +:+ topic msg)).

End MQTT.

(** ** More of [utils/rate_limiter.py]: reading the counters *)

Module Quota.
Import RateLimiter.
Local Open Scope py_scope.

(** The two numbers of a ["per_minute"] / ["per_hour"] dictionary. *)
Record Counts := mkCounts {
  per_minute : Z;
  per_hour : Z
}.

(** The dictionary [get_rate_limit_info] returns. *)
Inductive RateLimitInfo :=
| InfoError (error : string)
| Info (ip : string) (limits ip_counts : Counts) (token_counts : option Counts).

(** [self.redis.zcard(key)], a round trip of its own.  The store's time is
    the one the caller's clock shows at that moment; the caller does not
    read it. *)
Definition redis_zcard (key : string) : M Z :=
  λ w, match store w with
       | Connected d =>
           let '(d', n) := Redis.zcard (clock w (reads w)) key d in
           (Ok n, mkWorld (Connected d') (clock w) (reads w)
                    (journal w ++ [RedisExecute [Redis.ZCARD key]]))
       | Lost => (Raise ConnectionError, w)
       | NoClient => (Raise AttributeError, w)
       end.

Section Info.

Variable sha256_hexdigest : string → string.
Variable settings : Settings.

(** [get_rate_limit_info], lines 199-235. *)
Definition get_rate_limit_info (request : Request) : M RateLimitInfo :=
  let* up := redis_available in
  if negb up then ret (InfoError "Redis not available")
  else
    let client_ip := _get_client_ip request in
    let token := _get_token_from_request request in
    let limits :=
      mkCounts (rate_limit_per_minute settings) (rate_limit_per_hour settings) in
    let ip_key_minute := _generate_key "ip" client_ip "minute" in
    let ip_key_hour := _generate_key "ip" client_ip "hour" in
    let* ip_minute := redis_zcard ip_key_minute in
    let* ip_hour := redis_zcard ip_key_hour in
    if Py.truthy_opt token then
      let token_hash := sha256_hexdigest (default EmptyString token) in
      let token_key_minute := _generate_key "token" token_hash "minute" in
      let token_key_hour := _generate_key "token" token_hash "hour" in
      let* token_minute := redis_zcard token_key_minute in
      let* token_hour := redis_zcard token_key_hour in
      ret (Info client_ip limits (mkCounts ip_minute ip_hour)
             (Some (mkCounts token_minute token_hour)))
    else
      ret (Info client_ip limits (mkCounts ip_minute ip_hour) None).

End Info.

(** The events of a key as the limiter itself writes them: each is keyed by
    the decimal text of its time stamp, and none lies before the epoch or
    after [now]. *)
Definition stamped (now : Z) (m : gmap string Z) : Prop :=
  ∀ member score, m !! member = Some score →
                  member = pretty score ∧ 0 ≤ score ≤ now.

(** The scopes and windows the limiter forms keys for. *)
Definition scope (prefix : string) : Prop := prefix = "ip" ∨ prefix = "token".
Definition window (name : string) : Prop := name = "minute" ∨ name = "hour".

End Quota.

(** ** More of [services/mqtt_client.py]: the status report *)

Module Channel.

(** The dictionary [get_connection_status] returns. *)
Record ConnectionStatus := mkStatus {
  connected : bool;
  broker : string;
  client_id : option string;
  last_connection : option string;
  last_message : option string;
  connection_attempts : Z
}.

Section Status.

(** The [settings] object and [datetime.isoformat], a library function. *)
Variable settings : MQTT.Settings.
Variable isoformat : Z → string.

(** [get_connection_status], lines 308-322. *)
Definition get_connection_status (s : MQTT.MQTTService) : ConnectionStatus :=
  mkStatus
    (MQTT.is_connected s)
    (MQTT.mqtt_broker settings +:+ ":" +:+ pretty (MQTT.mqtt_port settings))
    (MQTT.client s)
    (isoformat <$> MQTT.last_connection_time s)
    (isoformat <$> MQTT.last_message_time s)
    (MQTT.connection_attempts s).

End Status.

(** The subscriptions a trace asks the client for, in order. *)
Definition subscribed (tr : list MQTT.effect) : list (string * Z) :=
  omap (λ e, match e with
             | MQTT.ClientSubscribe t q => Some (t, q)
             | _ => None
             end) tr.

(** The handlers a trace calls, in order, by topic. *)
Definition handled (tr : list MQTT.effect) : list (string * MQTT.json) :=
  omap (λ e, match e with
             | MQTT.HandlerCall t data => Some (t, data)
             | _ => None
             end) tr.

(** The calls of [client.loop_stop] and [client.disconnect] in a trace. *)
Definition hangs_up (e : MQTT.effect) : bool :=
  match e with
  | MQTT.ClientLoopStop | MQTT.ClientDisconnect => true
  | _ => false
  end.

(** What holds of the client and of the time of the last connection in
    every state the service can be in. *)
Definition settled (s : MQTT.MQTTService) : Prop :=
  MQTT.client s ≠ None
  ∧ (MQTT.is_connected s = true → MQTT.last_connection_time s ≠ None).

End Channel.

(** ** The callers: [services/auth.py] and the routers *)

Module Routers.
Import MQTT.

(** The [detail] of an [HTTPException]: a text, or the dictionary of a
    rate-limit denial. *)
Inductive detail :=
| Text (message : string)
| Limit (d : RateLimiter.Detail).

(** How a request handler can fail: with an [HTTPException], which the
    framework turns into a response, or with any other exception. *)
Inductive failure :=
| HTTPException (status_code : Z) (d : detail)
| Exception (what : string).

Inductive answer (A : Type) :=
| Return (a : A)
| Fail (f : failure).
Arguments Return {A} a.
Arguments Fail {A} f.

(** What a handler works on: the limiter and its world, whose journal
    also takes the lines the handlers log, the channel service, and what
    the service logged and asked of its client so far. *)
Record App := mkApp {
  world : RateLimiter.World;
  service : MQTTService;
  wire : list effect
}.

Definition R (A : Type) : Type := App → answer A * App.

Definition ret {A} (a : A) : R A := λ app, (Return a, app).

Definition bind {A B} (m : R A) (k : A → R B) : R B :=
  λ app, match m app with
         | (Return a, app') => k a app'
         | (Fail f, app') => (Fail f, app')
         end.

Declare Scope route_scope.
Delimit Scope route_scope with route.
Notation "'let*' x ':=' m 'in' k" := (bind m (λ x, k))
  (at level 10, x pattern, m at level 100, k at level 200) : route_scope.
Notation "m ';;' k" := (bind m (λ _, k))
  (at level 100, k at level 200, right associativity) : route_scope.
Local Open Scope route_scope.

Definition raise {A} (f : failure) : R A := λ app, (Fail f, app).

(** A call into the limiter: its [HTTPException] carries the denial, any
    other exception stays one. *)
Definition limiter {A} (m : RateLimiter.M A) : R A :=
  λ app,
    match m (world app) with
    | (RateLimiter.Ok a, w) => (Return a, mkApp w (service app) (wire app))
    | (RateLimiter.Raise (RateLimiter.HTTPException c d), w) =>
        (Fail (HTTPException c (Limit d)), mkApp w (service app) (wire app))
    | (RateLimiter.Raise RateLimiter.ZeroDivisionError, w) =>
        (Fail (Exception "ZeroDivisionError"),
         mkApp w (service app) (wire app))
    | (RateLimiter.Raise RateLimiter.AttributeError, w) =>
        (Fail (Exception "AttributeError"), mkApp w (service app) (wire app))
    | (RateLimiter.Raise RateLimiter.ConnectionError, w) =>
        (Fail (Exception "ConnectionError"), mkApp w (service app) (wire app))
    end.

(** A line of a module's logger. *)
Definition say (l : level) (msg : string) : R unit :=
  limiter (RateLimiter.log l msg).

(** A method of the channel service that answers with a boolean and leaves
    the service as it is. *)
Definition channel (call : MQTTService → bool * list effect) : R bool :=
  λ app,
    let '(b, tr) := call (service app) in
    (Return b, mkApp (world app) (service app) (wire app ++ tr)).

(** A method of the channel service that changes it. *)
Definition channel_update (call : MQTTService → MQTTService * list effect)
  : R unit :=
  λ app,
    let '(s, tr) := call (service app) in
    (Return tt, mkApp (world app) s (wire app ++ tr)).

(** [try: body  except HTTPException: raise  except Exception as e: log;
    raise HTTPException(500, detail)], the frame of every handler.  The
    logged line is [logged] followed by the text of the exception, which is
    left out here. *)
Definition guarded {A} (logged detail500 : string) (body : R A) : R A :=
  λ app,
    match body app with
    | (Fail (Exception _), app') =>
        (say Error logged ;; raise (HTTPException 500 (Text detail500))) app'
    | other => other
    end.

(** [d.get(key)] and [d.get(key, default)] on a decoded dictionary. *)
Definition dict_get (key : string) (d : gmap string json) : json :=
  default JNull (d !! key).

Definition dict_get_or (key : string) (dflt : json) (d : gmap string json)
  : json :=
  default dflt (d !! key).

(** [value == text] for a decoded value and a [str]. *)
Definition is_text (text : string) (value : json) : bool :=
  match value with
  | JString s => bool_decide (s = text)
  | _ => false
  end.

(** [len(s)] *)
Definition len (s : string) : Z := Z.of_nat (String.length s).

(** [c in s] for a character. *)
Definition contains (c : ascii) (s : string) : bool :=
  bool_decide (c ∈ list_ascii_of_string s).

Section Handlers.

(** The settings the handlers read, and the library functions they call. *)
Variable admin_whitelist_ips : list string.
Variable limits : RateLimiter.Settings.
Variable mqtt_settings : Settings.
Variable sha256_hexdigest : string → string.
Variable isoformat : Z → string.

(** [AuthService.validate_ip_whitelist], [services/auth.py] lines 196-223. *)
Definition validate_ip_whitelist (client_ip : string) : R bool :=
  match admin_whitelist_ips with
  | [] => say Warning "No admin IP whitelist configured" ;; ret false
  | _ =>
      if bool_decide (client_ip ∈ admin_whitelist_ips) then ret true
      else if existsb
                (λ whitelisted_ip,
                   contains "/" whitelisted_ip
                   && String.prefix
                        (List.hd EmptyString (Py.split "/" whitelisted_ip))
                        client_ip)
                admin_whitelist_ips
      then ret true
      else say Warning "IP not in admin whitelist" ;; ret false
  end.

(** [require_admin_ip], [services/auth.py] lines 315-325. *)
Definition require_admin_ip (request : RateLimiter.Request) : R bool :=
  let client_ip :=
    match RateLimiter.client request with
    | Some (host, _) => host
    | None => "unknown"
    end in
  let* ok := validate_ip_whitelist client_ip in
  if negb ok then
    raise (HTTPException 403 (Text "Access denied: IP not in admin whitelist"))
  else ret true.

Definition check_rate_limit (request : RateLimiter.Request)
    (limit_per_minute limit_per_hour : option Z) : R unit :=
  limiter (RateLimiter.check_rate_limit sha256_hexdigest limits request
             limit_per_minute limit_per_hour).

(** [reboot_device], [routers/admin.py] lines 116-166.  [asked], [sent] and
    [answered] are the three readings of [datetime.utcnow()], [res] is what
    [client.publish] comes back with. *)
Definition reboot_device (request : RateLimiter.Request)
    (current_user : gmap string json) (asked sent answered : Z)
    (res : outcome) : R json :=
  guarded "Error sending reboot command" "Failed to send reboot command"
    (require_admin_ip request ;;
     check_rate_limit request (Some 5) (Some 20) ;;
     let* success :=
       channel (publish_admin_command "reboot"
                  (Some (JObject
                           [ ("reason", JString "admin_request");
                             ("requested_by", dict_get "sub" current_user);
                             ("timestamp", JString (isoformat asked)) ]))
                  sent res) in
     if success then
       say Warning "Device reboot command sent" ;;
       ret (JObject [ ("message", JString "Reboot command sent successfully");
                      ("timestamp", JString (isoformat answered));
                      ("status", JString "pending") ])
     else
       say Error "Failed to send reboot command" ;;
       raise (HTTPException 500 (Text "Failed to send reboot command"))).

Definition allowed_commands : list string :=
  ["emergency_stop"; "force_vend"; "maintenance_mode"; "test_mode"].

(** [override_device], [routers/admin.py] lines 169-243. *)
Definition override_device (request : RateLimiter.Request)
    (override_data : gmap string json) (current_user : gmap string json)
    (asked sent answered : Z) (res : outcome) : R json :=
  guarded "Error sending override command" "Failed to send override command"
    (require_admin_ip request ;;
     check_rate_limit request (Some 5) (Some 20) ;;
     match override_data !! "command", override_data !! "parameters" with
     | None, _ =>
         raise (HTTPException 400 (Text "Missing required field: command"))
     | Some _, None =>
         raise (HTTPException 400 (Text "Missing required field: parameters"))
     | Some _, Some _ =>
         let command := dict_get "command" override_data in
         if negb (existsb (λ allowed, is_text allowed command) allowed_commands)
         then
           raise (HTTPException 400
                    (Text "Invalid command. Allowed: ['emergency_stop', 'force_vend', 'maintenance_mode', 'test_mode']"))
         else
           let* success :=
             channel (publish_admin_command "override"
                        (Some (JObject
                                 [ ("command", command);
                                   ("parameters",
                                    dict_get_or "parameters" (JObject [])
                                      override_data);
                                   ("requested_by", dict_get "sub" current_user);
                                   ("timestamp", JString (isoformat asked)) ]))
                        sent res) in
           if success then
             say Warning "Device override command sent" ;;
             ret (JObject
                    [ ("message", JString "Override command sent successfully");
                      ("command", command);
                      ("timestamp", JString (isoformat answered));
                      ("status", JString "pending") ])
           else
             say Error "Failed to send override command" ;;
             raise (HTTPException 500 (Text "Failed to send override command"))
     end).

(** [clear_rate_limits], the handler, [routers/admin.py] lines 308-366. *)
Definition clear_rate_limits (request : RateLimiter.Request)
    (identifier limit_type : string) (current_user : gmap string json)
    (answered : Z) : R json :=
  guarded "Error clearing rate limits" "Failed to clear rate limits"
    (require_admin_ip request ;;
     check_rate_limit request (Some 5) (Some 20) ;;
     if negb (bool_decide (limit_type ∈ ["ip"; "token"])) then
       raise (HTTPException 400
                (Text "Invalid limit type. Must be 'ip' or 'token'"))
     else
       let* success :=
         limiter (RateLimiter.clear_rate_limits identifier limit_type) in
       if success then
         say Info "Rate limits cleared by admin" ;;
         ret (JObject [ ("message", JString "Rate limits cleared successfully");
                        ("identifier", JString identifier);
                        ("limit_type", JString limit_type);
                        ("timestamp", JString (isoformat answered)) ])
       else
         say Error "Failed to clear rate limits" ;;
         raise (HTTPException 500 (Text "Failed to clear rate limits"))).

(** [cancel_order], [routers/order.py] lines 311-383. *)
Definition cancel_order (order_id : string) (request : RateLimiter.Request)
    (current_user : gmap string json) (sent : Z) (res : outcome) : R json :=
  guarded "Error cancelling order" "Failed to cancel order"
    (check_rate_limit request None None ;;
     if negb (String.prefix "ORD-" order_id) || bool_decide (len order_id < 10)
     then raise (HTTPException 400 (Text "Invalid order ID format"))
     else
       channel (publish_admin_command "cancel_order"
                  (Some (JObject [("order_id", JString order_id)])) sent res) ;;
       say Info "Order cancelled" ;;
       ret (JObject [("message", JString "Order cancelled successfully")])).

(** [reconnect_mqtt], [routers/status.py] lines 251-293.  [stop] and [disc]
    are what [client.loop_stop] and [client.disconnect] come back with,
    [res] is the answer of [client.connect]. *)
Definition reconnect_mqtt (current_user : gmap string json)
    (stop disc res : outcome) : R json :=
  guarded "Error reconnecting MQTT" "Failed to reconnect MQTT"
    (let user_role := dict_get_or "role" (JString "user") current_user in
     if negb (is_text "admin" user_role) then
       raise (HTTPException 403 (Text "Admin privileges required"))
     else
       channel_update (disconnect stop disc) ;;
       let* success := channel (connect mqtt_settings res) in
       if success then
         say Info "MQTT reconnection initiated by admin" ;;
         ret (JObject
                [("message", JString "MQTT reconnection initiated successfully")])
       else
         say Error "MQTT reconnection failed" ;;
         raise (HTTPException 500 (Text "MQTT reconnection failed"))).

End Handlers.

(** *** The words the properties are stated in *)

(** The application with one more line in the log. *)
Definition logged (l : level) (msg : string) (app : App) : App :=
  mkApp (RateLimiter.mkWorld (RateLimiter.store (world app))
           (RateLimiter.clock (world app)) (RateLimiter.reads (world app))
           (RateLimiter.journal (world app) ++ [RateLimiter.Log l msg]))
    (service app) (wire app).

(** The address the whitelist is asked about: the transport peer. *)
Definition peer (request : RateLimiter.Request) : string :=
  match RateLimiter.client request with
  | Some (host, _) => host
  | None => "unknown"
  end.

(** An address is on the list, or starts with what some entry of the list
    has in front of its first slash. *)
Definition admits (ips : list string) (client_ip : string) : Prop :=
  client_ip ∈ ips
  ∨ ∃ entry, entry ∈ ips
             ∧ "/"%char ∈ list_ascii_of_string entry
             ∧ String.prefix (Py.before "/" entry) client_ip = true.

(** The limiter lets the request through in the world [w]. *)
Definition within_limits (sha256_hexdigest : string → string)
    (limits : RateLimiter.Settings) (request : RateLimiter.Request)
    (limit_per_minute limit_per_hour : option Z) (w : RateLimiter.World)
  : Prop :=
  (RateLimiter.check_rate_limit sha256_hexdigest limits request
     limit_per_minute limit_per_hour w).1 = RateLimiter.Ok tt.

(** The status codes among which a handler's failure lies. *)
Definition fails_with (codes : list Z) {A} (a : answer A) : Prop :=
  match a with
  | Return _ => True
  | Fail (HTTPException c _) => c ∈ codes
  | Fail (Exception _) => False
  end.

End Routers.

(** * Properties *)

(** ** Facts about the string helpers *)

Module PyFacts.

Local Abbreviation chars := list_ascii_of_string.

(** [before] cuts at the first separator: what it returns holds none, and
    what it leaves out is empty or starts with one. *)
Lemma before_cut sep s :
  (sep ∉ list_ascii_of_string (Py.before sep s))
  ∧ (∃ rest, s = Py.before sep s +:+ rest
             ∧ (rest = EmptyString ∨ ∃ r, rest = String sep r)).
Proof.
  induction s as [|c s [IH1 (rest & IH2 & IH3)]]; simpl.
  - split; [apply not_elem_of_nil|]. exists EmptyString. by split; [|left].
  - destruct (Ascii.eqb_spec c sep) as [->|Hne]; simpl.
    + split; [apply not_elem_of_nil|]. exists (String sep s). split; [done|].
      right. by exists s.
    + split.
      * rewrite not_elem_of_cons. split; [congruence|done].
      * exists rest. split; [|done].
        change (String c s = String c (Py.before sep s +:+ rest)).
        by rewrite <- IH2.
Qed.

Lemma chars_rev_app a b :
  chars (String.rev_app a b) = reverse (chars a) ++ chars b.
Proof.
  revert b. induction a as [|c a IH]; intros b; simpl; [done|].
  by rewrite IH, reverse_cons, <- app_assoc.
Qed.

Lemma chars_rev s : chars (String.rev s) = reverse (chars s).
Proof. unfold String.rev. by rewrite chars_rev_app, app_nil_r. Qed.

(** [lstrip] drops a run of white space and stops at the first character
    that is none. *)
Lemma lstrip_cut s :
  ∃ ws, chars s = ws ++ chars (Py.lstrip s)
        ∧ Forall (λ c, Py.isspace c = true) ws
        ∧ ∀ c, head (chars (Py.lstrip s)) = Some c → Py.isspace c = false.
Proof.
  induction s as [|c s (ws & IH1 & IH2 & IH3)]; simpl.
  - exists []. by repeat split.
  - destruct (Py.isspace c) eqn:E.
    + exists (c :: ws). split; [by rewrite IH1|]. split; [by constructor|done].
    + exists []. split; [done|]. split; [done|].
      simpl. by intros ? [= <-].
Qed.

(** [strip] removes white space, and nothing else, at both ends. *)
Lemma strip_cut s :
  ∃ l r, chars s = l ++ chars (Py.strip s) ++ r
         ∧ Forall (λ c, Py.isspace c = true) l
         ∧ Forall (λ c, Py.isspace c = true) r
         ∧ (∀ c, head (chars (Py.strip s)) = Some c → Py.isspace c = false)
         ∧ (∀ c, last (chars (Py.strip s)) = Some c → Py.isspace c = false).
Proof.
  unfold Py.strip.
  destruct (lstrip_cut s) as (l & Hs & Hl & Hhead).
  destruct (lstrip_cut (String.rev (Py.lstrip s))) as (w & Ht & Hw & Hlast).
  rewrite chars_rev in Ht.
  assert (Ht' : chars (Py.lstrip s)
                = reverse (chars (Py.lstrip (String.rev (Py.lstrip s))))
                  ++ reverse w).
  { rewrite <- reverse_app, <- Ht. by rewrite reverse_involutive. }
  exists l, (reverse w). rewrite chars_rev.
  split; [by rewrite <- Ht'|]. split; [done|].
  split; [by apply Forall_reverse|]. split.
  - intros c Hc. apply Hhead. rewrite Ht'.
    destruct (reverse (chars (Py.lstrip (String.rev (Py.lstrip s)))));
      [done|]. done.
  - intros c. rewrite last_reverse. apply Hlast.
Qed.

End PyFacts.

(** ** Facts about the store *)

Module RedisFacts.
Import Redis.

Lemma get_insert now key v d :
  live now v = true → get now key (<[key := v]> d) = Some v.
Proof. intros Hl. unfold get. rewrite lookup_insert_eq, Hl. done. Qed.

Lemma get_delete now key d : get now key (delete key d) = None.
Proof. unfold get. by rewrite lookup_delete_eq. Qed.

Lemma get_live now key v d : get now key d = Some v → live now v = true.
Proof.
  unfold get. destruct (d !! key) as [u|]; [|done].
  destruct (live now u) eqn:E; [|done]. by intros [= <-].
Qed.

Lemma live_fresh_expiry now W m : 0 < W → live now (ZSet m (Some (now + W))) = true.
Proof. intros. unfold live; simpl. apply bool_decide_eq_true. lia. Qed.

(** The four queued commands of one admit check, in closed form. *)
Lemma execute_check now key hi m s W d :
  0 < W →
  execute now
    [ZREMRANGEBYSCORE key 0 hi; ZADD key m s; ZCARD key; EXPIRE key W] d =
  (<[key := ZSet (<[m := s]> (outside 0 hi (events now key d))) (Some (now + W))]> d,
   [ Z.of_nat (size (events now key d))
       - Z.of_nat (size (outside 0 hi (events now key d)));
     match outside 0 hi (events now key d) !! m with Some _ => 0 | None => 1 end;
     Z.of_nat (size (<[m := s]> (outside 0 hi (events now key d))));
     1 ]).
Proof.
  intros HW. unfold events, outside. simpl.
  unfold zremrangebyscore.
  destruct (get now key d) as [v|] eqn:Hget.
  - pose proof (get_live _ _ _ _ Hget) as Hlive.
    unfold put. case_bool_decide as Hempty.
    + rewrite Hempty. unfold zadd. rewrite get_delete.
      unfold zcard. rewrite get_insert by done. simpl.
      unfold expire. rewrite get_insert by done. simpl.
      rewrite bool_decide_eq_false_2 by lia.
      rewrite insert_insert_eq, insert_delete_eq.
      rewrite lookup_empty, insert_empty. done.
    + unfold zadd. rewrite get_insert by (destruct v; done). simpl.
      unfold zcard. rewrite get_insert by (destruct v; done). simpl.
      unfold expire. rewrite get_insert by (destruct v; done). simpl.
      rewrite bool_decide_eq_false_2 by lia.
      rewrite !insert_insert_eq. done.
  - rewrite map_filter_empty.
    unfold zadd. rewrite get_delete.
    unfold zcard. rewrite get_insert by done. simpl.
    unfold expire. rewrite get_insert by done. simpl.
    rewrite bool_decide_eq_false_2 by lia.
    rewrite insert_insert_eq, insert_delete_eq.
    rewrite lookup_empty, insert_empty. done.
Qed.

End RedisFacts.

(** ** Facts about the limiter *)

Module RateLimiterFacts.
Import Redis RedisFacts RateLimiter.
Local Open Scope py_scope.

Lemma redis_Some w d : redis w = Some d ↔ store w = Connected d.
Proof. unfold redis. destruct (store w); split; congruence. Qed.


(** One check against a reachable store, in closed form. *)
Lemma is_rate_limited_run key limit W w d :
  redis w = Some d → 0 < W →
  _is_rate_limited key limit W w =
  let now := clock w (reads w) in
  let count := Z.of_nat (size (checked_events now W key d)) in
  (Ok (bool_decide (limit < count), count, W - now `mod` W),
   mkWorld (Connected (<[key := ZSet (checked_events now W key d) (Some (now + W))]> d))
     (clock w) (S (reads w))
     ((journal w ++ [RedisExecute (check_commands key now W)])
        ++ (if bool_decide (limit < count)
            then [Log Warning ("Rate limit exceeded for key: " +:+ key)]
            else []))).
Proof.
  intros Hd HW.
  unfold _is_rate_limited, bind, redis_available, time_time, py_mod.
  rewrite (proj1 (redis_Some _ _) Hd). simpl.
  rewrite bool_decide_eq_false_2 by lia. unfold ret at 1. simpl.
  unfold redis_execute. simpl. rewrite (proj1 (redis_Some _ _) Hd).
  pose proof (execute_check (clock w (reads w)) key
    (clock w (reads w) - clock w (reads w) `mod` W - 1)
    (pretty (clock w (reads w))) (clock w (reads w)) W d HW) as E.
  simpl in E. simpl. rewrite E. clear E. simpl.
  unfold checked_events, window_start, check_commands.
  case_bool_decide; simpl.
  - unfold log, emit, ret. simpl. done.
  - unfold ret. simpl. rewrite app_nil_r. done.
Qed.

(** The decision of a check is [count <= limit], the count being the
    cardinality read after the request's own event went in. *)
Lemma allowed_iff_within_limit key limit W w d :
  redis w = Some d → 0 < W →
  ∃ is_limited count remaining w',
    _is_rate_limited key limit W w = (Ok (is_limited, count, remaining), w')
    ∧ count = Z.of_nat (size (checked_events (clock w (reads w)) W key d))
    ∧ (is_limited = false ↔ count ≤ limit).
Proof.
  intros Hd HW. rewrite (is_rate_limited_run _ _ _ _ _ Hd HW). simpl.
  eexists _, _, _, _. split; [reflexivity|]. split; [reflexivity|].
  case_bool_decide; split; intros; (done || lia).
Qed.

Lemma events_insert now key m W d :
  0 < W → events now key (<[key := ZSet m (Some (now + W))]> d) = m.
Proof.
  intros HW. unfold events. rewrite get_insert by (by apply live_fresh_expiry). done.
Qed.

Lemma window_start_le now W : 0 < W → window_start now W ≤ now.
Proof. intros. unfold window_start. pose proof (Z.mod_pos_bound now W). lia. Qed.

Lemma outside_singleton_now now W :
  0 < W →
  outside 0 (window_start now W - 1) {[pretty now := now]} = {[pretty now := now]}.
Proof.
  intros HW. unfold outside. rewrite map_filter_singleton.
  rewrite decide_True; [done|].
  unfold in_range. simpl. pose proof (window_start_le now W HW). lia.
Qed.

(** A key that holds nothing, or only the event of the current second,
    holds exactly the event of the current second after a check. *)
Lemma checked_events_same_second now W key d :
  0 < W →
  events now key d = ∅ ∨ events now key d = {[pretty now := now]} →
  checked_events now W key d = {[pretty now := now]}.
Proof.
  intros HW [E|E]; unfold checked_events; rewrite E.
  - unfold outside. rewrite map_filter_empty. by rewrite insert_empty.
  - rewrite outside_singleton_now by done. by rewrite insert_singleton_eq.
Qed.

Lemma check_all_cons key limit W rest w :
  check_all ((key, limit, W) :: rest) w
  = match _is_rate_limited key limit W w with
    | (Ok r, w1) =>
        match check_all rest w1 with
        | (Ok rs, w2) => (Ok (r :: rs), w2)
        | (Raise e, w2) => (Raise e, w2)
        end
    | (Raise e, w1) => (Raise e, w1)
    end.
Proof. reflexivity. Qed.

(** However many checks reach a fresh key within one second, every one of
    them reads a count of 1 and is admitted. *)
Lemma same_second_all_allowed n : ∀ key limit W t w d,
  0 < W → 1 ≤ limit →
  redis w = Some d → (∀ i, clock w i = t) →
  events t key d = ∅ ∨ events t key d = {[pretty t := t]} →
  (check_all (replicate n (key, limit, W)) w).1
  = Ok (replicate n (false, 1, W - t `mod` W)).
Proof.
  induction n as [|n IH]; intros key limit W t w d HW HL Hd Hclk Hev; [done|].
  simpl replicate. rewrite check_all_cons.
  rewrite (is_rate_limited_run _ _ _ _ _ Hd HW). simpl.
  rewrite Hclk, (checked_events_same_second _ _ _ _ HW Hev).
  rewrite map_size_singleton. simpl.
  rewrite bool_decide_eq_false_2 by lia.
  match goal with |- context [check_all _ ?w1] =>
    specialize (IH key limit W t w1
      (<[key := ZSet {[pretty t := t]} (Some (t + W))]> d) HW HL eq_refl Hclk);
    destruct (check_all (replicate n (key, limit, W)) w1) as [r w2]
  end.
  simpl in IH. rewrite IH.
  - done.
  - right. by apply events_insert.
Qed.

(** C1 (the code departs from the claim).  The decision rule is the one the
    claim gives, [count <= limit] ([allowed_iff_within_limit]), but the
    count does not grow with the requests: the member written for a request
    is its time stamp in whole seconds, so requests of the same second share
    one member.  With limit 3 on the fresh key of identity 1.2.3.4, four
    checks issued in the same second all read a count of 1 and all are
    admitted; the fourth is not denied and does not carry [current = 4]. *)
Theorem C1_four_calls_same_second :
  (check_all (replicate 4 ("rate_limit:ip:1.2.3.4:minute", 3, 60))
     (mkWorld (Connected ∅) (λ _, 1700000000) 0 [])).1
  = Ok [(false, 1, 40); (false, 1, 40); (false, 1, 40); (false, 1, 40)].
Proof. vm_compute. reflexivity. Qed.

(** Spread over two consecutive seconds the four checks read 1, 1, 2, 2. *)
Example four_calls_two_seconds :
  (check_all (replicate 4 ("rate_limit:ip:1.2.3.4:minute", 3, 60))
     (mkWorld (Connected ∅) (λ i, if (i <? 2)%nat then 1700000000 else 1700000001)
        0 [])).1
  = Ok [(false, 1, 40); (false, 1, 40); (false, 2, 39); (false, 2, 39)].
Proof. vm_compute. reflexivity. Qed.

(** *** Store out of reach *)



(** With a client whose store does not answer, a check reads the clock,
    queues its commands and fails in [pipe.execute()]. *)
Lemma is_rate_limited_lost key limit W w :
  store w = Lost → W ≠ 0 →
  _is_rate_limited key limit W w
  = (Raise ConnectionError, mkWorld Lost (clock w) (S (reads w)) (journal w)).
Proof.
  intros Hd HW. unfold _is_rate_limited, bind, redis_available, time_time,
    py_mod.
  rewrite Hd. simpl. rewrite bool_decide_eq_false_2 by done.
  unfold ret at 1. simpl. unfold redis_execute. simpl. by rewrite Hd.
Qed.

Lemma check_rate_limit_lost sha settings request lm lh w :
  store w = Lost →
  check_rate_limit sha settings request lm lh w
  = (Raise ConnectionError, mkWorld Lost (clock w) (S (reads w)) (journal w)).
Proof.
  intros Hd. unfold check_rate_limit, redis_available.
  unfold bind at 1. rewrite Hd. cbn [negb].
  unfold bind at 1. by rewrite is_rate_limited_lost.
Qed.




(** *** Administrative reset *)

Lemma clear_rate_limits_run identifier limit_type w d :
  redis w = Some d →
  clear_rate_limits identifier limit_type w
  = (Ok true,
     mkWorld
       (Connected (delete (_generate_key limit_type identifier "minute")
                (delete (_generate_key limit_type identifier "hour") d)))
       (clock w) (reads w)
       ((journal w
          ++ [RedisDelete [_generate_key limit_type identifier "minute";
                           _generate_key limit_type identifier "hour"]])
          ++ [Log Info ("Cleared rate limits for " +:+ limit_type +:+ ": "
                        +:+ identifier)])).
Proof.
  intros Hd. unfold clear_rate_limits, bind, redis_available, try_except.
  rewrite (proj1 (redis_Some _ _) Hd). simpl. unfold redis_delete. rewrite (proj1 (redis_Some _ _) Hd). done.
Qed.

(** With the store out of reach, in either way, nothing is cleared and
    the answer is [False]. *)
Lemma clear_rate_limits_unreachable identifier limit_type w :
  redis w = None →
  ∃ w', clear_rate_limits identifier limit_type w = (Ok false, w').
Proof.
  unfold redis, clear_rate_limits, redis_available, bind, try_except,
    redis_delete.
  destruct (store w) eqn:Hs; simpl; rewrite ?Hs; simpl; intros H;
    first [discriminate H|by eexists].
Qed.

Lemma events_absent now key (d : db) : d !! key = None → events now key d = ∅.
Proof. intros H. unfold events, get. by rewrite H. Qed.

Lemma checked_events_fresh now W key d :
  events now key d = ∅ → checked_events now W key d = {[pretty now := now]}.
Proof.
  intros E. unfold checked_events, outside. rewrite E, map_filter_empty.
  by rewrite insert_empty.
Qed.

(** A check of a key that holds nothing: count 1, admitted for a limit of
    at least 1. *)
Lemma is_rate_limited_fresh key limit W w d :
  redis w = Some d → 0 < W → 1 ≤ limit →
  events (clock w (reads w)) key d = ∅ →
  (_is_rate_limited key limit W w).1
  = Ok (false, 1, W - clock w (reads w) `mod` W).
Proof.
  intros Hd HW HL E. rewrite (is_rate_limited_run _ _ _ _ _ Hd HW). simpl.
  rewrite (checked_events_fresh _ _ _ _ E), map_size_singleton. simpl.
  by rewrite bool_decide_eq_false_2 by lia.
Qed.

(** C8.  With the store in reach, [clear_rate_limits] reports success
    whether or not the keys existed, leaves neither the minute nor the hour
    key of the identity behind and no other key changed; clearing again
    changes nothing and succeeds again; and the next check of either key
    reads a count of 1 and admits for every limit of at least 1, exactly as
    a check of that key on an empty store does. *)
Theorem C8_clear_then_fresh identifier limit_type w d limit W key :
  redis w = Some d → 1 ≤ limit → 0 < W →
  key = _generate_key limit_type identifier "minute"
  ∨ key = _generate_key limit_type identifier "hour" →
  let cleared := clear_rate_limits identifier limit_type w in
  cleared.1 = Ok true
  ∧ (∃ d1, redis cleared.2 = Some d1
       ∧ d1 !! _generate_key limit_type identifier "minute" = None
       ∧ d1 !! _generate_key limit_type identifier "hour" = None
       ∧ ∀ k, k ≠ _generate_key limit_type identifier "minute" →
              k ≠ _generate_key limit_type identifier "hour" →
              d1 !! k = d !! k)
  ∧ (clear_rate_limits identifier limit_type cleared.2).1 = Ok true
  ∧ redis (clear_rate_limits identifier limit_type cleared.2).2 = redis cleared.2
  ∧ (_is_rate_limited key limit W cleared.2).1
    = Ok (false, 1, W - clock w (reads w) `mod` W)
  ∧ (_is_rate_limited key limit W cleared.2).1
    = (_is_rate_limited key limit W
         (mkWorld (Connected ∅) (clock w) (reads w) (journal w))).1.
Proof.
  intros Hd HL HW Hkey cleared. subst cleared.
  rewrite (clear_rate_limits_run _ _ _ _ Hd). cbn [fst snd redis store].
  set (mk := _generate_key limit_type identifier "minute") in *.
  set (hk := _generate_key limit_type identifier "hour") in *.
  split; [done|]. split.
  { eexists. split; [done|]. split; [by rewrite lookup_delete_eq|]. split.
    - destruct (decide (mk = hk)) as [->|Hne].
      + by rewrite lookup_delete_eq.
      + by rewrite lookup_delete_ne, lookup_delete_eq.
    - intros k H1 H2. by rewrite !lookup_delete_ne. }
  erewrite (clear_rate_limits_run identifier limit_type) by done.
  cbn [fst snd redis store].
  split; [done|]. split.
  { f_equal. fold mk hk. apply map_eq. intros k.
    destruct (decide (k = mk)) as [->|H1].
    - by rewrite !lookup_delete_eq.
    - rewrite lookup_delete_ne by done.
      destruct (decide (k = hk)) as [->|H2].
      + by rewrite lookup_delete_eq, lookup_delete_ne, lookup_delete_eq.
      + by rewrite !lookup_delete_ne. }
  assert (Hfresh : (delete mk (delete hk d)) !! key = None).
  { destruct Hkey as [-> | ->].
    - by rewrite lookup_delete_eq.
    - destruct (decide (mk = hk)) as [E|Hne].
      + rewrite E. by rewrite lookup_delete_eq.
      + by rewrite lookup_delete_ne, lookup_delete_eq. }
  split.
  - erewrite is_rate_limited_fresh; [done|done|done|done|].
    simpl. by apply events_absent.
  - erewrite is_rate_limited_fresh; [|done|done|done|by apply events_absent].
    erewrite is_rate_limited_fresh; [done|done|done|done|].
    by apply events_absent.
Qed.

Lemma C8_clear_then_fresh_witness :
  (_is_rate_limited "rate_limit:ip:1.2.3.4:minute" 1 60
     (clear_rate_limits "1.2.3.4" "ip"
        (mkWorld
           (Connected {[ "rate_limit:ip:1.2.3.4:minute" :=
                      ZSet {[ "1699999990" := 1699999990;
                              "1699999995" := 1699999995 ]} (Some 1700000055) ]})
           (λ _, 1700000000) 0 [])).2).1
  = Ok (false, 1, 40).
Proof.
  refine (proj1 (proj2 (proj2 (proj2 (proj2
    (C8_clear_then_fresh "1.2.3.4" "ip"
       (mkWorld
          (Connected {[ "rate_limit:ip:1.2.3.4:minute" :=
                     ZSet {[ "1699999990" := 1699999990;
                             "1699999995" := 1699999995 ]} (Some 1700000055) ]})
          (λ _, 1700000000) 0 [])
       _ 1 60 "rate_limit:ip:1.2.3.4:minute" eq_refl _ _ _)))))).
  - lia.
  - lia.
  - left. reflexivity.
Defined.

(** *** The window of a check *)

(** C5, as worded, fails.  At [now = 120] with a window of 60 s and one
    earlier event at second 100 the check reports 1, although two events
    (100 and 120) lie in [[60, 120]]: the event at 100 is not older than
    [now - 60] and is removed all the same. *)
Lemma C5_counterexample : ¬ sliding_window_claim.
Proof.
  intros H.
  destruct (H "k" 10 60
    (mkWorld (Connected {[ "k" := ZSet {[ "100" := 100 ]} None ]}) (λ _, 120) 0 [])
    _ eq_refl ltac:(lia)) as (l & r & w' & E).
  vm_compute in E. congruence.
Qed.

(** C5, amended.  One check at [now] with window [W > 0] is one round trip
    that (1) removes exactly the events whose time stamp lies in
    [[0, window_start - 1]], [window_start = now - now mod W] being the
    start of the wall-clock aligned window, (2) writes the event of [now],
    (3) reports the cardinality of what is then stored and (4) sets the
    expiry of the key [W] seconds ahead; when no stored time stamp is
    negative or ahead of [now], the count is the number of stored events
    with a time stamp in [[window_start, now]]. *)
Theorem C5_aligned_window key limit W w d :
  redis w = Some d → 0 < W →
  let now := clock w (reads w) in
  let old := events now key d in
  ∃ is_limited count remaining w' after,
    _is_rate_limited key limit W w = (Ok (is_limited, count, remaining), w')
    ∧ redis w' = Some (<[key := ZSet after (Some (now + W))]> d)
    ∧ checked_keys (journal w') = checked_keys (journal w) ++ [key]
    ∧ (∀ m s, m ≠ pretty now →
         after !! m = Some s
         ↔ old !! m = Some s ∧ ¬ (0 ≤ s ≤ window_start now W - 1))
    ∧ after !! pretty now = Some now
    ∧ count = Z.of_nat (size after)
    ∧ ((∀ m s, old !! m = Some s → 0 ≤ s ≤ now) →
       count = Z.of_nat (size (within (window_start now W) now after))).
Proof.
  intros Hd HW now old. rewrite (is_rate_limited_run _ _ _ _ _ Hd HW).
  fold now. cbv zeta.
  eexists _, _, _, _, (checked_events now W key d).
  split; [reflexivity|]. cbn [redis store journal].
  split; [reflexivity|]. split.
  { unfold checked_keys. rewrite !omap_app. simpl.
    case_bool_decide; simpl; by rewrite ?app_nil_r. }
  split.
  { intros m s Hm. unfold checked_events, outside.
    rewrite lookup_insert_ne by done.
    rewrite map_lookup_filter_Some. unfold in_range. simpl. done. }
  split; [apply lookup_insert_eq|]. split; [done|].
  intros Hold. do 2 f_equal. unfold within.
  symmetry. apply map_filter_id. intros m s.
  unfold checked_events, outside. rewrite lookup_insert.
  case_decide as Hm.
  - intros [= <-]. unfold in_range. simpl.
    pose proof (window_start_le now W HW). lia.
  - rewrite map_lookup_filter_Some. unfold in_range. simpl.
    intros [Hs Hout]. specialize (Hold _ _ Hs). lia.
Qed.

Lemma C5_aligned_window_witness :
  ∃ r w', _is_rate_limited "k" 10 60
            (mkWorld (Connected {[ "k" := ZSet {[ "100" := 100 ]} None ]})
               (λ _, 120) 0 []) = (Ok r, w')
          ∧ r.1.2 = 1.
Proof.
  destruct (C5_aligned_window "k" 10 60
    (mkWorld (Connected {[ "k" := ZSet {[ "100" := 100 ]} None ]}) (λ _, 120) 0 [])
    _ eq_refl ltac:(lia)) as (l & c & r & w' & after & E & _).
  exists (l, c, r), w'. split; [exact E|].
  vm_compute in E. simpl. congruence.
Defined.

(** *** The façade *)

(** A check against a store in reach returns, leaves the store in reach,
    and is one more round trip, for its key. *)
Lemma is_rate_limited_ok key limit W w d :
  redis w = Some d → 0 < W →
  ∃ r w1 d1,
    _is_rate_limited key limit W w = (Ok r, w1)
    ∧ redis w1 = Some d1
    ∧ checked_keys (journal w1) = checked_keys (journal w) ++ [key].
Proof.
  intros Hd HW. rewrite (is_rate_limited_run _ _ _ _ _ Hd HW). cbv zeta.
  eexists _, _, _. split; [reflexivity|]. cbn [redis store journal].
  split; [reflexivity|].
  unfold checked_keys. rewrite !omap_app. simpl.
  case_bool_decide; simpl; by rewrite ?app_nil_r.
Qed.

(** C6, as worded, fails.  The peer 9.9.9.9 has one event in the current
    minute; its next request, under a per-minute limit of 1, is denied by
    the IP minute window, and yet the round trip for the IP hour window
    went out as well. *)
Lemma C6_counterexample : ¬ short_circuit_claim.
Proof.
  intros H.
  pose (w := mkWorld
    (Connected {[ "rate_limit:ip:9.9.9.9:minute" := ZSet {[ "60" := 60 ]} (Some 120) ]})
    (λ _, 61) 0 []).
  pose (request := mkRequest [] (Some ("9.9.9.9", 40000))).
  pose (res := check_rate_limit (λ x, x) default_settings request (Some 1) None w).
  assert (E1 : res.1 = Raise (too_many "Rate limit exceeded" "per_minute" 1 2 59))
    by (vm_compute; reflexivity).
  assert (E2 : checked_keys (journal res.2)
               = ["rate_limit:ip:9.9.9.9:minute"; "rate_limit:ip:9.9.9.9:hour"])
    by (vm_compute; reflexivity).
  specialize (H (λ x, x) default_settings request (Some 1) None w 1 2 59 res.2).
  rewrite <- E1, <- surjective_pairing in H. specialize (H eq_refl).
  rewrite E2 in H. vm_compute in H. discriminate H.
Qed.

(** C6, amended.  With the store in reach the façade checks the windows in
    the order IP minute, IP hour, token minute, token hour, but a scope at a
    time: both IP windows are checked, and counted, before either answer is
    looked at; the error raised is that of the first window in this order
    that denied; the token windows are checked only when a token came with
    the request and neither IP window denied, and then both of them are. *)
Theorem C6_scopes_checked_in_pairs sha settings request
    limit_per_minute limit_per_hour w d :
  redis w = Some d →
  let per_minute :=
    Py.or_default limit_per_minute (rate_limit_per_minute settings) in
  let per_hour := Py.or_default limit_per_hour (rate_limit_per_hour settings) in
  let ip_minute := _generate_key "ip" (_get_client_ip request) "minute" in
  let ip_hour := _generate_key "ip" (_get_client_ip request) "hour" in
  let token := _get_token_from_request request in
  let token_hash := sha (default EmptyString token) in
  let token_minute := _generate_key "token" token_hash "minute" in
  let token_hour := _generate_key "token" token_hash "hour" in
  let outcome :=
    check_rate_limit sha settings request limit_per_minute limit_per_hour w in
  ∃ r1 w1 r2 w2,
    _is_rate_limited ip_minute per_minute 60 w = (Ok r1, w1)
    ∧ _is_rate_limited ip_hour per_hour 3600 w1 = (Ok r2, w2)
    ∧ checked_keys (journal w2) = checked_keys (journal w) ++ [ip_minute; ip_hour]
    ∧ if r1.1.1 then
        outcome = (Raise (too_many "Rate limit exceeded" "per_minute"
                            per_minute r1.1.2 r1.2), w2)
      else if r2.1.1 then
        outcome = (Raise (too_many "Rate limit exceeded" "per_hour"
                            per_hour r2.1.2 r2.2), w2)
      else if negb (Py.truthy_opt token) then
        outcome = log Debug "Rate limit check passed" w2
      else
        ∃ r3 w3 r4 w4,
          _is_rate_limited token_minute per_minute 60 w2 = (Ok r3, w3)
          ∧ _is_rate_limited token_hour per_hour 3600 w3 = (Ok r4, w4)
          ∧ checked_keys (journal w4)
            = checked_keys (journal w)
              ++ [ip_minute; ip_hour; token_minute; token_hour]
          ∧ if r3.1.1 then
              outcome = (Raise (too_many "Token rate limit exceeded" "per_minute"
                                  per_minute r3.1.2 r3.2), w4)
            else if r4.1.1 then
              outcome = (Raise (too_many "Token rate limit exceeded" "per_hour"
                                  per_hour r4.1.2 r4.2), w4)
            else outcome = log Debug "Rate limit check passed" w4.
Proof.
  intros Hd per_minute per_hour ip_minute ip_hour token token_hash
    token_minute token_hour outcome.
  destruct (is_rate_limited_ok ip_minute per_minute 60 w d Hd ltac:(lia))
    as ([[l1 c1] m1] & w1 & d1 & E1 & Hd1 & K1).
  destruct (is_rate_limited_ok ip_hour per_hour 3600 w1 d1 Hd1 ltac:(lia))
    as ([[l2 c2] m2] & w2 & d2 & E2 & Hd2 & K2).
  exists (l1, c1, m1), w1, (l2, c2, m2), w2.
  split; [done|]. split; [done|]. split.
  { rewrite K2, K1, <- app_assoc. done. }
  assert (Hout : outcome =
    (if l1 then raise (too_many "Rate limit exceeded" "per_minute"
                         per_minute c1 m1)
     else if l2 then raise (too_many "Rate limit exceeded" "per_hour"
                              per_hour c2 m2)
     else
       ((if Py.truthy_opt token then
           let* (l3, c3, m3) := _is_rate_limited token_minute per_minute 60 in
           let* (l4, c4, m4) := _is_rate_limited token_hour per_hour 3600 in
           if l3 then raise (too_many "Token rate limit exceeded" "per_minute"
                               per_minute c3 m3)
           else if l4 then raise (too_many "Token rate limit exceeded" "per_hour"
                                    per_hour c4 m4)
           else ret tt
         else ret tt) ;;
        log Debug "Rate limit check passed")) w2).
  { subst outcome. unfold check_rate_limit, redis_available.
    unfold bind at 1. rewrite (proj1 (redis_Some _ _) Hd). cbn [negb].
    fold per_minute per_hour ip_minute ip_hour token.
    unfold bind at 1. rewrite E1. unfold bind at 1. rewrite E2. reflexivity. }
  cbn [fst snd]. rewrite Hout. clear Hout.
  destruct l1; [done|]. destruct l2; [done|].
  destruct (Py.truthy_opt token) eqn:Htok; cbn [negb].
  - destruct (is_rate_limited_ok token_minute per_minute 60 w2 d2 Hd2 ltac:(lia))
      as ([[l3 c3] m3] & w3 & d3 & E3 & Hd3 & K3).
    destruct (is_rate_limited_ok token_hour per_hour 3600 w3 d3 Hd3 ltac:(lia))
      as ([[l4 c4] m4] & w4 & d4 & E4 & Hd4 & K4).
    exists (l3, c3, m3), w3, (l4, c4, m4), w4.
    split; [done|]. split; [done|]. split.
    { rewrite K4, K3, K2, K1, <- !app_assoc. done. }
    cbn [fst snd].
    destruct l3, l4; unfold bind; rewrite E3, E4; reflexivity.
  - done.
Qed.

Lemma C6_scopes_checked_in_pairs_witness :
  (check_rate_limit (λ x, x) default_settings
     (mkRequest [] (Some ("9.9.9.9", 40000))) (Some 1) None
     (mkWorld
        (Connected {[ "rate_limit:ip:9.9.9.9:minute" := ZSet {[ "60" := 60 ]} (Some 120) ]})
        (λ _, 61) 0 [])).1
  = Raise (too_many "Rate limit exceeded" "per_minute" 1 2 59).
Proof.
  destruct (C6_scopes_checked_in_pairs (λ x, x) default_settings
    (mkRequest [] (Some ("9.9.9.9", 40000))) (Some 1) None
    (mkWorld
       (Connected {[ "rate_limit:ip:9.9.9.9:minute" := ZSet {[ "60" := 60 ]} (Some 120) ]})
       (λ _, 61) 0 []) _ eq_refl) as (r1 & w1 & r2 & w2 & E1 & E2 & K & Hout).
  vm_compute in E1. injection E1 as <- <-.
  cbn [fst snd] in Hout. exact (f_equal fst Hout).
Defined.

(** *** The identity of a request *)

Lemma split_nonempty sep s : Py.split sep s ≠ [].
Proof. destruct s as [|c r]; simpl; [done|]. by repeat case_match. Qed.

(** The first field of [split] is what stands in front of the first
    separator. *)
Lemma split_hd sep s : List.hd EmptyString (Py.split sep s) = Py.before sep s.
Proof.
  induction s as [|c r IH]; simpl; [done|].
  destruct (Ascii.eqb c sep); [done|].
  destruct (Py.split sep r) as [|f fs] eqn:E.
  - by destruct (split_nonempty sep r).
  - simpl in *. by rewrite IH.
Qed.

Lemma truthy_opt_Some v : Py.truthy_opt (Some v) = true ↔ v ≠ EmptyString.
Proof. destruct v; simpl; split; done. Qed.

Lemma truthy_opt_false o :
  Py.truthy_opt o = false ↔ o = None ∨ o = Some EmptyString.
Proof.
  destruct o as [[|c r]|]; simpl; split; try done; try (by auto);
    by intros [|].
Qed.

(** C10, as worded, fails.  A request whose [X-Forwarded-For] header is
    present but empty is keyed by its peer address (or by [X-Real-IP]), not
    by the empty first entry of the header. *)
Lemma C10_counterexample :
  _get_client_ip (mkRequest [("x-forwarded-for", "")] (Some ("10.0.0.1", 40000)))
  ≠ client_ip_as_specified
      (mkRequest [("x-forwarded-for", "")] (Some ("10.0.0.1", 40000))).
Proof. vm_compute. discriminate. Qed.

(** C10, amended.  The identity is the trimmed text in front of the first
    comma of [X-Forwarded-For] when that header is present and not empty;
    otherwise the value of [X-Real-IP] when that header is present and not
    empty; otherwise the peer address when the transport gives one;
    otherwise ["unknown"].  It is a function of these three inputs alone,
    and agrees with the specification's reading on every request that has
    neither header empty. *)
Theorem C10_client_ip_precedence request :
  let forwarded_for := headers_get "X-Forwarded-For" request in
  let real_ip := headers_get "X-Real-IP" request in
  (∀ v, forwarded_for = Some v → v ≠ EmptyString →
        _get_client_ip request = Py.strip (Py.before "," v))
  ∧ (∀ v, forwarded_for = None ∨ forwarded_for = Some EmptyString →
          real_ip = Some v → v ≠ EmptyString →
          _get_client_ip request = v)
  ∧ (∀ host port, forwarded_for = None ∨ forwarded_for = Some EmptyString →
          real_ip = None ∨ real_ip = Some EmptyString →
          client request = Some (host, port) →
          _get_client_ip request = host)
  ∧ (forwarded_for = None ∨ forwarded_for = Some EmptyString →
     real_ip = None ∨ real_ip = Some EmptyString →
     client request = None →
     _get_client_ip request = "unknown")
  ∧ (∀ other,
       headers_get "X-Forwarded-For" other = forwarded_for →
       headers_get "X-Real-IP" other = real_ip →
       fst <$> client other = fst <$> client request →
       _get_client_ip other = _get_client_ip request)
  ∧ (forwarded_for ≠ Some EmptyString → real_ip ≠ Some EmptyString →
     _get_client_ip request = client_ip_as_specified request).
Proof.
  intros forwarded_for real_ip. unfold _get_client_ip, client_ip_as_specified.
  fold forwarded_for real_ip.
  split; [|split; [|split; [|split; [|split]]]].
  - intros v -> Hv. apply truthy_opt_Some in Hv. rewrite Hv. simpl.
    by rewrite split_hd.
  - intros v Hf -> Hv. apply truthy_opt_false in Hf. rewrite Hf.
    apply truthy_opt_Some in Hv. by rewrite Hv.
  - intros host port Hf Hr ->. apply truthy_opt_false in Hf, Hr.
    by rewrite Hf, Hr.
  - intros Hf Hr ->. apply truthy_opt_false in Hf, Hr. by rewrite Hf, Hr.
  - intros other -> -> Hc.
    destruct (Py.truthy_opt forwarded_for); [done|].
    destruct (Py.truthy_opt real_ip); [done|].
    destruct (client other) as [[h1 p1]|], (client request) as [[h2 p2]|];
      simpl in Hc; congruence.
  - intros Hf Hr.
    destruct forwarded_for as [[|c v]|]; [done|done|].
    destruct real_ip as [[|c v]|]; done.
Qed.

Lemma C10_client_ip_precedence_witness :
  _get_client_ip
    (mkRequest [("x-real-ip", "9.9.9.9");
                ("x-forwarded-for", " 1.2.3.4 , 5.6.7.8")]
       (Some ("10.0.0.1", 40000)))
  = "1.2.3.4".
Proof.
  refine (proj1 (C10_client_ip_precedence
    (mkRequest [("x-real-ip", "9.9.9.9");
                ("x-forwarded-for", " 1.2.3.4 , 5.6.7.8")]
       (Some ("10.0.0.1", 40000)))) " 1.2.3.4 , 5.6.7.8" eq_refl _).
  discriminate.
Defined.

End RateLimiterFacts.

(** ** Facts about the command channel *)

Module MQTTFacts.
Import MQTT.

Section Channel.

Variable settings : Settings.
Variable decode_utf8 : string → option string.
Variable json_loads : string → option json.

Local Abbreviation step := (MQTT.step settings decode_utf8 json_loads).
Local Abbreviation run := (MQTT.run settings decode_utf8 json_loads).
Local Abbreviation reachable := (MQTT.reachable settings decode_utf8 json_loads).
Local Abbreviation connect := (MQTT.connect settings).
Local Abbreviation invoke := (MQTT.invoke settings).
Local Abbreviation perform := (MQTT.perform settings).
Local Abbreviation _on_disconnect := (MQTT._on_disconnect settings).
Local Abbreviation _on_message :=
  (MQTT._on_message settings decode_utf8 json_loads).

(** *** Publishing *)

(** C4.  While the service is not connected, [publish_order] and
    [publish_admin_command] return [False] having done nothing but write one
    error line: nothing is handed to [client.publish], and the service is
    left as it was, so nothing is kept for later either. *)
Theorem C4_publish_while_down s :
  is_connected s = false →
  (∀ order_id item_id slot_id quantity utcnow res,
     publish_order order_id item_id slot_id quantity utcnow res s
     = (false, [Log Error "Cannot publish order: MQTT not connected"])
     ∧ step s (PublishOrder order_id item_id slot_id quantity utcnow res)
       = (s, [Log Error "Cannot publish order: MQTT not connected"]))
  ∧ (∀ command parameters utcnow res,
       publish_admin_command command parameters utcnow res s
       = (false, [Log Error "Cannot publish admin command: MQTT not connected"])
       ∧ step s (PublishAdminCommand command parameters utcnow res)
         = (s, [Log Error "Cannot publish admin command: MQTT not connected"]))
  ∧ (∀ e, (∃ o i sl q u r, e = PublishOrder o i sl q u r)
          ∨ (∃ c p u r, e = PublishAdminCommand c p u r) →
          published (step s e).2 = [] ∧ (step s e).1 = s).
Proof.
  intros Hdown. split; [|split].
  - intros. unfold MQTT.step, publish_order. by rewrite Hdown.
  - intros. unfold MQTT.step, publish_admin_command. by rewrite Hdown.
  - intros e [(o & i & sl & q & u & r & ->) | (c & p & u & r & ->)];
      unfold MQTT.step, publish_order, publish_admin_command;
      by rewrite Hdown.
Qed.

(** *** Health *)

(** C7, amended.  [is_healthy] answers [False] when the service is not
    connected, and when the last inbound message on record is more than 300
    seconds old; in every other case, the one where no inbound message was
    ever recorded included, it answers [True]. *)
Theorem C7_health utcnow s :
  (is_connected s = false → (is_healthy utcnow s).1 = false)
  ∧ (∀ t, last_message_time s = Some t → 300 * 1000000 < utcnow - t →
          (is_healthy utcnow s).1 = false)
  ∧ (is_connected s = true →
     (∀ t, last_message_time s = Some t → utcnow - t ≤ 300 * 1000000) →
     (is_healthy utcnow s).1 = true)
  ∧ (is_connected s = true → last_message_time s = None →
     (is_healthy utcnow s).1 = true)
  ∧ (last_message_time s ≠ None →
     (is_healthy utcnow s).1 = healthy_as_specified utcnow s).
Proof.
  unfold is_healthy, healthy_as_specified.
  split; [|split; [|split; [|split]]].
  - by intros ->.
  - intros t -> Hold. destruct (is_connected s); [|done]. simpl.
    by rewrite bool_decide_eq_true_2.
  - intros -> Hrecent. simpl. destruct (last_message_time s) as [t|]; [|done].
    specialize (Hrecent t eq_refl). by rewrite bool_decide_eq_false_2 by lia.
  - by intros -> ->.
  - intros Hsome. destruct (is_connected s); [|done]. simpl.
    destruct (last_message_time s) as [t|]; [|done].
    repeat case_bool_decide; (done || lia).
Qed.

(** *** What a callable can do to the service *)

Lemma retry_delays_app a b :
  retry_delays (a ++ b) = retry_delays a ++ retry_delays b.
Proof. apply omap_app. Qed.

Lemma connect_calls_app a b :
  connect_calls (a ++ b) = connect_calls a ++ connect_calls b.
Proof. apply omap_app. Qed.

Lemma propagated_app a b : propagated (a ++ b) = propagated a ++ propagated b.
Proof. apply omap_app. Qed.

Lemma retries_app a b : retries (a ++ b) = retries a ++ retries b.
Proof. apply List.filter_app. Qed.

(** A method of the service, called by whomever, leaves the client, the
    retry count and budget and the two time stamps as they are; it can
    take the connection flag down, never up; it does not sleep and
    nothing it raises gets out. *)
Lemma invoke_frame c s :
  client (invoke c s).1 = client s
  ∧ connection_attempts (invoke c s).1 = connection_attempts s
  ∧ max_connection_attempts (invoke c s).1 = max_connection_attempts s
  ∧ reconnect_delay (invoke c s).1 = reconnect_delay s
  ∧ last_connection_time (invoke c s).1 = last_connection_time s
  ∧ last_message_time (invoke c s).1 = last_message_time s
  ∧ (is_connected (invoke c s).1 = true → is_connected s = true)
  ∧ retry_delays (invoke c s).2 = []
  ∧ propagated (invoke c s).2 = [].
Proof.
  destruct c; cbn [MQTT.invoke fst snd];
    unfold connect, disconnect, publish_order, publish_admin_command, send,
      register_message_handler, is_healthy;
    repeat case_match; simpl in *; repeat split; first [done|congruence].
Qed.

Lemma perform_cons c rest s :
  perform (c :: rest) s
  = ((perform rest (invoke c s).1).1,
     (invoke c s).2 ++ (perform rest (invoke c s).1).2).
Proof. simpl. destruct (invoke c s), (MQTT.perform _ _ _). done. Qed.

Lemma perform_frame calls : ∀ s,
  client (perform calls s).1 = client s
  ∧ connection_attempts (perform calls s).1 = connection_attempts s
  ∧ max_connection_attempts (perform calls s).1 = max_connection_attempts s
  ∧ reconnect_delay (perform calls s).1 = reconnect_delay s
  ∧ last_connection_time (perform calls s).1 = last_connection_time s
  ∧ last_message_time (perform calls s).1 = last_message_time s
  ∧ (is_connected (perform calls s).1 = true → is_connected s = true)
  ∧ retry_delays (perform calls s).2 = []
  ∧ propagated (perform calls s).2 = [].
Proof.
  induction calls as [|c rest IH]; intros s; [done|].
  rewrite perform_cons. cbn [fst snd].
  destruct (invoke_frame c s) as (H1 & H2 & H3 & H4 & H5 & H6 & H7 & H8 & H9).
  destruct (IH (invoke c s).1)
    as (I1 & I2 & I3 & I4 & I5 & I6 & I7 & I8 & I9).
  rewrite retry_delays_app, propagated_app, H8, H9, I8, I9.
  repeat split; try congruence. tauto.
Qed.

(** *** Inbound messages *)

(** What [_on_message] does in each of its four cases. *)
Lemma on_message_run msg utcnow s :
  let s1 := set_last_message_time utcnow s in
  _on_message msg utcnow s
  = match decode_utf8 (payload msg) with
    | None => (s1, [Log Error "Error processing MQTT message"])
    | Some text =>
        match json_loads text with
        | None => (s1, [Log Debug "Received MQTT message";
                        Log Warning "Invalid JSON payload received"])
        | Some data =>
            match message_handlers s !! topic msg with
            | Some h =>
                ((perform (h data).1 s1).1,
                 [Log Debug "Received MQTT message";
                  HandlerCall (topic msg) data]
                   ++ (perform (h data).1 s1).2
                   ++ match (h data).2 with
                      | Returned => []
                      | Raised _ =>
                          [Log Error ("Error in message handler for topic "
                                      +:+ topic msg)]
                      | Exited what => [Propagates what]
                      end)
            | None => (s1, [Log Debug "Received MQTT message";
                            Log Debug "No handler registered for topic"])
            end
        end
    end.
Proof.
  unfold MQTT._on_message. cbv zeta.
  change (message_handlers (set_last_message_time utcnow s))
    with (message_handlers s).
  destruct (decode_utf8 (payload msg)) as [text|]; [|done].
  destruct (json_loads text) as [data|]; [|done].
  case_match; [|done].
  by destruct (MQTT.perform _ _ _).
Qed.

Local Ltac case_handler h H :=
  match goal with
  | |- context [match ?x with Some _ => _ | None => _ end] =>
      destruct x as [h|] eqn:H
  end.

(** The callback leaves the client, the retry count and budget and the
    time of the last connection as they are, whatever the handler does; it
    records the time of the message; the connection flag can go down, by a
    handler that hangs up, and never up; and it does not sleep. *)
Lemma on_message_frame msg utcnow s :
  client (_on_message msg utcnow s).1 = client s
  ∧ connection_attempts (_on_message msg utcnow s).1 = connection_attempts s
  ∧ max_connection_attempts (_on_message msg utcnow s).1
    = max_connection_attempts s
  ∧ reconnect_delay (_on_message msg utcnow s).1 = reconnect_delay s
  ∧ last_connection_time (_on_message msg utcnow s).1 = last_connection_time s
  ∧ last_message_time (_on_message msg utcnow s).1 = Some utcnow
  ∧ (is_connected (_on_message msg utcnow s).1 = true → is_connected s = true)
  ∧ retry_delays (_on_message msg utcnow s).2 = [].
Proof.
  rewrite on_message_run. cbv zeta.
  destruct (decode_utf8 (payload msg)) as [text|]; [|done].
  destruct (json_loads text) as [data|]; [|done].
  case_handler h Hh; [|done].
  destruct (perform_frame (h data).1 (set_last_message_time utcnow s))
    as (H1 & H2 & H3 & H4 & H5 & H6 & H7 & H8 & H9).
  cbn [fst snd]. rewrite !retry_delays_app, H8.
  repeat split; try done. by destruct (h data).2.
Qed.

(** C9, as worded, fails.  A handler that ends by raising [SystemExit] is
    neither caught nor logged: the exception leaves the callback. *)
Lemma C9_counterexample : ¬ handler_faults_caught_claim.
Proof.
  intros H.
  specialize (H default_settings (λ x, Some x) (λ _, Some JNull)
    (mkMessage "foodyeh/status" "null") 1700000000000000
    (register_message_handler "foodyeh/status"
       (λ _, ([], Exited "SystemExit"))
       (init "foodyeh_api_1700000000").1).1
    "null" JNull (λ _, ([], Exited "SystemExit"))
    eq_refl eq_refl eq_refl ltac:(discriminate)).
  vm_compute in H. discriminate H.
Qed.

(** C9, amended.  A payload that does not decode, as text or as JSON, is
    logged, no handler is called and nothing but the time of the last
    message changes; so for a topic without a handler.  A message with a
    handler is handed to it: the service is then as the calls of the
    handler left it, and a handler that ends with an [Exception] is logged,
    while one that ends with another [BaseException] is not caught: the
    exception leaves the callback, and this is the only way anything
    leaves it.  In every case the callback leaves the client, the retry
    count and the retry budget alone and does not sleep, and the only
    change to the connection flag is a handler hanging up. *)
Theorem C9_inbound_contained msg utcnow s :
  let after := _on_message msg utcnow s in
  (decode_utf8 (payload msg) = None →
   after = (set_last_message_time utcnow s,
            [Log Error "Error processing MQTT message"]))
  ∧ (∀ text, decode_utf8 (payload msg) = Some text → json_loads text = None →
       after = (set_last_message_time utcnow s,
                [Log Debug "Received MQTT message";
                 Log Warning "Invalid JSON payload received"]))
  ∧ (∀ text data,
       decode_utf8 (payload msg) = Some text → json_loads text = Some data →
       message_handlers s !! topic msg = None →
       after = (set_last_message_time utcnow s,
                [Log Debug "Received MQTT message";
                 Log Debug "No handler registered for topic"]))
  ∧ (∀ text data h,
       decode_utf8 (payload msg) = Some text → json_loads text = Some data →
       message_handlers s !! topic msg = Some h →
       let called := perform (h data).1 (set_last_message_time utcnow s) in
       after.1 = called.1
       ∧ after.2
         = [Log Debug "Received MQTT message"; HandlerCall (topic msg) data]
             ++ called.2
             ++ match (h data).2 with
                | Returned => []
                | Raised _ =>
                    [Log Error ("Error in message handler for topic "
                                +:+ topic msg)]
                | Exited what => [Propagates what]
                end)
  ∧ (∀ what,
       what ∈ propagated after.2
       ↔ ∃ text data h,
           decode_utf8 (payload msg) = Some text
           ∧ json_loads text = Some data
           ∧ message_handlers s !! topic msg = Some h
           ∧ (h data).2 = Exited what)
  ∧ client after.1 = client s
  ∧ connection_attempts after.1 = connection_attempts s
  ∧ max_connection_attempts after.1 = max_connection_attempts s
  ∧ last_message_time after.1 = Some utcnow
  ∧ (is_connected after.1 = true → is_connected s = true)
  ∧ retry_delays after.2 = [].
Proof.
  intros after.
  destruct (on_message_frame msg utcnow s)
    as (F1 & F2 & F3 & _ & _ & F6 & F7 & F8).
  fold after in F1, F2, F3, F6, F7, F8.
  assert (after = _) as E by apply on_message_run. cbv zeta in E.
  unfold handler in *.
  split; [by intros Hd; rewrite Hd in E|].
  split; [by intros text Hd Hj; rewrite Hd, Hj in E|].
  split; [by intros text data Hd Hj Hh; rewrite Hd, Hj, Hh in E|].
  split; [by intros text data h Hd Hj Hh; rewrite Hd, Hj, Hh in E;
          rewrite E|].
  split; [|done].
  intros what. rewrite E. clear E. split.
  - destruct (decode_utf8 (payload msg)) as [text|] eqn:Hd;
      [|by intros ?%elem_of_nil].
    destruct (json_loads text) as [data|] eqn:Hj; [|by intros ?%elem_of_nil].
    case_handler h Hh; [|by intros ?%elem_of_nil].
    cbn [snd propagated omap list_omap app].
    rewrite propagated_app.
    destruct (perform_frame (h data).1 (set_last_message_time utcnow s))
      as (_ & _ & _ & _ & _ & _ & _ & _ & ->).
    intros Hin. exists text, data, h.
    split; [done|]. split; [done|]. split; [done|].
    destruct (h data).2 as [|w|w]; simpl in Hin;
      [by apply elem_of_nil in Hin|by apply elem_of_nil in Hin|].
    by apply list_elem_of_singleton in Hin as ->.
  - intros (text & data & h & -> & -> & -> & Hex).
    cbn [snd propagated omap list_omap app].
    rewrite propagated_app.
    destruct (perform_frame (h data).1 (set_last_message_time utcnow s))
      as (_ & _ & _ & _ & _ & _ & _ & _ & ->).
    rewrite Hex. simpl. by apply list_elem_of_singleton.
Qed.

(** *** Reconnection *)

Lemma connect_no_delay res s : retry_delays (connect res s).2 = [].
Proof. unfold MQTT.connect. by repeat case_match. Qed.

(** With a client, [connect] calls [client.connect] once, whatever comes
    of it. *)
Lemma connect_retries res s :
  client s ≠ None →
  retries (connect res s).2
  = [ClientConnect (mqtt_broker settings) (mqtt_port settings)
       (mqtt_keepalive settings)]
  ∧ connect_calls (connect res s).2
    = [(mqtt_broker settings, mqtt_port settings, mqtt_keepalive settings)].
Proof.
  intros Hc. unfold MQTT.connect.
  destruct (client s); [|done]. by repeat case_match.
Qed.

Lemma on_disconnect_retry rc res s :
  rc ≠ 0 → connection_attempts s < max_connection_attempts s →
  _on_disconnect rc res s
  = (set_connection_attempts (connection_attempts s + 1)
       (set_is_connected false s),
     [Log Warning "MQTT client disconnected"]
       ++ [Log Info "Attempting MQTT reconnection"; Sleep (reconnect_delay s)]
       ++ (connect res
             (set_connection_attempts (connection_attempts s + 1)
                (set_is_connected false s))).2).
Proof.
  intros Hrc Hlt. unfold MQTT._on_disconnect. simpl.
  by rewrite !bool_decide_eq_true_2.
Qed.

Lemma on_disconnect_spent rc res s :
  rc = 0 ∨ max_connection_attempts s ≤ connection_attempts s →
  _on_disconnect rc res s
  = (set_is_connected false s, [Log Warning "MQTT client disconnected"]).
Proof.
  intros H. unfold MQTT._on_disconnect. simpl.
  destruct H as [-> | H]; [done|].
  rewrite (bool_decide_eq_false_2 (_ < _)) by lia.
  by rewrite andb_false_r.
Qed.

Local Ltac solve_well_formed :=
  simpl; repeat split; first [done | lia | congruence | solve [auto]].

Lemma step_well_formed s e : well_formed s → well_formed (step s e).1.
Proof.
  intros (Hmax & Hdelay & Hatt & Hconn). unfold well_formed.
  destruct e; cbn [MQTT.step fst]; try solve [solve_well_formed].
  - unfold _on_connect. case_bool_decide; solve_well_formed.
  - destruct (decide (rc ≠ 0 ∧ connection_attempts s < max_connection_attempts s))
      as [[H1 H2]|Hno].
    + rewrite on_disconnect_retry by done. solve_well_formed.
    + rewrite on_disconnect_spent.
      * solve_well_formed.
      * destruct (decide (rc = 0)); [by left|right; lia].
  - destruct (on_message_frame msg utcnow s)
      as (_ & -> & -> & -> & _ & _ & F7 & _).
    split; [done|]. split; [done|]. split; [done|].
    intros H. by apply Hconn, F7.
  - unfold disconnect. repeat case_match; solve_well_formed.
Qed.

Lemma reachable_well_formed s : reachable s → well_formed s.
Proof.
  induction 1 as [cid|s e _ IH].
  - unfold well_formed. simpl. repeat split; (done || lia).
  - by apply step_well_formed.
Qed.

Lemma step_client s e : client (step s e).1 = client s.
Proof.
  destruct e; cbn [MQTT.step fst]; try done.
  - unfold _on_connect. by case_bool_decide.
  - unfold MQTT._on_disconnect. by case_match.
  - by destruct (on_message_frame msg utcnow s) as (-> & _).
  - unfold disconnect. by repeat case_match.
Qed.

(** The service always has its client: [__init__] builds it and nothing
    takes it away. *)
Lemma reachable_client s : reachable s → client s ≠ None.
Proof.
  induction 1 as [cid|s e _ IH]; [done|]. by rewrite step_client.
Qed.

Lemma run_cons s e es :
  run s (e :: es) = ((run (step s e).1 es).1, (step s e).2 ++ (run (step s e).1 es).2).
Proof. simpl. destruct (step s e), (MQTT.run _ _ _ _ es). done. Qed.

Lemma run_client es : ∀ s, client (run s es).1 = client s.
Proof.
  induction es as [|e es IH]; intros s; [done|].
  rewrite run_cons. cbn [fst]. by rewrite IH, step_client.
Qed.

(** One retry: a sleep of the delay, then one call of [client.connect]. *)
Lemma on_disconnect_retries rc res s :
  rc ≠ 0 → connection_attempts s < max_connection_attempts s →
  client s ≠ None →
  retries (_on_disconnect rc res s).2
  = [Sleep (reconnect_delay s);
     ClientConnect (mqtt_broker settings) (mqtt_port settings)
       (mqtt_keepalive settings)]
  ∧ retry_delays (_on_disconnect rc res s).2 = [reconnect_delay s]
  ∧ connect_calls (_on_disconnect rc res s).2
    = [(mqtt_broker settings, mqtt_port settings, mqtt_keepalive settings)].
Proof.
  intros Hrc Hlt Hc. rewrite on_disconnect_retry by done. cbn [snd].
  rewrite !retries_app, !retry_delays_app, !connect_calls_app.
  rewrite connect_no_delay.
  destruct (connect_retries res
    (set_connection_attempts (connection_attempts s + 1)
       (set_is_connected false s)) Hc) as [-> ->].
  done.
Qed.

(** A run of unexpected disconnects: a retry, a sleep of 5 seconds and
    then a call of [client.connect], for each of them until the budget is
    spent, none after that. *)
Lemma run_unexpected ds : ∀ s,
  well_formed s → client s ≠ None →
  Forall (λ d : Z * outcome, d.1 ≠ 0) ds →
  let k := Nat.min (length ds) (Z.to_nat (5 - connection_attempts s)) in
  retries (run s (unexpected <$> ds)).2
  = mjoin (replicate k
             [Sleep 5;
              ClientConnect (mqtt_broker settings) (mqtt_port settings)
                (mqtt_keepalive settings)])
  ∧ retry_delays (run s (unexpected <$> ds)).2 = replicate k 5
  ∧ connect_calls (run s (unexpected <$> ds)).2
    = replicate k
        (mqtt_broker settings, mqtt_port settings, mqtt_keepalive settings)
  ∧ connection_attempts (run s (unexpected <$> ds)).1
    = Z.min 5 (connection_attempts s + Z.of_nat (length ds))
  ∧ well_formed (run s (unexpected <$> ds)).1
  ∧ (ds ≠ [] → is_connected (run s (unexpected <$> ds)).1 = false).
Proof.
  induction ds as [|[rc res] ds IH]; intros s Hwf Hcl Hds.
  - cbn [fmap list_fmap MQTT.run fst snd length]. destruct Hwf as (? & ? & ? & ?).
    repeat split; (done || lia).
  - apply Forall_cons in Hds as [Hrc Hds]. cbn [fst] in Hrc.
    rewrite fmap_cons, run_cons.
    pose proof (step_well_formed s (unexpected (rc, res)) Hwf) as Hwf1.
    assert (client (step s (unexpected (rc, res))).1 ≠ None) as Hcl1
      by (by rewrite step_client).
    destruct Hwf as (Hmax & Hdelay & Hatt & Hconn).
    destruct (IH _ Hwf1 Hcl1 Hds) as (IH0 & IH1 & IHc & IH2 & IH3 & IH4).
    cbn [fst snd].
    rewrite retries_app, retry_delays_app, connect_calls_app, IH0, IH1, IHc,
      IH2.
    clear IH0 IH1 IHc IH2.
    unfold unexpected in *. cbn [fst snd MQTT.step length] in *.
    destruct (decide (connection_attempts s < 5)) as [Hlt|Hge].
    + destruct (on_disconnect_retries rc res s) as (-> & -> & ->);
        [done|lia|done|].
      rewrite on_disconnect_retry in * by (done || lia).
      cbn [fst connection_attempts set_connection_attempts] in *.
      rewrite Hdelay.
      replace (Nat.min (S (length ds)) (Z.to_nat (5 - connection_attempts s)))
        with (S (Nat.min (length ds) (Z.to_nat (5 - (connection_attempts s + 1)))))
        by lia.
      split; [done|]. split; [done|]. split; [done|]. split; [lia|].
      split; [done|].
      intros _. destruct ds as [|d ds']; [done|]. by apply IH4.
    + rewrite on_disconnect_spent in * by (right; lia).
      cbn [fst snd connection_attempts set_is_connected] in *.
      replace (Z.to_nat (5 - connection_attempts s)) with 0%nat by lia.
      rewrite !Nat.min_0_r.
      split; [done|]. split; [done|]. split; [done|]. split; [lia|].
      split; [done|].
      intros _. destruct ds as [|d ds']; [done|]. by apply IH4.
Qed.

(** Once the budget is spent and the link is down, nothing that happens
    short of the broker accepting a connection changes that, and nothing
    sleeps for a retry. *)
Lemma failed_step s e :
  failed s → accepted e = false →
  failed (step s e).1 ∧ retry_delays (step s e).2 = [].
Proof.
  intros [Hdown Hspent] He. unfold failed.
  destruct e; cbn [MQTT.step fst snd].
  - cbn [accepted] in He. apply bool_decide_eq_false in He.
    unfold _on_connect. rewrite bool_decide_eq_false_2 by done. done.
  - rewrite on_disconnect_spent by (by right). done.
  - destruct (on_message_frame msg utcnow s)
      as (_ & -> & -> & _ & _ & _ & F7 & ->).
    split; [|done]. split; [|done].
    destruct (is_connected (_on_message msg utcnow s).1) eqn:Hc; [|done].
    specialize (F7 eq_refl). congruence.
  - split; [done|]. apply connect_no_delay.
  - unfold disconnect. rewrite Hdown. by case_match.
  - unfold publish_order. by rewrite Hdown.
  - unfold publish_admin_command. by rewrite Hdown.
  - done.
  - unfold is_healthy. by rewrite Hdown.
Qed.

Lemma failed_run es : ∀ s,
  failed s → Forall (λ e, accepted e = false) es →
  failed (run s es).1 ∧ retry_delays (run s es).2 = [].
Proof.
  induction es as [|e es IH]; intros s Hf Hes; [done|].
  apply Forall_cons in Hes as [He Hes].
  destruct (failed_step s e Hf He) as (Hf1 & Hr1).
  destruct (IH _ Hf1 Hes) as (Hf2 & Hr2).
  rewrite run_cons. cbn [fst snd].
  by rewrite retry_delays_app, Hr1, Hr2.
Qed.

(** Disconnects that reach a service whose budget is spent: no attempt. *)
Lemma failed_disconnects ds : ∀ s,
  failed s →
  retries (run s (unexpected <$> ds)).2 = []
  ∧ failed (run s (unexpected <$> ds)).1.
Proof.
  induction ds as [|[rc res] ds IH]; intros s Hf; [done|].
  rewrite fmap_cons, run_cons. cbn [fst snd]. rewrite retries_app.
  destruct Hf as [Hdown Hspent].
  assert (step s (unexpected (rc, res))
          = (set_is_connected false s, [Log Warning "MQTT client disconnected"]))
    as ->.
  { unfold unexpected. cbn [MQTT.step fst snd].
    by rewrite on_disconnect_spent by (by right). }
  cbn [fst snd].
  destruct (IH (set_is_connected false s)) as [-> Hf]; [by split|].
  by split.
Qed.

Lemma run_reachable es : ∀ s, reachable s → reachable (run s es).1.
Proof.
  induction es as [|e es IH]; intros s Hr; [done|].
  rewrite run_cons. cbn [fst]. apply IH. by apply reachable_step.
Qed.

(** C3, amended.  From any state the service can be in, a run of
    unexpected disconnects (the callback fires with a code other than 0) is
    answered with one reconnection attempt each, a sleep of 5 seconds
    followed by one call of [client.connect], until 5 attempts have been
    counted and with none after that; a disconnect with code 0, the one the
    caller's own [disconnect] leads to, is never retried.  By then the
    service is down with its budget spent: further disconnects are not
    retried, and the service stays so, without sleeping for any retry,
    whatever happens short of the broker accepting a connection; a call of
    [connect] does not change it.  An accepted connection, be it the
    answer to that call or to the last automatic attempt, ends it: the
    service is connected and the count is back to 0. *)
Theorem C3_retry_budget s ds :
  reachable s → Forall (λ d : Z * outcome, d.1 ≠ 0) ds →
  let after := run s (unexpected <$> ds) in
  let k := Nat.min (length ds) (Z.to_nat (5 - connection_attempts s)) in
  retries after.2
  = mjoin (replicate k
             [Sleep 5;
              ClientConnect (mqtt_broker settings) (mqtt_port settings)
                (mqtt_keepalive settings)])
  ∧ retry_delays after.2 = replicate k 5
  ∧ connect_calls after.2
    = replicate k
        (mqtt_broker settings, mqtt_port settings, mqtt_keepalive settings)
  ∧ (k ≤ 5)%nat
  ∧ (∀ res, retries (_on_disconnect 0 res s).2 = [])
  ∧ (5 ≤ connection_attempts s + Z.of_nat (length ds) → failed after.1)
  ∧ (failed after.1 →
     (∀ more, retries (run after.1 (unexpected <$> more)).2 = [])
     ∧ (∀ res, (step after.1 (Connect res)).1 = after.1)
     ∧ (∀ es, Forall (λ e, accepted e = false) es →
              failed (run after.1 es).1
              ∧ retry_delays (run after.1 es).2 = []))
  ∧ (∀ utcnow sub,
       is_connected (_on_connect 0 utcnow sub after.1).1 = true
       ∧ connection_attempts (_on_connect 0 utcnow sub after.1).1 = 0
       ∧ ¬ failed (_on_connect 0 utcnow sub after.1).1).
Proof.
  intros Hreach Hds after k.
  pose proof (reachable_well_formed s Hreach) as Hwf.
  pose proof (reachable_client s Hreach) as Hcl.
  destruct (run_unexpected ds s Hwf Hcl Hds)
    as (Hret & Hdel & Hcalls & Hatt & Hwf' & Hdown).
  fold after in Hret, Hdel, Hcalls, Hatt, Hwf', Hdown.
  destruct Hwf as (Hmax & Hdelay & Hrange & Hconn).
  split; [done|]. split; [done|]. split; [done|].
  split; [subst k; lia|].
  split.
  { intros res. by rewrite on_disconnect_spent by (by left). }
  split.
  { intros Hspent. destruct Hwf' as (Hmax' & _ & _ & Hconn').
    unfold failed. rewrite Hmax', Hatt. split; [|lia].
    destruct (is_connected after.1) eqn:E; [|done].
    specialize (Hconn' eq_refl). lia. }
  split.
  { intros Hf. split; [|split].
    - intros more. by apply failed_disconnects.
    - done.
    - intros es Hes. by apply failed_run. }
  intros utcnow sub. unfold _on_connect.
  rewrite bool_decide_eq_true_2 by done. cbn [fst].
  split; [done|]. split; [done|]. by intros [? _].
Qed.

End Channel.

(** C3, as worded, fails.  Five unexpected disconnects spend the budget,
    and the last attempt's call of [client.connect] goes through; when the
    broker then accepts the connection the service is connected again,
    although nobody called [connect]. *)
Lemma C3_counterexample : ¬ stays_failed_claim.
Proof.
  intros H.
  pose (s := (run default_settings (λ x, Some x) (λ _, None)
                (init "foodyeh_api_1700000000").1
                (unexpected <$> replicate 4 (1, Raises "connection refused")
                                ++ [(1, Returns 0)])).1).
  assert (failed
            (run default_settings (λ x, Some x) (λ _, None) s
               [OnConnect 0 1700000030000000 (λ _, Returns 0)]).1)
    as [Hdown _].
  { apply H.
    - apply run_reachable, reachable_init.
    - split; [reflexivity|]. vm_compute. discriminate.
    - by repeat constructor. }
  vm_compute in Hdown. discriminate Hdown.
Qed.

Lemma C3_retry_budget_witness :
  retries
    (run default_settings (λ x, Some x) (λ _, None)
       (init "foodyeh_api_1700000000").1
       (unexpected <$> replicate 7 (1, Raises "connection refused"))).2
  = mjoin (replicate 5 [Sleep 5; ClientConnect "mqtt.foodyeh.io" 8883 60]).
Proof.
  refine (proj1 (C3_retry_budget default_settings (λ x, Some x) (λ _, None)
    (init "foodyeh_api_1700000000").1
    (replicate 7 (1, Raises "connection refused")) _ _)).
  - apply reachable_init.
  - repeat constructor; discriminate.
Defined.


(** C7, as worded, fails.  A service that connected 400 seconds ago and
    has not received any message since is reported healthy, although no
    inbound message was observed within the last 300 seconds. *)
Lemma C7_counterexample :
  (is_healthy 1700000400000000
     (_on_connect 0 1700000000000000 (λ _, Returns 0)
        (init "foodyeh_api_1700000000").1).1).1
  ≠ healthy_as_specified 1700000400000000
      (_on_connect 0 1700000000000000 (λ _, Returns 0)
         (init "foodyeh_api_1700000000").1).1.
Proof. vm_compute. discriminate. Qed.

Lemma C7_health_witness :
  (is_healthy 1700000400000000
     (_on_message default_settings (λ x, Some x) (λ _, None) (mkMessage "foodyeh/status" "up")
        1700000000000000
        (_on_connect 0 1700000000000000 (λ _, Returns 0)
           (init "foodyeh_api_1700000000").1).1).1).1
  = false.
Proof.
  refine (proj1 (proj2 (C7_health 1700000400000000
    (_on_message default_settings (λ x, Some x) (λ _, None) (mkMessage "foodyeh/status" "up")
       1700000000000000
       (_on_connect 0 1700000000000000 (λ _, Returns 0)
          (init "foodyeh_api_1700000000").1).1).1))
    1700000000000000 eq_refl _).
  lia.
Defined.

Lemma C9_inbound_contained_witness :
  (_on_message default_settings (λ x, Some x) (λ _, Some JNull)
     (mkMessage "foodyeh/status" "null") 1700000000000000
     (register_message_handler "foodyeh/status" (λ _, ([], Raised "boom"))
        (init "foodyeh_api_1700000000").1).1).2
  = [Log Debug "Received MQTT message";
     HandlerCall "foodyeh/status" JNull;
     Log Error "Error in message handler for topic foodyeh/status"].
Proof.
  exact (proj2 (proj1 (proj2 (proj2 (proj2
    (C9_inbound_contained default_settings (λ x, Some x) (λ _, Some JNull)
       (mkMessage "foodyeh/status" "null") 1700000000000000
       (register_message_handler "foodyeh/status" (λ _, ([], Raised "boom"))
          (init "foodyeh_api_1700000000").1).1))))
    "null" JNull (λ _, ([], Raised "boom")) eq_refl eq_refl eq_refl)).
Defined.

Lemma C4_publish_while_down_witness :
  publish_admin_command "reboot" None 1700000000000000 (Returns 0)
    (init "foodyeh_api_1700000000").1
  = (false, [Log Error "Cannot publish admin command: MQTT not connected"]).
Proof.
  exact (proj1 (proj1 (proj2
    (C4_publish_while_down default_settings (λ x, Some x) (λ _, None)
       (init "foodyeh_api_1700000000").1 eq_refl))
    "reboot" None 1700000000000000 (Returns 0))).
Defined.

(** While connected, an order goes out at QoS 1 and an administrative
    command at QoS 2. *)
Example publish_when_connected :
  let s := (_on_connect 0 1700000000000000 (λ _, Returns 0)
              (init "foodyeh_api_1700000000").1).1 in
  publish_order "ORD-1" "cola" 3 1 1700000001000000 (Returns 0) s
  = (true, [ClientPublish "foodyeh/order/ORD-1"
              (OrderPayload "ORD-1" "cola" 3 1 1700000001000000) 1;
            Log Info "Order published successfully"])
  ∧ published
      (publish_admin_command "reboot" None 1700000001000000 (Returns 0) s).2
    = [("foodyeh/admin/reboot",
        AdminPayload "reboot" (JObject []) 1700000001000000, 2)].
Proof. split; reflexivity. Qed.

End MQTTFacts.

(** ** More facts about the limiter *)

Module QuotaFacts.
Import Redis RedisFacts RateLimiter RateLimiterFacts Quota.
Local Open Scope py_scope.

Local Abbreviation chars := list_ascii_of_string.

Lemma chars_app a b : chars (a +:+ b) = chars a ++ chars b.
Proof. induction a as [|c a IH]; simpl; [done|]. by rewrite IH. Qed.

Lemma chars_inj a b : chars a = chars b → a = b.
Proof.
  intros H. rewrite <- (string_of_list_ascii_of_string a),
    <- (string_of_list_ascii_of_string b). by rewrite H.
Qed.

(** The key determines the scope, the identity and the window it was
    formed from. *)
Lemma generate_key_inj p1 i1 w1 p2 i2 w2 :
  scope p1 → scope p2 → window w1 → window w2 →
  _generate_key p1 i1 w1 = _generate_key p2 i2 w2 →
  p1 = p2 ∧ i1 = i2 ∧ w1 = w2.
Proof.
  unfold _generate_key.
  intros [-> | ->] [-> | ->] [-> | ->] [-> | ->] H;
    apply (f_equal chars) in H; rewrite !chars_app in H; simpl in H;
    try discriminate H; injection H as H;
    first [ apply app_inv_tail, chars_inj in H; by subst
          | apply (f_equal last) in H; rewrite !last_app in H; simpl in H;
            discriminate H ].
Qed.

(** The keys of distinct (scope, identity, window) triples are distinct,
    and a check of one key leaves what is stored under every other key as
    it was: no identity, scope or window ever counts against another. *)
Theorem identities_do_not_share_counters p1 i1 w1 p2 i2 w2 limit W w d :
  scope p1 → scope p2 → window w1 → window w2 →
  (p1, i1, w1) ≠ (p2, i2, w2) →
  redis w = Some d → 0 < W →
  _generate_key p1 i1 w1 ≠ _generate_key p2 i2 w2
  ∧ ∃ d', redis (_is_rate_limited (_generate_key p1 i1 w1) limit W w).2 = Some d'
          ∧ d' !! _generate_key p2 i2 w2 = d !! _generate_key p2 i2 w2.
Proof.
  intros Hp1 Hp2 Hw1 Hw2 Hne Hd HW.
  assert (Hkeys : _generate_key p1 i1 w1 ≠ _generate_key p2 i2 w2).
  { intros E. apply generate_key_inj in E as (-> & -> & ->); done. }
  split; [done|].
  rewrite (is_rate_limited_run _ _ _ _ _ Hd HW). cbn [snd redis store].
  eexists. split; [reflexivity|]. by rewrite lookup_insert_ne.
Qed.

Lemma identities_do_not_share_counters_witness :
  _generate_key "ip" "1.2.3.4" "minute" ≠ _generate_key "ip" "1.2.3.40" "minute".
Proof.
  refine (proj1 (identities_do_not_share_counters
    "ip" "1.2.3.4" "minute" "ip" "1.2.3.40" "minute" 3 60
    (mkWorld (Connected ∅) (λ _, 1700000000) 0 []) ∅ _ _ _ _ _ eq_refl _)).
  - by left.
  - by left.
  - by left.
  - by left.
  - discriminate.
  - lia.
Defined.

(** The third component of a check's answer, the seconds until reset, lies
    between 1 and the window length, and counts up to the next multiple of
    the window length on the clock. *)
Theorem reset_points_at_the_window_boundary key limit W w d :
  redis w = Some d → 0 < W →
  ∃ is_limited count remaining w',
    _is_rate_limited key limit W w = (Ok (is_limited, count, remaining), w')
    ∧ 1 ≤ remaining ≤ W
    ∧ (clock w (reads w) + remaining) `mod` W = 0
    ∧ clock w (reads w) + remaining = window_start (clock w (reads w)) W + W.
Proof.
  intros Hd HW. rewrite (is_rate_limited_run _ _ _ _ _ Hd HW). cbv zeta.
  eexists _, _, _, _. split; [reflexivity|].
  pose proof (Z.mod_pos_bound (clock w (reads w)) W HW) as Hb.
  split; [lia|]. unfold window_start. split; [|lia].
  replace (clock w (reads w) + (W - clock w (reads w) `mod` W))
    with (clock w (reads w) - clock w (reads w) `mod` W + 1 * W) by lia.
  rewrite Z.mod_add by lia.
  rewrite Zminus_mod, Z.mod_mod, Z.sub_diag by lia. apply Z.mod_0_l. lia.
Qed.

Lemma reset_points_at_the_window_boundary_witness :
  ∃ r w', _is_rate_limited "rate_limit:ip:1.2.3.4:hour" 1000 3600
            (mkWorld (Connected ∅) (λ _, 1700000000) 0 []) = (Ok r, w')
          ∧ 1 ≤ r.2 ≤ 3600.
Proof.
  destruct (reset_points_at_the_window_boundary "rate_limit:ip:1.2.3.4:hour"
    1000 3600 (mkWorld (Connected ∅) (λ _, 1700000000) 0 []) ∅ eq_refl ltac:(lia))
    as (l & c & r & w' & E & Hr & _).
  exists (l, c, r), w'. split; [exact E|exact Hr].
Defined.

(** *** How high the count can get *)

(** A set of events keyed by their time stamps holds at most one event for
    each second of the range the stamps lie in. *)
Lemma size_of_stamped lo hi (m : gmap string Z) :
  (∀ member score, m !! member = Some score →
                   member = pretty score ∧ lo ≤ score ≤ hi) →
  Z.of_nat (size m) ≤ Z.max 0 (hi - lo + 1).
Proof.
  intros H.
  assert (Hsub : dom m ⊆@{gset string}
                 list_to_set (pretty <$> seqZ lo (hi - lo + 1))).
  { intros member [score Hm]%elem_of_dom.
    destruct (H _ _ Hm) as [-> Hrange].
    apply elem_of_list_to_set, list_elem_of_fmap. exists score.
    split; [done|]. apply elem_of_seqZ. lia. }
  apply subseteq_size in Hsub.
  rewrite size_dom, size_list_to_set in Hsub.
  - rewrite length_fmap, length_seqZ in Hsub. lia.
  - apply NoDup_fmap_2; [apply _|apply NoDup_seqZ].
Qed.

Lemma checked_events_entries now W key d member score :
  0 < W → 0 ≤ now → stamped now (events now key d) →
  checked_events now W key d !! member = Some score →
  member = pretty score ∧ window_start now W ≤ score ≤ now.
Proof.
  intros HW Hnow Hst. unfold checked_events, outside.
  rewrite lookup_insert. case_decide as Hm.
  - intros [= <-]. split; [done|]. pose proof (window_start_le now W HW). lia.
  - rewrite map_lookup_filter_Some. unfold in_range. simpl.
    intros [Hs Hout]. destruct (Hst _ _ Hs) as [-> Hr]. split; [done|lia].
Qed.

Lemma checked_events_size now W key d :
  0 < W → 0 ≤ now → stamped now (events now key d) →
  1 ≤ Z.of_nat (size (checked_events now W key d)) ≤ now `mod` W + 1.
Proof.
  intros HW Hnow Hst. split.
  - assert (size (checked_events now W key d) ≠ 0%nat); [|lia].
    apply map_size_non_empty_iff. unfold checked_events.
    apply insert_non_empty.
  - pose proof (size_of_stamped (window_start now W) now
      (checked_events now W key d)) as Hb.
    pose proof (Z.mod_pos_bound now W HW).
    unfold window_start in Hb.
    etrans; [apply Hb|].
    + intros member score Hm.
      by apply (checked_events_entries now W key d).
    + lia.
Qed.

Lemma checked_events_stay_stamped now W key d later :
  0 < W → 0 ≤ now → now ≤ later → stamped now (events now key d) →
  stamped later
    (events later key
       (<[key := ZSet (checked_events now W key d) (Some (now + W))]> d)).
Proof.
  intros HW Hnow Hlater Hst member score. unfold events, get.
  rewrite lookup_insert_eq. unfold live. simpl.
  case_bool_decide; [|by rewrite lookup_empty].
  intros Hm.
  destruct (checked_events_entries _ _ _ _ _ _ HW Hnow Hst Hm) as [-> Hr].
  split; [done|]. unfold window_start in Hr.
  pose proof (Z.mod_le now W Hnow HW). lia.
Qed.

(** On a key whose events the limiter itself wrote, the count a check
    reports is at least 1 and at most the number of seconds of the current
    window that have begun: so it is 1 in the first second of every window,
    never exceeds the window length, and a limit of at least the window
    length never denies.  The events remain the limiter's own. *)
Theorem count_is_bounded_by_the_seconds_of_the_window key limit W w d :
  redis w = Some d → 0 < W → 0 ≤ clock w (reads w) →
  stamped (clock w (reads w)) (events (clock w (reads w)) key d) →
  let now := clock w (reads w) in
  ∃ is_limited count remaining w' d',
    _is_rate_limited key limit W w = (Ok (is_limited, count, remaining), w')
    ∧ redis w' = Some d'
    ∧ 1 ≤ count ≤ now `mod` W + 1
    ∧ count ≤ W
    ∧ (now `mod` W = 0 → count = 1)
    ∧ (W ≤ limit → is_limited = false)
    ∧ (∀ later, now ≤ later → stamped later (events later key d')).
Proof.
  intros Hd HW Hnow Hst now.
  rewrite (is_rate_limited_run _ _ _ _ _ Hd HW). fold now. cbv zeta.
  pose proof (checked_events_size now W key d HW Hnow Hst) as Hsize.
  pose proof (Z.mod_pos_bound now W HW) as Hmod.
  eexists _, _, _, _, _. split; [reflexivity|]. cbn [redis store].
  split; [reflexivity|]. split; [done|]. split; [lia|]. split; [lia|].
  split.
  - intros HL. apply bool_decide_eq_false. lia.
  - intros later Hlater. by apply checked_events_stay_stamped.
Qed.

Lemma count_is_bounded_by_the_seconds_of_the_window_witness :
  ∃ r w', _is_rate_limited "rate_limit:ip:1.2.3.4:minute" 60 60
            (mkWorld
               (Connected {[ "rate_limit:ip:1.2.3.4:minute" :=
                          ZSet {[ "1699999999" := 1699999999 ]} (Some 1700000059) ]})
               (λ _, 1700000040) 0 []) = (Ok r, w')
          ∧ r.1.2 = 1.
Proof.
  destruct (count_is_bounded_by_the_seconds_of_the_window
    "rate_limit:ip:1.2.3.4:minute" 60 60
    (mkWorld
       (Connected {[ "rate_limit:ip:1.2.3.4:minute" :=
                  ZSet {[ "1699999999" := 1699999999 ]} (Some 1700000059) ]})
       (λ _, 1700000040) 0 []) _ eq_refl ltac:(lia) ltac:(simpl; lia))
    as (l & c & r & w' & d' & E & _ & _ & _ & Hfirst & _).
  - intros member score. unfold events, get. rewrite lookup_singleton_eq.
    simpl. intros [[= <-] <-]%lookup_singleton_Some. split; [done|lia].
  - exists (l, c, r), w'. split; [exact E|]. apply Hfirst. reflexivity.
Defined.

(** A run of checks of one key, on a clock that does not run backwards,
    starting from a key that holds nothing but events the limiter wrote:
    if the limit is at least the window length in seconds, as with the
    default of 60 per minute, no check of the run is ever denied, however
    many requests arrive. *)
Theorem limit_of_window_length_never_denies n : ∀ key limit W w d,
  redis w = Some d → 0 < W → W ≤ limit →
  (∀ i, 0 ≤ clock w i ≤ clock w (S i)) →
  stamped (clock w (reads w)) (events (clock w (reads w)) key d) →
  ∃ answers,
    (check_all (replicate n (key, limit, W)) w).1 = Ok answers
    ∧ length answers = n
    ∧ Forall (λ a : bool * Z * Z, a.1.1 = false ∧ 1 ≤ a.1.2 ≤ W) answers.
Proof.
  induction n as [|n IH]; intros key limit W w d Hd HW HL Hclk Hst.
  - exists []. by repeat split.
  - simpl replicate. rewrite check_all_cons.
    rewrite (is_rate_limited_run _ _ _ _ _ Hd HW). cbv zeta.
    destruct (Hclk (reads w)) as [Hnow Hnext].
    pose proof (checked_events_size _ W key d HW Hnow Hst) as Hsize.
    pose proof (Z.mod_pos_bound (clock w (reads w)) W HW) as Hmod.
    match goal with |- context [check_all _ ?w1] =>
      destruct (IH key limit W w1 _ eq_refl HW HL Hclk) as (rs & E & Hlen & Hall)
    end.
    { cbn [clock reads]. by apply checked_events_stay_stamped. }
    match goal with |- context [check_all _ ?w1] =>
      destruct (check_all (replicate n (key, limit, W)) w1) as [r w2]
    end.
    simpl in E. subst r. eexists. split; [reflexivity|].
    split; [simpl; by rewrite Hlen|].
    constructor; [|done]. simpl. split; [|lia].
    apply bool_decide_eq_false. lia.
Qed.

Lemma limit_of_window_length_never_denies_witness :
  ∃ answers,
    (check_all (replicate 100 ("rate_limit:ip:1.2.3.4:minute", 60, 60))
       (mkWorld (Connected ∅) (λ i, 1700000000 + Z.of_nat (i / 4)) 0 [])).1
    = Ok answers
    ∧ length answers = 100%nat.
Proof.
  destruct (limit_of_window_length_never_denies 100
    "rate_limit:ip:1.2.3.4:minute" 60 60
    (mkWorld (Connected ∅) (λ i, 1700000000 + Z.of_nat (i / 4)) 0 []) ∅
    eq_refl ltac:(lia) ltac:(lia)) as (rs & E & Hlen & _).
  - intros i. cbn [clock]. split; [lia|].
    assert (i / 4 ≤ S i / 4)%nat by (apply Nat.Div0.div_le_mono; lia). lia.
  - intros member score. unfold events, get. by rewrite lookup_empty.
  - exists rs. by split.
Defined.

(** *** What a denial carries *)

Lemma is_rate_limited_answer key limit W w d :
  redis w = Some d → 0 < W →
  ∃ l c r w1 d1,
    _is_rate_limited key limit W w = (Ok (l, c, r), w1)
    ∧ redis w1 = Some d1
    ∧ (l = true → limit < c)
    ∧ 1 ≤ r ≤ W.
Proof.
  intros Hd HW. rewrite (is_rate_limited_run _ _ _ _ _ Hd HW). cbv zeta.
  pose proof (Z.mod_pos_bound (clock w (reads w)) W HW).
  eexists _, _, _, _, _. split; [reflexivity|]. cbn [redis store].
  split; [reflexivity|]. split; [|lia].
  by intros ?%bool_decide_eq_true.
Qed.

(** With the store in reach, [check_rate_limit] either returns or raises a
    429 whose detail is coherent: the count it reports exceeds the limit it
    reports, the limit is the effective one of the window it names (the
    argument, or the setting when the argument is missing or 0), the reset
    time lies within that window, and a token error only comes with a
    token.  It raises nothing else. *)
Theorem a_denial_is_coherent sha settings request
    limit_per_minute limit_per_hour w d :
  redis w = Some d →
  match (check_rate_limit sha settings request limit_per_minute limit_per_hour
           w).1 with
  | Ok _ => True
  | Raise e =>
      ∃ err lt lim cur reset,
        e = HTTPException 429 (mkDetail err lt lim cur reset)
        ∧ lim < cur
        ∧ 1 ≤ reset
        ∧ ((lt = "per_minute"
            ∧ lim = Py.or_default limit_per_minute (rate_limit_per_minute settings)
            ∧ reset ≤ 60)
           ∨ (lt = "per_hour"
              ∧ lim = Py.or_default limit_per_hour (rate_limit_per_hour settings)
              ∧ reset ≤ 3600))
        ∧ (err = "Rate limit exceeded"
           ∨ (err = "Token rate limit exceeded"
              ∧ Py.truthy_opt (_get_token_from_request request) = true))
  end.
Proof.
  intros Hd. unfold check_rate_limit, redis_available.
  unfold bind at 1. rewrite (proj1 (redis_Some _ _) Hd). cbn [negb].
  set (pm := Py.or_default limit_per_minute (rate_limit_per_minute settings)).
  set (ph := Py.or_default limit_per_hour (rate_limit_per_hour settings)).
  destruct (is_rate_limited_answer
    (_generate_key "ip" (_get_client_ip request) "minute") pm 60 w d Hd
    ltac:(lia)) as (l1 & c1 & m1 & w1 & d1 & E1 & Hd1 & L1 & R1).
  destruct (is_rate_limited_answer
    (_generate_key "ip" (_get_client_ip request) "hour") ph 3600 w1 d1 Hd1
    ltac:(lia)) as (l2 & c2 & m2 & w2 & d2 & E2 & Hd2 & L2 & R2).
  unfold bind at 1. rewrite E1. unfold bind at 1. rewrite E2.
  destruct l1.
  { simpl. eexists _, _, _, _, _. split; [reflexivity|].
    split; [by apply L1|]. split; [lia|]. split; [left; by repeat split; lia|].
    by left. }
  destruct l2.
  { simpl. eexists _, _, _, _, _. split; [reflexivity|].
    split; [by apply L2|]. split; [lia|]. split; [right; by repeat split; lia|].
    by left. }
  destruct (Py.truthy_opt (_get_token_from_request request)) eqn:Htok.
  - set (th := sha (default EmptyString (_get_token_from_request request))).
    destruct (is_rate_limited_answer (_generate_key "token" th "minute")
      pm 60 w2 d2 Hd2 ltac:(lia))
      as (l3 & c3 & m3 & w3 & d3 & E3 & Hd3 & L3 & R3).
    destruct (is_rate_limited_answer (_generate_key "token" th "hour")
      ph 3600 w3 d3 Hd3 ltac:(lia))
      as (l4 & c4 & m4 & w4 & d4 & E4 & Hd4 & L4 & R4).
    unfold bind. rewrite E3, E4.
    destruct l3.
    { simpl. eexists _, _, _, _, _. split; [reflexivity|].
      split; [by apply L3|]. split; [lia|].
      split; [left; by repeat split; lia|]. by right. }
    destruct l4.
    { simpl. eexists _, _, _, _, _. split; [reflexivity|].
      split; [by apply L4|]. split; [lia|].
      split; [right; by repeat split; lia|]. by right. }
    done.
  - done.
Qed.

Lemma a_denial_is_coherent_witness :
  ∃ err lt lim cur reset,
    (check_rate_limit (λ x, x) default_settings
       (mkRequest [] (Some ("9.9.9.9", 40000))) (Some 1) (Some 0)
       (mkWorld
          (Connected {[ "rate_limit:ip:9.9.9.9:minute" := ZSet {[ "60" := 60 ]} (Some 120) ]})
          (λ _, 61) 0 [])).1
    = Raise (HTTPException 429 (mkDetail err lt lim cur reset))
    ∧ lim < cur.
Proof.
  pose proof (a_denial_is_coherent (λ x, x) default_settings
    (mkRequest [] (Some ("9.9.9.9", 40000))) (Some 1) (Some 0)
    (mkWorld
       (Connected {[ "rate_limit:ip:9.9.9.9:minute" := ZSet {[ "60" := 60 ]} (Some 120) ]})
       (λ _, 61) 0 []) _ eq_refl) as H.
  destruct (check_rate_limit _ _ _ _ _ _).1 as [|e] eqn:E.
  - vm_compute in E. discriminate E.
  - destruct H as (err & lt & lim & cur & reset & -> & Hlt & _).
    exists err, lt, lim, cur, reset. split; [reflexivity|exact Hlt].
Defined.

(** *** The token of a request *)

Lemma prefix_app p s : String.prefix p s = true → ∃ r, s = p +:+ r.
Proof.
  revert s. induction p as [|a p IH]; intros s.
  - intros _. by exists s.
  - destruct s as [|b s]; simpl; [done|].
    destruct (ascii_dec a b) as [->|]; [|done].
    intros [r ->]%IH. by exists r.
Qed.

Lemma split_second first sep r :
  (first :: Py.split sep r) !! 1%nat = Some (Py.before sep r).
Proof.
  simpl. rewrite <- split_hd.
  destruct (Py.split sep r) eqn:E; [by destruct (split_nonempty sep r)|done].
Qed.

Lemma before_all sep s :
  sep ∉ list_ascii_of_string s → Py.before sep s = s.
Proof.
  induction s as [|c s IH]; simpl; [done|].
  rewrite not_elem_of_cons. intros [Hc Hs].
  destruct (Ascii.eqb_spec c sep) as [->|]; [done|]. by rewrite IH.
Qed.

Lemma get_token_bearer request r :
  headers_get "Authorization" request = Some ("Bearer " +:+ r) →
  _get_token_from_request request = Some (Py.before " " r).
Proof.
  intros H. unfold _get_token_from_request. rewrite H.
  change ("Bearer " +:+ r) with
    (String "B" (String "e" (String "a" (String "r" (String "e" (String "r"
       (String " " r))))))).
  cbn [Py.truthy andb String.prefix]. repeat (destruct (ascii_dec _ _); [|done]).
  replace (String.prefix EmptyString r) with true by (by destruct r).
  cbn [Py.split Ascii.eqb Bool.eqb]. apply split_second.
Qed.

(** [_get_token_from_request] yields a token only from an [Authorization]
    header that begins with ["Bearer "] (in exactly this spelling); the
    token is what stands between that prefix and the next blank, so it holds
    no blank itself, and a header ["Bearer " + t] with a blank-free [t]
    yields [t].  A header of just ["Bearer "] yields the empty token, which
    is falsy. *)
Theorem the_token_is_the_word_after_bearer request :
  (∀ t, _get_token_from_request request = Some t →
        (" "%char ∉ list_ascii_of_string t)
        ∧ (∃ rest, headers_get "Authorization" request
                   = Some ("Bearer " +:+ t +:+ rest)
                   ∧ (rest = EmptyString ∨ ∃ r, rest = String " " r)))
  ∧ (∀ t, headers_get "Authorization" request = Some ("Bearer " +:+ t) →
          " "%char ∉ list_ascii_of_string t →
          _get_token_from_request request = Some t)
  ∧ (headers_get "Authorization" request = Some "Bearer " →
     Py.truthy_opt (_get_token_from_request request) = false)
  ∧ (headers_get "Authorization" request = None →
     _get_token_from_request request = None).
Proof.
  split; [|split; [|split]].
  - intros t Ht. unfold _get_token_from_request in Ht.
    destruct (headers_get "Authorization" request) as [h|] eqn:Hh; [|done].
    destruct (Py.truthy h && String.prefix "Bearer " h) eqn:Hb; [|done].
    apply andb_prop in Hb as [_ [r ->]%prefix_app].
    pose proof (get_token_bearer request r Hh) as Hg.
    unfold _get_token_from_request in Hg. rewrite Hh in Hg.
    assert (Hb' : Py.truthy ("Bearer " +:+ r)
                  && String.prefix "Bearer " ("Bearer " +:+ r) = true).
    { simpl. repeat (destruct (ascii_dec _ _); [|done]). by destruct r. }
    rewrite Hb' in Hg. rewrite Hg in Ht. injection Ht as <-.
    destruct (PyFacts.before_cut " " r) as [Hno (rest & Hr & Hrest)].
    split; [done|]. exists rest. split; [|done].
    by rewrite <- Hr.
  - intros t Hh Hno. rewrite (get_token_bearer _ _ Hh).
    by rewrite before_all.
  - intros Hh. by rewrite (get_token_bearer request EmptyString Hh).
  - intros Hh. unfold _get_token_from_request. by rewrite Hh.
Qed.

Lemma the_token_is_the_word_after_bearer_witness :
  _get_token_from_request
    (mkRequest [("authorization", "Bearer abc.def.ghi")] None)
  = Some "abc.def.ghi".
Proof.
  refine (proj1 (proj2 (the_token_is_the_word_after_bearer
    (mkRequest [("authorization", "Bearer abc.def.ghi")] None)))
    "abc.def.ghi" eq_refl _).
  vm_compute. intros H. repeat (apply elem_of_cons in H as [H|H]; [discriminate H|]).
  by apply elem_of_nil in H.
Defined.

(** Other spellings of the scheme are not a bearer token for the limiter. *)
Example lower_case_scheme_is_no_token :
  _get_token_from_request (mkRequest [("authorization", "bearer abc")] None)
  = None.
Proof. reflexivity. Qed.

(** *** Reading the counters *)

Lemma zcard_reply now key d :
  (Redis.zcard now key d).2 = Z.of_nat (size (events now key d)).
Proof. unfold Redis.zcard, events. by destruct (get now key d). Qed.

(** [ZCARD] changes nothing a later reader could see: at most it drops a
    key whose expiry has passed. *)
Lemma zcard_keeps_events now key d k later :
  now ≤ later → events later k (Redis.zcard now key d).1 = events later k d.
Proof.
  intros Hlater. unfold Redis.zcard.
  destruct (get now key d) as [v|] eqn:Hget; [done|]. cbn [fst].
  unfold events, get. destruct (decide (k = key)) as [->|Hne].
  - rewrite lookup_delete_eq. unfold get in Hget.
    destruct (d !! key) as [v|]; [|done].
    destruct (live now v) eqn:Hl; [done|].
    replace (live later v) with false; [done|].
    unfold live in *. destruct (expire_at v) as [t|]; [|done].
    apply bool_decide_eq_false in Hl. symmetry. apply bool_decide_eq_false. lia.
  - by rewrite lookup_delete_ne.
Qed.

Lemma redis_zcard_run key w d :
  redis w = Some d →
  redis_zcard key w
  = (Ok (Z.of_nat (size (events (clock w (reads w)) key d))),
     mkWorld (Connected (Redis.zcard (clock w (reads w)) key d).1)
       (clock w) (reads w) (journal w ++ [RedisExecute [ZCARD key]])).
Proof.
  intros Hd. unfold redis_zcard. rewrite (proj1 (redis_Some _ _) Hd).
  rewrite <- zcard_reply. by destruct (Redis.zcard _ key d).
Qed.

(** What [redis_zcard] leaves of a world: the clock, the reads, the keys
    that were checked, and everything a reader of the store can see from
    now on. *)
Lemma redis_zcard_keeps key w d now c n j :
  redis w = Some d → clock w = c → reads w = n → c n = now →
  checked_keys (journal w) = j →
  ∃ w1 d1,
    redis_zcard key w = (Ok (Z.of_nat (size (events now key d))), w1)
    ∧ redis w1 = Some d1 ∧ clock w1 = c ∧ reads w1 = n
    ∧ checked_keys (journal w1) = j
    ∧ ∀ k later, now ≤ later → events later k d1 = events later k d.
Proof.
  intros Hd <- <- <- <-. rewrite (redis_zcard_run _ _ _ Hd).
  eexists _, _. split; [reflexivity|].
  cbn [redis store clock reads journal]. split; [reflexivity|].
  split; [done|]. split; [done|]. split.
  - unfold checked_keys. rewrite omap_app. simpl. by rewrite app_nil_r.
  - intros k later Hl. by apply zcard_keeps_events.
Qed.

Lemma get_rate_limit_info_run sha settings request w d :
  redis w = Some d →
  let now := clock w (reads w) in
  let held key := Z.of_nat (size (events now key d)) in
  let ip := _get_client_ip request in
  let token := _get_token_from_request request in
  let hash := sha (default EmptyString token) in
  ∃ ip_counts token_counts w' d',
    get_rate_limit_info sha settings request w
    = (Ok (Info ip
             (mkCounts (rate_limit_per_minute settings)
                (rate_limit_per_hour settings))
             ip_counts token_counts), w')
    ∧ ip_counts = mkCounts (held (_generate_key "ip" ip "minute"))
                    (held (_generate_key "ip" ip "hour"))
    ∧ token_counts
      = (if Py.truthy_opt token
         then Some (mkCounts (held (_generate_key "token" hash "minute"))
                      (held (_generate_key "token" hash "hour")))
         else None)
    ∧ redis w' = Some d'
    ∧ clock w' = clock w ∧ reads w' = reads w
    ∧ checked_keys (journal w') = checked_keys (journal w)
    ∧ ∀ k later, now ≤ later → events later k d' = events later k d.
Proof.
  intros Hd now held ip token hash.
  unfold get_rate_limit_info, redis_available.
  unfold bind at 1. rewrite (proj1 (redis_Some _ _) Hd). cbn [negb].
  fold ip token.
  destruct (redis_zcard_keeps (_generate_key "ip" ip "minute") w d now
              _ _ _ Hd eq_refl eq_refl eq_refl eq_refl)
    as (w1 & d1 & E1 & Hd1 & C1 & R1 & K1 & F1).
  destruct (redis_zcard_keeps (_generate_key "ip" ip "hour") w1 d1 now
              _ _ _ Hd1 C1 R1 eq_refl K1)
    as (w2 & d2 & E2 & Hd2 & C2 & R2 & K2 & F2).
  unfold bind at 1. rewrite E1. unfold bind at 1. rewrite E2.
  assert (Hnow : now ≤ now) by lia.
  destruct (Py.truthy_opt token) eqn:Htok.
  - fold hash.
    destruct (redis_zcard_keeps (_generate_key "token" hash "minute") w2 d2 now
                _ _ _ Hd2 C2 R2 eq_refl K2)
      as (w3 & d3 & E3 & Hd3 & C3 & R3 & K3 & F3).
    destruct (redis_zcard_keeps (_generate_key "token" hash "hour") w3 d3 now
                _ _ _ Hd3 C3 R3 eq_refl K3)
      as (w4 & d4 & E4 & Hd4 & C4 & R4 & K4 & F4).
    unfold bind. rewrite E3, E4.
    eexists _, _, _, _. split; [reflexivity|]. unfold held.
    split; [by rewrite (F1 _ now Hnow)|]. split.
    { by rewrite (F2 _ now Hnow), (F1 _ now Hnow), (F3 _ now Hnow),
        (F2 _ now Hnow), (F1 _ now Hnow). }
    split; [done|]. split; [done|]. split; [done|]. split; [done|].
    intros k later Hl. by rewrite F4, F3, F2, F1.
  - eexists _, _, _, _. split; [reflexivity|]. unfold held.
    split; [by rewrite (F1 _ now Hnow)|]. split; [done|].
    split; [done|]. split; [done|]. split; [done|]. split; [done|].
    intros k later Hl. by rewrite F2, F1.
Qed.

(** With the store in reach, [get_rate_limit_info] reports, for the
    request's identity, the number of events each of its keys holds at that
    moment, and the token counts exactly when the request carries a token.
    It does not read the clock, it checks no key, and it leaves every key
    with the events it had: asking for the counters uses up no quota. *)
Theorem reading_the_counters_counts_nothing sha settings request w d :
  redis w = Some d →
  let now := clock w (reads w) in
  let held key := Z.of_nat (size (events now key d)) in
  let ip := _get_client_ip request in
  let token := _get_token_from_request request in
  let hash := sha (default EmptyString token) in
  ∃ ip_counts token_counts w' d',
    get_rate_limit_info sha settings request w
    = (Ok (Info ip
             (mkCounts (rate_limit_per_minute settings)
                (rate_limit_per_hour settings))
             ip_counts token_counts), w')
    ∧ ip_counts = mkCounts (held (_generate_key "ip" ip "minute"))
                    (held (_generate_key "ip" ip "hour"))
    ∧ token_counts
      = (if Py.truthy_opt token
         then Some (mkCounts (held (_generate_key "token" hash "minute"))
                      (held (_generate_key "token" hash "hour")))
         else None)
    ∧ redis w' = Some d'
    ∧ clock w' = clock w ∧ reads w' = reads w
    ∧ checked_keys (journal w') = checked_keys (journal w)
    ∧ ∀ k later, now ≤ later → events later k d' = events later k d.
Proof. apply get_rate_limit_info_run. Qed.


Lemma reading_the_counters_counts_nothing_witness :
  ∃ w',
    get_rate_limit_info (λ x, x) default_settings
      (mkRequest [] (Some ("9.9.9.9", 40000)))
      (mkWorld
         (Connected {[ "rate_limit:ip:9.9.9.9:minute" :=
                    ZSet {[ "60" := 60; "61" := 61 ]} (Some 121) ]})
         (λ _, 62) 0 [])
    = (Ok (Info "9.9.9.9" (mkCounts 60 1000) (mkCounts 2 0) None), w').
Proof.
  destruct (reading_the_counters_counts_nothing (λ x, x) default_settings
    (mkRequest [] (Some ("9.9.9.9", 40000)))
    (mkWorld
       (Connected {[ "rate_limit:ip:9.9.9.9:minute" :=
                  ZSet {[ "60" := 60; "61" := 61 ]} (Some 121) ]})
       (λ _, 62) 0 []) _ eq_refl)
    as (ipc & tc & w' & d' & E & -> & -> & _).
  exists w'. exact E.
Defined.

(** A check followed by a look at the counters, within the same minute:
    the per-minute count shown for the request's IP is the count the check
    compared with the limit. *)
Theorem the_counters_show_the_last_check sha settings request limit w d :
  redis w = Some d →
  clock w (reads w) ≤ clock w (S (reads w)) < clock w (reads w) + 60 →
  let ip := _get_client_ip request in
  ∃ is_limited count remaining w1 limits hour token_counts w2,
    _is_rate_limited (_generate_key "ip" ip "minute") limit 60 w
    = (Ok (is_limited, count, remaining), w1)
    ∧ get_rate_limit_info sha settings request w1
      = (Ok (Info ip limits (mkCounts count hour) token_counts), w2).
Proof.
  intros Hd Hlater ip.
  assert (HW : 0 < 60) by lia.
  pose proof (is_rate_limited_run (_generate_key "ip" ip "minute") limit 60
                w d Hd HW) as E1.
  cbv zeta in E1.
  match type of E1 with _ = (_, ?w1) =>
    destruct (get_rate_limit_info_run sha settings request w1 _ eq_refl)
      as (ipc & tc & w2 & d2 & E2 & -> & _)
  end.
  eexists _, _, _, _, _, _, _, _. split; [exact E1|]. rewrite E2.
  cbn [clock reads]. fold ip. do 4 f_equal.
  unfold events, get. rewrite lookup_insert_eq. unfold live.
  cbn [expire_at members].
  by rewrite bool_decide_eq_true_2 by lia.
Qed.

Lemma the_counters_show_the_last_check_witness :
  ∃ r w1 limits hour token_counts w2,
    _is_rate_limited "rate_limit:ip:9.9.9.9:minute" 60 60
      (mkWorld (Connected ∅) (λ i, 1700000000 + Z.of_nat i) 0 []) = (Ok r, w1)
    ∧ get_rate_limit_info (λ x, x) default_settings
        (mkRequest [] (Some ("9.9.9.9", 40000))) w1
      = (Ok (Info "9.9.9.9" limits (mkCounts r.1.2 hour) token_counts), w2).
Proof.
  destruct (the_counters_show_the_last_check (λ x, x) default_settings
    (mkRequest [] (Some ("9.9.9.9", 40000))) 60
    (mkWorld (Connected ∅) (λ i, 1700000000 + Z.of_nat i) 0 []) ∅ eq_refl)
    as (l & c & r & w1 & limits & hour & tc & w2 & E1 & E2).
  - cbn [clock reads]. lia.
  - exists (l, c, r), w1, limits, hour, tc, w2. split; [exact E1|exact E2].
Defined.

End QuotaFacts.

(** ** More facts about the command channel *)

Module ChannelFacts.
Import Channel MQTT MQTTFacts.

Section Channel.

Variable settings : Settings.
Variable decode_utf8 : string → option string.
Variable json_loads : string → option json.
Variable isoformat : Z → string.

Local Abbreviation step := (MQTT.step settings decode_utf8 json_loads).
Local Abbreviation run := (MQTT.run settings decode_utf8 json_loads).
Local Abbreviation reachable := (MQTT.reachable settings decode_utf8 json_loads).
Local Abbreviation invoke := (MQTT.invoke settings).
Local Abbreviation perform := (MQTT.perform settings).
Local Abbreviation _on_message :=
  (MQTT._on_message settings decode_utf8 json_loads).

(** *** Connecting *)

(** An accepted connection ([rc = 0]) subscribes to the four topics, in
    order and with their QoS, whatever the client answers to each
    subscription: one that fails does not keep the others from being asked
    for.  A refused connection ([rc] other than 0) subscribes to nothing,
    leaves the service unconnected and the attempt count as it was, and is
    not retried. *)
Theorem a_connection_subscribes_to_every_topic rc utcnow sub s c :
  client s = Some c →
  (rc = 0 →
     subscribed (_on_connect rc utcnow sub s).2
     = [ ("foodyeh/status", 1); ("foodyeh/order/+/response", 1);
         ("foodyeh/error", 1); ("foodyeh/heartbeat", 0) ]
     ∧ is_connected (_on_connect rc utcnow sub s).1 = true
     ∧ last_connection_time (_on_connect rc utcnow sub s).1 = Some utcnow)
  ∧ (rc ≠ 0 →
     subscribed (_on_connect rc utcnow sub s).2 = []
     ∧ is_connected (_on_connect rc utcnow sub s).1 = false
     ∧ connection_attempts (_on_connect rc utcnow sub s).1
       = connection_attempts s
     ∧ retry_delays (_on_connect rc utcnow sub s).2 = []
     ∧ connect_calls (_on_connect rc utcnow sub s).2 = []).
Proof.
  intros Hc. unfold _on_connect. split.
  - intros ->. rewrite bool_decide_eq_true_2 by done. cbn [fst snd].
    split; [|done]. unfold _subscribe_to_topics. cbn [client set_is_connected
      set_connection_attempts set_last_connection_time]. rewrite Hc.
    unfold subscriptions. cbn [flat_map].
    destruct (sub "foodyeh/status"), (sub "foodyeh/order/+/response"),
      (sub "foodyeh/error"), (sub "foodyeh/heartbeat");
      repeat case_bool_decide; reflexivity.
  - intros Hrc. by rewrite bool_decide_eq_false_2.
Qed.

(** *** Handlers *)

Local Ltac case_option h :=
  match goal with
  | |- context [match ?x with Some _ => _ | None => _ end] =>
      destruct x as [h|]
  end.

Lemma handled_app a b : handled (a ++ b) = handled a ++ handled b.
Proof. apply omap_app. Qed.

(** The methods of the service call no handler. *)
Lemma perform_handled calls : ∀ s, handled (perform calls s).2 = [].
Proof.
  induction calls as [|c rest IH]; intros s; [done|].
  rewrite perform_cons. cbn [snd]. rewrite handled_app, IH, app_nil_r.
  destruct c; cbn [MQTT.invoke fst snd];
    unfold MQTT.connect, disconnect, publish_order, publish_admin_command,
      send, register_message_handler, is_healthy;
    by repeat case_match.
Qed.

(** What the methods of the service do and say depends on the client, the
    connection flag and the time of the last message, not on the handlers
    that are registered. *)
Lemma perform_alike calls : ∀ s1 s2,
  client s1 = client s2 → is_connected s1 = is_connected s2 →
  last_message_time s1 = last_message_time s2 →
  (perform calls s1).2 = (perform calls s2).2.
Proof.
  induction calls as [|c rest IH]; intros s1 s2 Hc Hi Hl; [done|].
  rewrite !perform_cons. cbn [snd].
  assert ((invoke c s1).2 = (invoke c s2).2
          ∧ client (invoke c s1).1 = client (invoke c s2).1
          ∧ is_connected (invoke c s1).1 = is_connected (invoke c s2).1
          ∧ last_message_time (invoke c s1).1
            = last_message_time (invoke c s2).1) as (-> & H1 & H2 & H3).
  { destruct c; cbn [MQTT.invoke fst snd];
      unfold MQTT.connect, disconnect, publish_order, publish_admin_command,
        send, register_message_handler, is_healthy;
      rewrite <- ?Hc, <- ?Hi, <- ?Hl; repeat case_match; simpl;
      repeat split; first [done|congruence]. }
  f_equal. by apply IH.
Qed.

(** Dispatch is by the exact topic.  Once a handler is registered for a
    topic, a message on that topic whose payload decodes is handed to it,
    and to it alone: the callback logs the message, calls the handler,
    which makes its calls, and logs the handler's [Exception] or lets
    another exception of the handler pass; a message on any other topic is
    treated as before the registration; registering again for the same
    topic replaces the handler. *)
Theorem dispatch_is_by_exact_topic registered h s msg utcnow text data :
  decode_utf8 (payload msg) = Some text → json_loads text = Some data →
  let s' := (register_message_handler registered h s).1 in
  (topic msg = registered →
     (_on_message msg utcnow s').2
     = [Log Debug "Received MQTT message"; HandlerCall registered data]
         ++ (perform (h data).1 (set_last_message_time utcnow s')).2
         ++ match (h data).2 with
            | Returned => []
            | Raised _ =>
                [Log Error ("Error in message handler for topic "
                            +:+ registered)]
            | Exited what => [Propagates what]
            end
     ∧ handled (_on_message msg utcnow s').2 = [(registered, data)])
  ∧ (topic msg ≠ registered →
     (_on_message msg utcnow s').2 = (_on_message msg utcnow s).2)
  ∧ (∀ h0, message_handlers
             (register_message_handler registered h
                (register_message_handler registered h0 s).1).1
           = message_handlers s').
Proof.
  intros Hdec Hjson s'. subst s'.
  rewrite !on_message_run. cbv zeta. rewrite Hdec, Hjson.
  unfold register_message_handler.
  cbn [fst message_handlers set_last_message_time set_message_handlers].
  unfold handler in *.
  split; [|split].
  - intros ->. rewrite lookup_insert_eq. cbn [snd].
    split; [reflexivity|].
    rewrite !handled_app, perform_handled. by destruct (h data).2.
  - intros Hne. rewrite lookup_insert_ne by done.
    case_option h'; [|done].
    cbn [snd]. do 2 f_equal. by apply perform_alike.
  - intros h0. by rewrite insert_insert_eq.
Qed.

(** *** Health *)

(** A method of the service that hangs up nothing leaves the connection
    flag as it is. *)
Lemma perform_connected calls : ∀ s,
  Forall (λ e, hangs_up e = false) (perform calls s).2 →
  is_connected (perform calls s).1 = is_connected s.
Proof.
  induction calls as [|c rest IH]; intros s; [done|].
  rewrite perform_cons. cbn [fst snd]. intros [H1 H2]%Forall_app.
  rewrite IH by done. clear IH H2.
  destruct c; cbn [MQTT.invoke fst snd] in *; try done.
  unfold disconnect in *.
  destruct (client s); [|done].
  destruct (is_connected s) eqn:Hi; [|by simpl].
  destruct stop, disc; simpl; try done.
  by apply Forall_cons in H1 as [? _].
Qed.

(** Any inbound message, whether its payload decodes or not, counts as a
    sign of life: the time of the last message is that of its arrival, and
    a connected service, unless the handler of the message hangs up, is
    healthy for the 300 seconds that follow it and unhealthy after them,
    until the next message. *)
Theorem any_message_is_a_sign_of_life msg received now s :
  is_connected s = true →
  Forall (λ e, hangs_up e = false) (_on_message msg received s).2 →
  last_message_time (_on_message msg received s).1 = Some received
  ∧ (now - received ≤ 300 * 1000000 →
     (is_healthy now (_on_message msg received s).1).1 = true)
  ∧ (300 * 1000000 < now - received →
     (is_healthy now (_on_message msg received s).1).1 = false).
Proof.
  intros Hc Hquiet.
  destruct (on_message_frame settings decode_utf8 json_loads msg received s)
    as (_ & _ & _ & _ & _ & Hl & _ & _).
  assert (is_connected (_on_message msg received s).1 = true) as Hc'.
  { revert Hquiet. rewrite on_message_run. cbv zeta.
    destruct (decode_utf8 (payload msg)) as [text|]; [|done].
    destruct (json_loads text) as [data|]; [|done].
    case_option h; [|done].
    cbn [fst snd]. intros [_ [H _]%Forall_app]%Forall_app.
    by rewrite perform_connected. }
  split; [done|]. unfold is_healthy. rewrite Hc', Hl. cbn [negb].
  split; intros H.
  - by rewrite bool_decide_eq_false_2 by lia.
  - by rewrite bool_decide_eq_true_2 by lia.
Qed.

(** *** Hanging up *)

(** [disconnect] does nothing at all on a service that is not connected.
    On a connected one it stops the loop and hangs up, after which the
    service is not connected, publishing fails at once and a further
    [disconnect] does nothing; nothing is retried.  If [loop_stop] or
    [client.disconnect] raises, the service is left as it was, connected. *)
Theorem disconnect_hangs_up_once stop disc s :
  (is_connected s = false → disconnect stop disc s = (s, []))
  ∧ (is_connected s = true → client s ≠ None →
     (∃ a b, stop = Returns a ∧ disc = Returns b) →
     let s' := (disconnect stop disc s).1 in
     (disconnect stop disc s).2
     = [ClientLoopStop; ClientDisconnect; Log Info "MQTT client disconnected"]
     ∧ is_connected s' = false
     ∧ connection_attempts s' = connection_attempts s
     ∧ (∀ stop' disc', disconnect stop' disc' s' = (s', []))
     ∧ (∀ order_id item_id slot_id quantity utcnow res,
          publish_order order_id item_id slot_id quantity utcnow res s'
          = (false, [Log Error "Cannot publish order: MQTT not connected"])))
  ∧ ((∃ what, stop = Raises what ∨ disc = Raises what) →
     (disconnect stop disc s).1 = s
     ∧ ((∃ what, stop = Raises what) →
        ClientDisconnect ∉ (disconnect stop disc s).2)).
Proof.
  unfold disconnect. split; [|split].
  - intros ->. by destruct (client s).
  - intros Hc Hcl (a & b & -> & ->). rewrite Hc.
    destruct (client s) as [c|] eqn:E; [|done]. cbn [fst snd].
    split; [done|]. split; [done|]. split; [done|]. split.
    + intros stop' disc'. unfold disconnect. cbn [client is_connected
        set_is_connected]. by rewrite E.
    + intros. unfold publish_order. done.
  - intros (what & Hraise). split.
    + destruct (client s); [|done]. destruct (is_connected s); [|done].
      destruct Hraise as [-> | ->]; [done|]. by destruct stop.
    + intros (what' & ->). destruct (client s); [|apply not_elem_of_nil].
      destruct (is_connected s); [|apply not_elem_of_nil].
      intros H. repeat (apply elem_of_cons in H as [H|H]; [discriminate H|]).
      by apply elem_of_nil in H.
Qed.

(** *** Sending *)

(** On a connected service every publish call hands exactly one message to
    the client, whatever the client answers: an order on
    [foodyeh/order/<id>] at QoS 1, an administrative command on
    [foodyeh/admin/<command>] at QoS 2, with [{}] in the place of
    parameters that are missing or falsy.  The call returns [True] exactly
    when the client answers success; a failed send is not sent again. *)
Theorem a_publish_goes_out_once s c :
  is_connected s = true → client s = Some c →
  (∀ order_id item_id slot_id quantity utcnow res,
     published (publish_order order_id item_id slot_id quantity utcnow res s).2
     = [("foodyeh/order/" +:+ order_id,
         OrderPayload order_id item_id slot_id quantity utcnow, 1)]
     ∧ ((publish_order order_id item_id slot_id quantity utcnow res s).1 = true
        ↔ res = Returns 0))
  ∧ (∀ command parameters utcnow res,
       published (publish_admin_command command parameters utcnow res s).2
       = [("foodyeh/admin/" +:+ command,
           AdminPayload command (or_empty_dict parameters) utcnow, 2)]
       ∧ ((publish_admin_command command parameters utcnow res s).1 = true
          ↔ res = Returns 0))
  ∧ or_empty_dict None = JObject []
  ∧ (∀ v, json_truthy v = true → or_empty_dict (Some v) = v)
  ∧ (∀ v, json_truthy v = false → or_empty_dict (Some v) = JObject [])
  ∧ (∀ v, json_truthy v = false
          ↔ v = JNull ∨ v = JBool false ∨ v = JInt 0 ∨ v = JString ""
            ∨ v = JArray [] ∨ v = JObject []
            ∨ ∃ literal, v = JFloat literal ∧ float_is_zero literal = true).
Proof.
  intros Hc Hcl. unfold publish_order, publish_admin_command, send.
  rewrite Hc, Hcl. cbn [negb].
  split; [|split; [|split; [done|split; [|split]]]].
  1,2: intros; (destruct res as [rc|what];
    [case_bool_decide; (split; [done|]); split; intros; simplify_eq; done
    |split; [done|]; split; done]).
  - intros v Hv. unfold or_empty_dict. by rewrite Hv.
  - intros v Hv. unfold or_empty_dict. by rewrite Hv.
  - intros v. split.
    + destruct v as [|[]|n|l|[|ch r]|[|i items]|[|f fs]]; simpl; try done; eauto 8.
      * intros Hn. apply negb_false_iff, Z.eqb_eq in Hn as ->. eauto 8.
      * intros Hl%negb_false_iff. do 6 right. by exists l.
    + intros [->|[->|[->|[->|[->|[->|(l & -> & Hl)]]]]]]; simpl; try done.
      by rewrite Hl.
Qed.

(** *** What every state has in common *)

Lemma step_settled s e : settled s → settled (step s e).1.
Proof.
  intros [Hcl Hlast]. unfold settled.
  destruct e; cbn [MQTT.step fst]; try done.
  - unfold _on_connect. by case_bool_decide.
  - unfold _on_disconnect. by case_match.
  - destruct (on_message_frame settings decode_utf8 json_loads msg utcnow s)
      as (-> & _ & _ & _ & -> & _ & F7 & _).
    split; [done|]. intros H. by apply Hlast, F7.
  - assert (Hd : (disconnect stop disc s).1 = s
                 ∨ (disconnect stop disc s).1 = set_is_connected false s)
      by (unfold disconnect; repeat case_match; auto).
    destruct Hd as [-> | ->]; [done|]. by split.
Qed.

Lemma reachable_settled s : reachable s → settled s.
Proof.
  induction 1 as [cid|s e _ IH]; [done|]. by apply step_settled.
Qed.

(** In every state the service can be in, [get_connection_status] reports
    a client id, an attempt count between 0 and 5, and, when it reports
    the service connected, a count of 0 and a time of last connection. *)
Theorem the_status_report_is_consistent s :
  reachable s →
  let status := get_connection_status settings isoformat s in
  client_id status ≠ None
  ∧ 0 ≤ Channel.connection_attempts status ≤ 5
  ∧ (connected status = true →
     Channel.connection_attempts status = 0 ∧ last_connection status ≠ None)
  ∧ (last_connection status = None → connected status = false).
Proof.
  intros Hr.
  destruct (reachable_well_formed _ _ _ s Hr) as (_ & _ & Hatt & Hconn).
  destruct (reachable_settled s Hr) as [Hcl Hlast].
  unfold get_connection_status. cbn.
  split; [done|]. split; [done|]. split.
  - intros Hc. split; [by apply Hconn|].
    specialize (Hlast Hc). by destruct (last_connection_time s).
  - intros Hnone. destruct (is_connected s) eqn:Hc; [|done].
    specialize (Hlast eq_refl). by destruct (last_connection_time s).
Qed.

(** After an accepted connection the budget is whole again: the next run
    of unexpected disconnects is answered with up to five attempts, each a
    sleep of 5 seconds followed by one call of [client.connect], however
    many were made before. *)
Theorem a_connection_restores_the_budget s utcnow sub ds :
  reachable s → Forall (λ d : Z * outcome, d.1 ≠ 0) ds →
  let after := run (_on_connect 0 utcnow sub s).1 (unexpected <$> ds) in
  let k := Nat.min (length ds) 5 in
  retries after.2
  = mjoin (replicate k
             [Sleep 5;
              ClientConnect (mqtt_broker settings) (mqtt_port settings)
                (mqtt_keepalive settings)])
  ∧ retry_delays after.2 = replicate k 5
  ∧ connect_calls after.2
    = replicate k
        (mqtt_broker settings, mqtt_port settings, mqtt_keepalive settings).
Proof.
  intros Hr Hds.
  pose proof (reachable_well_formed _ _ _ s Hr) as Hwf.
  pose proof (reachable_client _ _ _ s Hr) as Hcl.
  pose proof (step_well_formed settings decode_utf8 json_loads s
                (OnConnect 0 utcnow sub) Hwf) as Hwf1.
  pose proof (step_client settings decode_utf8 json_loads s
                (OnConnect 0 utcnow sub)) as Hcl1.
  cbn [MQTT.step] in Hwf1, Hcl1. rewrite <- Hcl1 in Hcl.
  destruct (run_unexpected settings decode_utf8 json_loads ds _ Hwf1 Hcl Hds)
    as (Hret & Hdel & Hcalls & _).
  cbv zeta in *. rewrite Hret, Hdel, Hcalls. unfold _on_connect.
  rewrite bool_decide_eq_true_2 by done.
  done.
Qed.

End Channel.

Lemma a_connection_subscribes_to_every_topic_witness :
  subscribed
    (_on_connect 0 1700000000000000
       (λ t, if bool_decide (t = "foodyeh/error") then Raises "timeout"
             else Returns 0)
       (init "foodyeh_api_1700000000").1).2
  = [ ("foodyeh/status", 1); ("foodyeh/order/+/response", 1);
      ("foodyeh/error", 1); ("foodyeh/heartbeat", 0) ].
Proof.
  exact (proj1 (proj1 (a_connection_subscribes_to_every_topic 0
    1700000000000000
    (λ t, if bool_decide (t = "foodyeh/error") then Raises "timeout"
          else Returns 0)
    (init "foodyeh_api_1700000000").1 "foodyeh_api_1700000000" eq_refl)
    eq_refl)).
Defined.

Lemma dispatch_is_by_exact_topic_witness :
  (_on_message default_settings (λ x, Some x) (λ _, Some JNull)
     (mkMessage "foodyeh/order/ORD-1/response" "null") 1700000000000000
     (register_message_handler "foodyeh/order/+/response" (λ _, ([], Returned))
        (init "foodyeh_api_1700000000").1).1).2
  = (_on_message default_settings (λ x, Some x) (λ _, Some JNull)
       (mkMessage "foodyeh/order/ORD-1/response" "null") 1700000000000000
       (init "foodyeh_api_1700000000").1).2.
Proof.
  refine (proj1 (proj2 (dispatch_is_by_exact_topic default_settings
    (λ x, Some x)
    (λ _, Some JNull) "foodyeh/order/+/response" (λ _, ([], Returned))
    (init "foodyeh_api_1700000000").1
    (mkMessage "foodyeh/order/ORD-1/response" "null") 1700000000000000
    "null" JNull eq_refl eq_refl)) _).
  discriminate.
Defined.

(** A handler registered under the pattern the service subscribes with is
    not called for the topic of an actual order. *)
Example a_pattern_is_no_match :
  handled
    (_on_message default_settings (λ x, Some x) (λ _, Some JNull)
       (mkMessage "foodyeh/order/ORD-1/response" "null") 1700000000000000
       (register_message_handler "foodyeh/order/+/response" (λ _, ([], Returned))
          (init "foodyeh_api_1700000000").1).1).2
  = [].
Proof. reflexivity. Qed.

Lemma any_message_is_a_sign_of_life_witness :
  (is_healthy 1700000300000000
     (_on_message default_settings (λ _, None) (λ _, None) (mkMessage "foodyeh/status" "")
        1700000000000000
        (_on_connect 0 1690000000000000 (λ _, Returns 0)
           (init "foodyeh_api_1700000000").1).1).1).1
  = true.
Proof.
  refine (proj1 (proj2 (any_message_is_a_sign_of_life default_settings
    (λ _, None) (λ _, None)
    (mkMessage "foodyeh/status" "") 1700000000000000 1700000300000000
    (_on_connect 0 1690000000000000 (λ _, Returns 0)
       (init "foodyeh_api_1700000000").1).1 eq_refl _)) _).
  - by repeat constructor.
  - lia.
Defined.

Lemma disconnect_hangs_up_once_witness :
  (disconnect (Returns 0) (Returns 0)
     (_on_connect 0 1700000000000000 (λ _, Returns 0)
        (init "foodyeh_api_1700000000").1).1).2
  = [ClientLoopStop; ClientDisconnect; Log Info "MQTT client disconnected"].
Proof.
  refine (proj1 (proj1 (proj2 (disconnect_hangs_up_once (Returns 0) (Returns 0)
    (_on_connect 0 1700000000000000 (λ _, Returns 0)
       (init "foodyeh_api_1700000000").1).1)) eq_refl _ _)).
  - discriminate.
  - by exists 0, 0.
Defined.

Lemma a_publish_goes_out_once_witness :
  published
    (publish_admin_command "reboot" (Some (JArray [])) 1700000001000000
       (Raises "broken pipe")
       (_on_connect 0 1700000000000000 (λ _, Returns 0)
          (init "foodyeh_api_1700000000").1).1).2
  = [("foodyeh/admin/reboot",
      AdminPayload "reboot" (JObject []) 1700000001000000, 2)].
Proof.
  exact (proj1 (proj1 (proj2 (a_publish_goes_out_once
    (_on_connect 0 1700000000000000 (λ _, Returns 0)
       (init "foodyeh_api_1700000000").1).1
    "foodyeh_api_1700000000" eq_refl eq_refl))
    "reboot" (Some (JArray [])) 1700000001000000 (Raises "broken pipe"))).
Defined.

Lemma the_status_report_is_consistent_witness :
  0 ≤ Channel.connection_attempts
        (get_connection_status default_settings pretty
           (step default_settings (λ x, Some x) (λ _, None)
              (init "foodyeh_api_1700000000").1
              (OnDisconnect 1 (Raises "refused"))).1) ≤ 5.
Proof.
  refine (proj1 (proj2 (the_status_report_is_consistent default_settings
    (λ x, Some x) (λ _, None) pretty _ _))).
  apply reachable_step, reachable_init.
Defined.

Lemma a_connection_restores_the_budget_witness :
  connect_calls
    (run default_settings (λ x, Some x) (λ _, None)
       (_on_connect 0 1700000000000000 (λ _, Returns 0)
          (run default_settings (λ x, Some x) (λ _, None)
             (init "foodyeh_api_1700000000").1
             [OnDisconnect 1 (Raises "refused");
              OnDisconnect 1 (Raises "refused")]).1).1
       (unexpected <$> replicate 6 (7, Returns 0))).2
  = replicate 5 ("mqtt.foodyeh.io", 8883, 60).
Proof.
  refine (proj2 (proj2 (a_connection_restores_the_budget default_settings
    (λ x, Some x)
    (λ _, None) _ 1700000000000000 (λ _, Returns 0)
    (replicate 6 (7, Returns 0)) _ _))).
  - apply run_reachable, reachable_init.
  - repeat constructor; discriminate.
Defined.

End ChannelFacts.

(** ** Facts about the handlers *)

Module RoutersFacts.
Import Redis RedisFacts RateLimiter RateLimiterFacts QuotaFacts MQTT Routers.
Local Open Scope route_scope.

(** [check_rate_limit] returns, raises a 429, or, on a store that was
    lost, raises the client's [ConnectionError]; a store out of reach stays
    so and one in reach stays so. *)
Lemma check_rate_limit_cases sha limits request lm lh w :
  ∃ r w', RateLimiter.check_rate_limit sha limits request lm lh w = (r, w')
          ∧ (r = Ok tt
             ∨ (is_Some (redis w)
                ∧ ∃ d, r = Raise (RateLimiter.HTTPException 429 d))
             ∨ (store w = Lost ∧ r = Raise ConnectionError))
          ∧ (redis w = None → redis w' = None)
          ∧ (is_Some (redis w) → is_Some (redis w')).
Proof.
  destruct (store w) as [|d|] eqn:Hs.
  { exists (Ok tt), w. unfold RateLimiter.check_rate_limit, redis_available,
      RateLimiter.bind. rewrite Hs. by split; [|split; [left|]]. }
  2:{ rewrite check_rate_limit_lost by done. eexists _, _.
      split; [reflexivity|]. split; [by right; right|].
      split; [done|]. unfold redis at 1. rewrite Hs. by intros []. }
  assert (is_Some (redis w)) as Hup by (unfold redis; rewrite Hs; by eexists).
  apply redis_Some in Hs as Hd.
  unfold RateLimiter.check_rate_limit, redis_available.
  unfold RateLimiter.bind at 1. rewrite Hs. cbn [negb].
  assert (∀ w1 d1, redis w1 = Some d1 →
            (redis w = None → redis w1 = None)
            ∧ (is_Some (redis w) → is_Some (redis w1))) as Hkeep.
  { intros w1 d1 H1. rewrite Hd, H1. split; [done|by intros _; eexists]. }
  set (pm := Py.or_default lm (rate_limit_per_minute limits)).
  set (ph := Py.or_default lh (rate_limit_per_hour limits)).
  destruct (is_rate_limited_answer
    (_generate_key "ip" (_get_client_ip request) "minute") pm 60 w d Hd
    ltac:(lia)) as (l1 & c1 & m1 & w1 & d1 & E1 & Hd1 & _).
  destruct (is_rate_limited_answer
    (_generate_key "ip" (_get_client_ip request) "hour") ph 3600 w1 d1 Hd1
    ltac:(lia)) as (l2 & c2 & m2 & w2 & d2 & E2 & Hd2 & _).
  unfold RateLimiter.bind at 1. rewrite E1.
  unfold RateLimiter.bind at 1. rewrite E2.
  destruct l1;
    [eexists _, _; split; [reflexivity|];
       split; [right; left; split; [done|by eexists]|]; by eapply Hkeep|].
  destruct l2;
    [eexists _, _; split; [reflexivity|];
       split; [right; left; split; [done|by eexists]|]; by eapply Hkeep|].
  destruct (Py.truthy_opt (_get_token_from_request request)).
  - set (th := sha (default EmptyString (_get_token_from_request request))).
    destruct (is_rate_limited_answer (_generate_key "token" th "minute")
      pm 60 w2 d2 Hd2 ltac:(lia)) as (l3 & c3 & m3 & w3 & d3 & E3 & Hd3 & _).
    destruct (is_rate_limited_answer (_generate_key "token" th "hour")
      ph 3600 w3 d3 Hd3 ltac:(lia)) as (l4 & c4 & m4 & w4 & d4 & E4 & Hd4 & _).
    unfold RateLimiter.bind. rewrite E3, E4.
    destruct l3;
      [eexists _, _; split; [reflexivity|];
       split; [right; left; split; [done|by eexists]|]; by eapply Hkeep|].
    destruct l4;
      [eexists _, _; split; [reflexivity|];
       split; [right; left; split; [done|by eexists]|]; by eapply Hkeep|].
    eexists _, _; split; [reflexivity|]. split; [by left|].
    by eapply Hkeep.
  - eexists _, _; split; [reflexivity|]. split; [by left|].
    by eapply Hkeep.
Qed.

Lemma say_run l msg app : say l msg app = (Return tt, logged l msg app).
Proof. reflexivity. Qed.

Lemma bind_return {A B} (m : R A) (k : A → R B) app a app' :
  m app = (Return a, app') → Routers.bind m k app = k a app'.
Proof. unfold Routers.bind. by intros ->. Qed.

Lemma bind_fail {A B} (m : R A) (k : A → R B) app f app' :
  m app = (Fail f, app') → Routers.bind m k app = (Fail f, app').
Proof. unfold Routers.bind. by intros ->. Qed.

(** What a handler's frame does to a body that fails with another
    exception. *)
Lemma guarded_caught {A} logged500 detail500 (body : R A) app what app' :
  body app = (Fail (Exception what), app') →
  guarded logged500 detail500 body app
  = (Fail (HTTPException 500 (Text detail500)), logged Error logged500 app').
Proof. unfold guarded. by intros ->. Qed.

(** What a handler's frame does to a body that fails only with an
    [HTTPException]. *)
Lemma guarded_keeps {A} logged500 detail500 (body : R A) app a app' :
  body app = (a, app') → fails_with (match a with
                                      | Fail (HTTPException c _) => [c]
                                      | _ => []
                                      end) a →
  guarded logged500 detail500 body app = (a, app').
Proof.
  unfold guarded. intros -> H. destruct a as [|[|]]; [done|done|by destruct H].
Qed.

Section Handlers.

Variable ips : list string.
Variable limits : RateLimiter.Settings.
Variable mqtt_settings : MQTT.Settings.
Variable sha : string → string.
Variable iso : Z → string.

Local Abbreviation validate_ip_whitelist := (Routers.validate_ip_whitelist ips).
Local Abbreviation require_admin_ip := (Routers.require_admin_ip ips).
Local Abbreviation check_rate_limit := (Routers.check_rate_limit limits sha).
Local Abbreviation reboot_device := (Routers.reboot_device ips limits sha iso).
Local Abbreviation override_device :=
  (Routers.override_device ips limits sha iso).
Local Abbreviation clear_rate_limits :=
  (Routers.clear_rate_limits ips limits sha iso).
Local Abbreviation cancel_order := (Routers.cancel_order limits sha).
Local Abbreviation reconnect_mqtt := (Routers.reconnect_mqtt mqtt_settings).

(** *** The whitelist *)

Lemma validate_ip_whitelist_run ip app :
  ∃ b app', validate_ip_whitelist ip app = (Return b, app')
    ∧ (b = true ↔ admits ips ip)
    ∧ (b = true → app' = app)
    ∧ (b = false → ∃ msg, app' = logged Warning msg app).
Proof.
  unfold Routers.validate_ip_whitelist.
  destruct ips as [|ip0 rest] eqn:Hips.
  { eexists false, _. split; [reflexivity|]. split; [|split; [done|by eexists]].
    split; [done|]. intros [H|(e & H & _)]; by apply elem_of_nil in H. }
  rewrite <- Hips. clear Hips.
  case_bool_decide as Hin.
  { eexists true, _. split; [reflexivity|]. split; [|split; [done|done]].
    split; [by left|done]. }
  destruct (existsb _ ips) eqn:Hex.
  - eexists true, _. split; [reflexivity|]. split; [|split; [done|done]].
    split; [|done]. intros _. right.
    apply existsb_exists in Hex as (e & He%list_elem_of_In & Hc).
    apply andb_true_iff in Hc as [Hs Hp]. rewrite split_hd in Hp.
    exists e. split; [done|]. split; [|done].
    by apply bool_decide_eq_true in Hs.
  - eexists false, _. split; [reflexivity|]. split; [|split; [done|by eexists]].
    split; [done|]. intros [H|(e & He & Hs & Hp)]; [done|].
    assert (existsb
      (λ whitelisted_ip,
         contains "/" whitelisted_ip
         && String.prefix (List.hd EmptyString (Py.split "/" whitelisted_ip)) ip)
      ips = true) as Hex'; [|by rewrite Hex' in Hex].
    apply existsb_exists. exists e. split; [by apply list_elem_of_In|].
    rewrite split_hd, Hp, andb_true_r. by apply bool_decide_eq_true.
Qed.

Lemma require_admin_ip_run request app :
  (admits ips (peer request)
   ∧ require_admin_ip request app = (Return true, app))
  ∨ (¬ admits ips (peer request)
     ∧ ∃ msg, require_admin_ip request app
              = (Fail (HTTPException 403
                         (Text "Access denied: IP not in admin whitelist")),
                 logged Warning msg app)).
Proof.
  unfold Routers.require_admin_ip. fold (peer request).
  destruct (validate_ip_whitelist_run (peer request) app)
    as (b & app' & E & Hb & Ht & Hf).
  rewrite (bind_return _ _ _ _ _ E). destruct b; simpl.
  - left. split; [by apply Hb|]. by rewrite Ht.
  - right. split; [intros H%Hb; done|].
    destruct Hf as [msg ->]; [done|]. by exists msg.
Qed.

Lemma check_rate_limit_run request lm lh app :
  ∃ w', (redis (world app) = None → redis w' = None)
    ∧ (is_Some (redis (world app)) → is_Some (redis w'))
    ∧ ((within_limits sha limits request lm lh (world app)
        ∧ check_rate_limit request lm lh app
          = (Return tt, mkApp w' (service app) (wire app)))
       ∨ (¬ within_limits sha limits request lm lh (world app)
          ∧ is_Some (redis (world app))
          ∧ ∃ d, check_rate_limit request lm lh app
                 = (Fail (HTTPException 429 (Limit d)),
                    mkApp w' (service app) (wire app)))
       ∨ (¬ within_limits sha limits request lm lh (world app)
          ∧ store (world app) = Lost
          ∧ check_rate_limit request lm lh app
            = (Fail (Exception "ConnectionError"),
               mkApp w' (service app) (wire app)))).
Proof.
  unfold Routers.check_rate_limit, limiter, within_limits.
  destruct (check_rate_limit_cases sha limits request lm lh (world app))
    as (r & w' & E & Hr & Hn & Hs).
  rewrite E. exists w'. split; [done|]. split; [done|].
  destruct Hr as [->|[[Hup [d ->]]|[Hlost ->]]].
  - by left.
  - right; left. split; [done|]. split; [done|]. by exists d.
  - right; right. by split.
Qed.

(** What [publish_admin_command] answers and what it hands to the client. *)
Lemma publish_admin_command_run command parameters sent res s :
  ∃ b tr, publish_admin_command command parameters sent res s = (b, tr)
    ∧ (b = true ↔ is_connected s = true ∧ client s ≠ None
                    ∧ res = Returns MQTT_ERR_SUCCESS)
    ∧ (published tr = []
       ∨ (is_connected s = true
          ∧ published tr
            = [("foodyeh/admin/" +:+ command,
                AdminPayload command (or_empty_dict parameters) sent,
                2)])).
Proof.
  unfold publish_admin_command, send.
  destruct (is_connected s); simpl.
  2:{ eexists _, _. split; [reflexivity|]. split; [|by left].
      split; [done|]. by intros [? _]. }
  destruct (client s) as [c|].
  2:{ eexists _, _. split; [reflexivity|]. split; [|by left].
      split; [done|]. by intros (_ & ? & _). }
  destruct res as [rc|what].
  - case_bool_decide as Hrc.
    + eexists _, _. split; [reflexivity|]. split; [|by right].
      split; [|done]. intros _. by rewrite Hrc.
    + eexists _, _. split; [reflexivity|]. split; [|by right].
      split; [done|]. intros (_ & _ & [= ?]). done.
  - eexists _, _. split; [reflexivity|]. split; [|by right].
    split; [done|]. by intros (_ & _ & ?).
Qed.

Lemma channel_run call app b tr :
  call (service app) = (b, tr) →
  channel call app
  = (Return b, mkApp (world app) (service app) (wire app ++ tr)).
Proof. unfold channel. by intros ->. Qed.

(** The whitelist goes by text.  [validate_ip_whitelist] always answers;
    it says yes exactly to an address that is an entry of the list, or that
    starts with the characters some entry has in front of its first slash
    (so the mask of an entry plays no part, and an empty list admits no
    one); and it touches neither the counters nor the channel. *)
Theorem the_whitelist_goes_by_text ip app :
  ∃ b app',
    validate_ip_whitelist ip app = (Return b, app')
    ∧ (b = true ↔ admits ips ip)
    ∧ redis (world app') = redis (world app)
    ∧ service app' = service app
    ∧ wire app' = wire app.
Proof.
  destruct (validate_ip_whitelist_run ip app) as (b & app' & E & Hb & Ht & Hf).
  exists b, app'. split; [done|]. split; [done|].
  destruct b.
  - by rewrite Ht.
  - destruct Hf as [msg ->]; done.
Qed.

(** *** The administrative commands *)

Local Ltac evaluate out tac :=
  let E := fresh "Eo" in
  eassert (out = (_, _)) as E by (subst out; tac; reflexivity);
  rewrite E; clear E; clearbody out.

Lemma allowed_command_iff command :
  existsb (λ allowed, is_text allowed command) allowed_commands = true
  ↔ ∃ c, c ∈ allowed_commands ∧ command = JString c.
Proof.
  rewrite existsb_exists. split.
  - intros (c & Hc%list_elem_of_In & Ht). exists c. split; [done|].
    destruct command; try done. simpl in Ht.
    by apply bool_decide_eq_true in Ht as ->.
  - intros (c & Hc & ->). exists c. split; [by apply list_elem_of_In|].
    simpl. by apply bool_decide_eq_true.
Qed.

(** An address that the whitelist does not admit gets a 403 from each of
    the three administrative handlers, and that is all that happens: no
    counter of the limiter is touched, so the attempt is not even counted,
    nothing is asked of the channel, and the service is as before. *)
Theorem an_outsider_is_turned_away_uncounted request current_user
    override_data identifier limit_type asked sent answered res app :
  ¬ admits ips (peer request) →
  ∀ out,
    out ∈ [ reboot_device request current_user asked sent answered res app;
            override_device request override_data current_user asked sent
              answered res app;
            clear_rate_limits request identifier limit_type current_user
              answered app ] →
    out.1 = Fail (HTTPException 403
                    (Text "Access denied: IP not in admin whitelist"))
    ∧ redis (world out.2) = redis (world app)
    ∧ reads (world out.2) = reads (world app)
    ∧ checked_keys (journal (world out.2))
      = checked_keys (journal (world app))
    ∧ wire out.2 = wire app
    ∧ service out.2 = service app.
Proof.
  intros Hno out Hout.
  destruct (require_admin_ip_run request app) as [[Had _]|[_ [msg E]]];
    [done|].
  assert (out = (Fail (HTTPException 403
                         (Text "Access denied: IP not in admin whitelist")),
                 logged Warning msg app)) as ->.
  { rewrite !elem_of_cons in Hout.
    destruct Hout as [->|[->|[->|Hout]]]; [| | |by apply elem_of_nil in Hout].
    - unfold Routers.reboot_device, guarded.
      by rewrite (bind_fail _ _ _ _ _ E).
    - unfold Routers.override_device, guarded.
      by rewrite (bind_fail _ _ _ _ _ E).
    - unfold Routers.clear_rate_limits, guarded.
      by rewrite (bind_fail _ _ _ _ _ E). }
  cbn [fst snd logged world service wire redis store reads journal].
  repeat split; try done.
  unfold checked_keys. rewrite omap_app. simpl. by rewrite app_nil_r.
Qed.

(** A reboot command goes out past every guard.  [reboot_device] answers
    with success exactly when the peer is admitted by the whitelist, the
    limiter lets the request through, the channel is connected and the
    client took the message; otherwise it fails with 403, 429 or 500 and
    with nothing else.  At most one message is handed to the client, the
    reboot command at QoS 2, and only for an admitted peer within its
    limits; the service itself is not changed. *)
Theorem a_reboot_goes_out_past_every_guard request current_user
    asked sent answered res app :
  let out := reboot_device request current_user asked sent answered res app in
  ((∃ body, out.1 = Return body)
   ↔ admits ips (peer request)
     ∧ within_limits sha limits request (Some 5) (Some 20) (world app)
     ∧ is_connected (service app) = true
     ∧ client (service app) ≠ None
     ∧ res = Returns MQTT_ERR_SUCCESS)
  ∧ fails_with [403; 429; 500] out.1
  ∧ service out.2 = service app
  ∧ ∃ new,
      wire out.2 = wire app ++ new
      ∧ (published new = []
         ∨ (admits ips (peer request)
            ∧ within_limits sha limits request (Some 5) (Some 20) (world app)
            ∧ published new
              = [("foodyeh/admin/reboot",
                  AdminPayload "reboot"
                    (JObject
                       [ ("reason", JString "admin_request");
                         ("requested_by", dict_get "sub" current_user);
                         ("timestamp", JString (iso asked)) ])
                    sent,
                  2)])).
Proof.
  intros out.
  destruct (require_admin_ip_run request app) as [[Had E]|[Hno [msg E]]].
  2:{ evaluate out ltac:(unfold Routers.reboot_device, guarded;
                        rewrite (bind_fail _ _ _ _ _ E)).
      cbn [fst snd logged service wire fails_with].
      split; [split; [by intros [? ?]|by intros [? _]]|].
      split; [by repeat constructor|]. split; [done|].
      exists []. by rewrite app_nil_r; split; [|left]. }
  destruct (check_rate_limit_run request (Some 5) (Some 20) app)
    as (w' & _ & _ & [[Hin Ec]|[(Hout & _ & d & Ec)|(Hout & _ & Ec)]]).
  2:{ evaluate out ltac:(unfold Routers.reboot_device, guarded;
                        rewrite (bind_return _ _ _ _ _ E); cbv beta;
                        rewrite (bind_fail _ _ _ _ _ Ec)).
      cbn [fst snd service wire fails_with].
      split; [split; [by intros [? ?]|by intros (_ & ? & _)]|].
      split; [by repeat constructor|]. split; [done|].
      exists []. by rewrite app_nil_r; split; [|left]. }
  2:{ evaluate out ltac:(unfold Routers.reboot_device;
                        eapply guarded_caught;
                        rewrite (bind_return _ _ _ _ _ E); cbv beta;
                        rewrite (bind_fail _ _ _ _ _ Ec)).
      cbn [fst snd logged service wire fails_with].
      split; [split; [by intros [? ?]|by intros (_ & ? & _)]|].
      split; [by repeat constructor|]. split; [done|].
      exists []. by rewrite app_nil_r; split; [|left]. }
  destruct (publish_admin_command_run "reboot"
    (Some (JObject [ ("reason", JString "admin_request");
                     ("requested_by", dict_get "sub" current_user);
                     ("timestamp", JString (iso asked)) ]))
    sent res (service app)) as (b & tr & Ep & Hb & Hpub).
  pose proof (channel_run _ (mkApp w' (service app) (wire app)) b tr Ep) as Ech.
  cbn [world service wire] in Ech.
  destruct b.
  - evaluate out ltac:(unfold Routers.reboot_device, guarded;
                      rewrite (bind_return _ _ _ _ _ E); cbv beta;
                      rewrite (bind_return _ _ _ _ _ Ec); cbv beta;
                      rewrite (bind_return _ _ _ _ _ Ech); cbv beta).
    cbn [fst snd logged service wire fails_with].
    destruct Hb as [Hb _]. destruct (Hb eq_refl) as (Hc & Hcl & Hres).
    split; [split; [done|by eexists]|].
    split; [done|]. split; [done|].
    exists tr. split; [done|].
    destruct Hpub as [Hp|[_ Hp]]; [by left|right]. done.
  - evaluate out ltac:(unfold Routers.reboot_device, guarded;
                      rewrite (bind_return _ _ _ _ _ E); cbv beta;
                      rewrite (bind_return _ _ _ _ _ Ec); cbv beta;
                      rewrite (bind_return _ _ _ _ _ Ech); cbv beta).
    cbn [fst snd logged service wire fails_with].
    split.
    { split; [by intros [? ?]|]. intros (_ & _ & H1 & H2 & H3).
      destruct Hb as [_ Hb]. by discriminate Hb. }
    split; [by repeat constructor|]. split; [done|].
    exists tr. split; [done|].
    destruct Hpub as [Hp|[_ Hp]]; [by left|right]. done.
Qed.

Local Ltac nothing_sent :=
  exists []; rewrite app_nil_r; split; [done|by left].

(** An override carries an allowed command.  [override_device] answers
    with success exactly when the peer is admitted, the limiter lets the
    request through, the body names one of the four allowed commands and
    has parameters, the channel is connected and the client took the
    message; otherwise it fails with 400, 403, 429 or 500.  Whatever it
    hands to the client is one message on the override topic at QoS 2 whose
    command is an allowed one, taken with its parameters from the body. *)
Theorem an_override_carries_an_allowed_command request override_data
    current_user asked sent answered res app :
  let out := override_device request override_data current_user asked sent
               answered res app in
  ((∃ body, out.1 = Return body)
   ↔ admits ips (peer request)
     ∧ within_limits sha limits request (Some 5) (Some 20) (world app)
     ∧ (∃ c, c ∈ allowed_commands
             ∧ override_data !! "command" = Some (JString c))
     ∧ is_Some (override_data !! "parameters")
     ∧ is_connected (service app) = true
     ∧ client (service app) ≠ None
     ∧ res = Returns MQTT_ERR_SUCCESS)
  ∧ fails_with [400; 403; 429; 500] out.1
  ∧ service out.2 = service app
  ∧ ∃ new,
      wire out.2 = wire app ++ new
      ∧ (published new = []
         ∨ ∃ c parameters,
             c ∈ allowed_commands
             ∧ override_data !! "command" = Some (JString c)
             ∧ override_data !! "parameters" = Some parameters
             ∧ admits ips (peer request)
             ∧ within_limits sha limits request (Some 5) (Some 20) (world app)
             ∧ published new
               = [("foodyeh/admin/override",
                   AdminPayload "override"
                     (JObject
                        [ ("command", JString c);
                          ("parameters", parameters);
                          ("requested_by", dict_get "sub" current_user);
                          ("timestamp", JString (iso asked)) ])
                     sent,
                   2)]).
Proof.
  intros out.
  destruct (require_admin_ip_run request app) as [[Had E]|[Hno [msg E]]].
  2:{ evaluate out ltac:(unfold Routers.override_device, guarded;
                        rewrite (bind_fail _ _ _ _ _ E)).
      cbn [fst snd logged service wire fails_with].
      split; [split; [by intros [? ?]|by intros [? _]]|].
      split; [by repeat constructor|]. split; [done|]. nothing_sent. }
  destruct (check_rate_limit_run request (Some 5) (Some 20) app)
    as (w' & _ & _ & [[Hin Ec]|[(Hout & _ & d & Ec)|(Hout & _ & Ec)]]).
  2:{ evaluate out ltac:(unfold Routers.override_device, guarded;
                        rewrite (bind_return _ _ _ _ _ E); cbv beta;
                        rewrite (bind_fail _ _ _ _ _ Ec)).
      cbn [fst snd service wire fails_with].
      split; [split; [by intros [? ?]|by intros (_ & ? & _)]|].
      split; [by repeat constructor|]. split; [done|]. nothing_sent. }
  2:{ evaluate out ltac:(unfold Routers.override_device;
                        eapply guarded_caught;
                        rewrite (bind_return _ _ _ _ _ E); cbv beta;
                        rewrite (bind_fail _ _ _ _ _ Ec)).
      cbn [fst snd logged service wire fails_with].
      split; [split; [by intros [? ?]|by intros (_ & ? & _)]|].
      split; [by repeat constructor|]. split; [done|]. nothing_sent. }
  destruct (override_data !! "command") as [command|] eqn:Hc.
  2:{ evaluate out ltac:(unfold Routers.override_device, guarded;
                        rewrite (bind_return _ _ _ _ _ E); cbv beta;
                        rewrite (bind_return _ _ _ _ _ Ec); cbv beta;
                        rewrite Hc).
      cbn [fst snd service wire fails_with].
      split; [split; [by intros [? ?]|by intros (_ & _ & (? & _ & ?) & _)]|].
      split; [by repeat constructor|]. split; [done|]. nothing_sent. }
  destruct (override_data !! "parameters") as [parameters|] eqn:Hp.
  2:{ evaluate out ltac:(unfold Routers.override_device, guarded;
                        rewrite (bind_return _ _ _ _ _ E); cbv beta;
                        rewrite (bind_return _ _ _ _ _ Ec); cbv beta;
                        rewrite Hc, Hp).
      cbn [fst snd service wire fails_with].
      split; [split; [by intros [? ?]|by intros (_ & _ & _ & [? ?] & _)]|].
      split; [by repeat constructor|]. split; [done|]. nothing_sent. }
  destruct (existsb (λ allowed, is_text allowed command) allowed_commands)
    eqn:Hal.
  2:{ evaluate out ltac:(unfold Routers.override_device, guarded;
                        rewrite (bind_return _ _ _ _ _ E); cbv beta;
                        rewrite (bind_return _ _ _ _ _ Ec); cbv beta;
                        unfold dict_get, dict_get_or; rewrite !Hc, !Hp;
                        cbn [default from_option id]; rewrite Hal).
      cbn [fst snd service wire fails_with].
      split.
      { split; [by intros [? ?]|]. intros (_ & _ & (c & Hin' & [= ->]) & _).
        assert (existsb (λ allowed, is_text allowed (JString c))
                  allowed_commands = true) as Hal'
          by (apply allowed_command_iff; by exists c).
        by rewrite Hal' in Hal. }
      split; [by repeat constructor|]. split; [done|]. nothing_sent. }
  apply allowed_command_iff in Hal as (c & Hcin & ->).
  destruct (publish_admin_command_run "override"
    (Some (JObject [ ("command", JString c);
                     ("parameters", parameters);
                     ("requested_by", dict_get "sub" current_user);
                     ("timestamp", JString (iso asked)) ]))
    sent res (service app)) as (b & tr & Ep & Hb & Hpub).
  pose proof (channel_run _ (mkApp w' (service app) (wire app)) b tr Ep) as Ech.
  cbn [world service wire] in Ech.
  assert (existsb (λ allowed, is_text allowed (JString c)) allowed_commands
          = true) as Hal by (apply allowed_command_iff; by exists c).
  assert (∃ new, wire app ++ tr = wire app ++ new
      ∧ (published new = []
         ∨ ∃ c0 parameters0,
             c0 ∈ allowed_commands
             ∧ Some (JString c) = Some (JString c0)
             ∧ Some parameters = Some parameters0
             ∧ admits ips (peer request)
             ∧ within_limits sha limits request (Some 5) (Some 20) (world app)
             ∧ published new
               = [("foodyeh/admin/override",
                   AdminPayload "override"
                     (JObject
                        [ ("command", JString c0);
                          ("parameters", parameters0);
                          ("requested_by", dict_get "sub" current_user);
                          ("timestamp", JString (iso asked)) ])
                     sent,
                   2)])) as Hnew.
  { exists tr. split; [done|].
    destruct Hpub as [?|[_ Hpub]]; [by left|right].
    by exists c, parameters. }
  destruct b.
  - evaluate out ltac:(unfold Routers.override_device, guarded;
                      rewrite (bind_return _ _ _ _ _ E); cbv beta;
                      rewrite (bind_return _ _ _ _ _ Ec); cbv beta;
                      unfold dict_get, dict_get_or; rewrite !Hc, !Hp;
                      cbn [default from_option id]; rewrite Hal;
                      cbn [negb];
                      rewrite (bind_return _ _ _ _ _ Ech); cbv beta).
    cbn [fst snd logged service wire fails_with].
    destruct Hb as [Hb _]. destruct (Hb eq_refl) as (Hcon & Hcl & Hres).
    split; [split; [intros _|by eexists]|].
    { repeat split; try done. by exists c. }
    split; [done|]. split; [done|]. exact Hnew.
  - evaluate out ltac:(unfold Routers.override_device, guarded;
                      rewrite (bind_return _ _ _ _ _ E); cbv beta;
                      rewrite (bind_return _ _ _ _ _ Ec); cbv beta;
                      unfold dict_get, dict_get_or; rewrite !Hc, !Hp;
                      cbn [default from_option id]; rewrite Hal;
                      cbn [negb];
                      rewrite (bind_return _ _ _ _ _ Ech); cbv beta).
    cbn [fst snd logged service wire fails_with].
    split.
    { split; [by intros [? ?]|]. intros (_ & _ & _ & _ & H1 & H2 & H3).
      destruct Hb as [_ Hb]. by discriminate Hb. }
    split; [by repeat constructor|]. split; [done|]. exact Hnew.
Qed.

(** *** Cancelling an order *)

(** A cancellation is confirmed whatever was sent.  For a request within
    its limits, [cancel_order] looks at the form of the order id only: an
    id that does not start with ORD- or has fewer than 10 characters gets a
    400 and nothing goes out; any other id gets the success message,
    whether the command reached the client, was refused by it, or was
    never handed over because the channel is down.  What goes out, if
    anything, is one message on the administrative topic at QoS 2. *)
Theorem a_cancellation_is_confirmed_whatever_was_sent order_id request
    current_user sent res app :
  within_limits sha limits request None None (world app) →
  let out := cancel_order order_id request current_user sent res app in
  service out.2 = service app
  ∧ ∃ new,
      wire out.2 = wire app ++ new
      ∧ (¬ (String.prefix "ORD-" order_id = true ∧ 10 ≤ len order_id) →
         out.1 = Fail (HTTPException 400 (Text "Invalid order ID format"))
         ∧ new = [])
      ∧ (String.prefix "ORD-" order_id = true ∧ 10 ≤ len order_id →
         out.1 = Return
                   (JObject [("message", JString "Order cancelled successfully")])
         ∧ (is_connected (service app) = false → published new = [])
         ∧ (published new = []
            ∨ published new
              = [("foodyeh/admin/cancel_order",
                  AdminPayload "cancel_order"
                    (JObject [("order_id", JString order_id)]) sent,
                  2)])).
Proof.
  intros Hin out.
  destruct (check_rate_limit_run request None None app)
    as (w' & _ & _ & [[_ Ec]|[[Hout _]|[Hout _]]]); [|done|done].
  destruct (negb (String.prefix "ORD-" order_id)
            || bool_decide (len order_id < 10)) eqn:Hbad.
  - evaluate out ltac:(unfold Routers.cancel_order, guarded;
                      rewrite (bind_return _ _ _ _ _ Ec); cbv beta;
                      rewrite Hbad).
    cbn [fst snd service wire].
    split; [done|]. exists []. rewrite app_nil_r. split; [done|].
    split; [done|]. intros [Hp Hl].
    apply orb_true_iff in Hbad as [Hb|Hb].
    + by rewrite Hp in Hb.
    + apply bool_decide_eq_true in Hb. lia.
  - destruct (publish_admin_command_run "cancel_order"
      (Some (JObject [("order_id", JString order_id)])) sent res (service app))
      as (b & tr & Ep & Hb & Hpub).
    pose proof (channel_run _ (mkApp w' (service app) (wire app)) b tr Ep)
      as Ech.
    cbn [world service wire] in Ech.
    evaluate out ltac:(unfold Routers.cancel_order, guarded;
                      rewrite (bind_return _ _ _ _ _ Ec); cbv beta;
                      rewrite Hbad;
                      rewrite (bind_return _ _ _ _ _ Ech); cbv beta).
    cbn [fst snd logged service wire].
    split; [done|]. exists tr. split; [done|].
    apply orb_false_iff in Hbad as [Hp Hl].
    apply negb_false_iff in Hp. apply bool_decide_eq_false in Hl.
    split; [intros H; destruct H; split; [done|lia]|].
    intros _. split; [done|]. split.
    + intros Hdown. destruct Hpub as [?|[Hup _]]; [done|].
      by rewrite Hdown in Hup.
    + destruct Hpub as [?|[_ ?]]; [by left|by right].
Qed.

(** *** Clearing the counters *)

(** Clearing needs the store.  The handler [clear_rate_limits] answers
    with success exactly when the peer is admitted, the limiter lets the
    request through, the limit type is ip or token and the store is in
    reach; otherwise it fails with 400, 403, 429 or 500, and with 500
    whenever the store is out of reach although all else is in order.
    After a success the identifier has no event left under either window,
    whenever one looks. *)
Theorem clearing_needs_the_store request identifier limit_type current_user
    answered app :
  let out := clear_rate_limits request identifier limit_type current_user
               answered app in
  ((∃ body, out.1 = Return body)
   ↔ admits ips (peer request)
     ∧ within_limits sha limits request (Some 5) (Some 20) (world app)
     ∧ limit_type ∈ ["ip"; "token"]
     ∧ redis (world app) ≠ None)
  ∧ fails_with [400; 403; 429; 500] out.1
  ∧ (admits ips (peer request) → limit_type ∈ ["ip"; "token"] →
     redis (world app) = None →
     out.1 = Fail (HTTPException 500 (Text "Failed to clear rate limits")))
  ∧ ((∃ body, out.1 = Return body) →
     ∃ d, redis (world out.2) = Some d
          ∧ ∀ now window,
              window ∈ ["minute"; "hour"] →
              events now (_generate_key limit_type identifier window) d = ∅)
  ∧ wire out.2 = wire app
  ∧ service out.2 = service app.
Proof.
  intros out.
  destruct (require_admin_ip_run request app) as [[Had E]|[Hno [msg E]]].
  2:{ evaluate out ltac:(unfold Routers.clear_rate_limits, guarded;
                        rewrite (bind_fail _ _ _ _ _ E)).
      cbn [fst snd logged service wire fails_with].
      split; [split; [by intros [? ?]|by intros [? _]]|].
      split; [by repeat constructor|]. split; [done|].
      split; [by intros [? ?]|done]. }
  destruct (check_rate_limit_run request (Some 5) (Some 20) app)
    as (w' & Hnone & Hsome
        & [[Hin Ec]|[(Hout & Hup & d & Ec)|(Hout & Hlost & Ec)]]).
  2:{ evaluate out ltac:(unfold Routers.clear_rate_limits, guarded;
                        rewrite (bind_return _ _ _ _ _ E); cbv beta;
                        rewrite (bind_fail _ _ _ _ _ Ec)).
      cbn [fst snd service wire fails_with].
      split; [split; [by intros [? ?]|by intros (_ & ? & _)]|].
      split; [by repeat constructor|].
      split.
      { intros _ _ Hd. rewrite Hd in Hup. by destruct Hup. }
      split; [by intros [? ?]|done]. }
  2:{ evaluate out ltac:(unfold Routers.clear_rate_limits;
                        eapply guarded_caught;
                        rewrite (bind_return _ _ _ _ _ E); cbv beta;
                        rewrite (bind_fail _ _ _ _ _ Ec)).
      cbn [fst snd logged service wire fails_with].
      split; [split; [by intros [? ?]|by intros (_ & ? & _)]|].
      split; [by repeat constructor|]. split; [done|].
      split; [by intros [? ?]|done]. }
  case_eq (bool_decide (limit_type ∈ ["ip"; "token"])); intros Hlt.
  2:{ evaluate out ltac:(unfold Routers.clear_rate_limits, guarded;
                        rewrite (bind_return _ _ _ _ _ E); cbv beta;
                        rewrite (bind_return _ _ _ _ _ Ec); cbv beta;
                        rewrite Hlt).
      apply bool_decide_eq_false in Hlt.
      cbn [fst snd service wire fails_with].
      split; [split; [by intros [? ?]|by intros (_ & _ & ? & _)]|].
      split; [by repeat constructor|]. split; [done|].
      split; [by intros [? ?]|done]. }
  apply bool_decide_eq_true in Hlt as Hlt'.
  destruct (redis w') as [d1|] eqn:Hd1.
  - pose proof (clear_rate_limits_run identifier limit_type w' d1 Hd1) as Ecl.
    assert (limiter (RateLimiter.clear_rate_limits identifier limit_type)
              (mkApp w' (service app) (wire app))
            = (Return true, mkApp _ (service app) (wire app))) as El
      by (unfold limiter; cbn [world service wire]; by rewrite Ecl).
    evaluate out ltac:(unfold Routers.clear_rate_limits, guarded;
                      rewrite (bind_return _ _ _ _ _ E); cbv beta;
                      rewrite (bind_return _ _ _ _ _ Ec); cbv beta;
                      rewrite Hlt; cbn [negb];
                      rewrite (bind_return _ _ _ _ _ El); cbv beta).
    cbn [fst snd logged world service wire fails_with redis store].
    assert (redis (world app) ≠ None) as Hup.
    { intros Hd. apply Hnone in Hd. congruence. }
    split; [split; [done|by eexists]|].
    split; [done|]. split; [done|].
    split; [|done]. intros _. eexists. split; [reflexivity|].
    intros now window Hw. apply events_absent.
    rewrite !elem_of_cons in Hw. destruct Hw as [->|[->|Hw]].
    + apply lookup_delete_eq.
    + destruct (decide (_generate_key limit_type identifier "minute"
                        = _generate_key limit_type identifier "hour")) as [->|].
      * apply lookup_delete_eq.
      * rewrite lookup_delete_ne by done. apply lookup_delete_eq.
    + by apply elem_of_nil in Hw.
  - assert (∃ w'', limiter (RateLimiter.clear_rate_limits identifier limit_type)
                     (mkApp w' (service app) (wire app))
                   = (Return false, mkApp w'' (service app) (wire app)))
      as [w'' El].
    { destruct (clear_rate_limits_unreachable identifier limit_type w' Hd1)
        as [w'' Ecl].
      exists w''. unfold limiter. cbn [world service wire]. by rewrite Ecl. }
    evaluate out ltac:(unfold Routers.clear_rate_limits, guarded;
                      rewrite (bind_return _ _ _ _ _ E); cbv beta;
                      rewrite (bind_return _ _ _ _ _ Ec); cbv beta;
                      rewrite Hlt; cbn [negb];
                      rewrite (bind_return _ _ _ _ _ El); cbv beta).
    cbn [fst snd logged world service wire fails_with redis store].
    split.
    { split; [by intros [? ?]|]. intros (_ & _ & _ & Hup).
      destruct (redis (world app)) as [d|] eqn:Hd; [|done].
      destruct Hsome as [? Hs]; [by eexists|]. by rewrite Hs in Hd1. }
    split; [by repeat constructor|]. split; [done|].
    split; [by intros [? ?]|done].
Qed.

(** *** Forcing a reconnection *)

(** A forced reconnection is outside the budget.  [reconnect_mqtt] answers
    403 to anyone whose role is not admin, and then nothing has happened.
    For an admin it hangs up if need be and calls [client.connect] exactly
    once, at once: it does not wait, it does not look at the number of
    attempts made nor change it, and no counter of the limiter is
    touched.  It answers with success exactly when the client took the
    call, and with 500 otherwise. *)
Theorem a_forced_reconnect_is_outside_the_budget current_user stop disc res
    app :
  client (service app) ≠ None →
  let out := reconnect_mqtt current_user stop disc res app in
  (current_user !! "role" ≠ Some (JString "admin") →
   out = (Fail (HTTPException 403 (Text "Admin privileges required")), app))
  ∧ (current_user !! "role" = Some (JString "admin") →
     ((∃ body, out.1 = Return body) ↔ res = Returns MQTT_ERR_SUCCESS)
     ∧ fails_with [500] out.1
     ∧ connection_attempts (service out.2) = connection_attempts (service app)
     ∧ redis (world out.2) = redis (world app)
     ∧ reads (world out.2) = reads (world app)
     ∧ ∃ new,
         wire out.2 = wire app ++ new
         ∧ connect_calls new
           = [(mqtt_broker mqtt_settings, mqtt_port mqtt_settings,
               mqtt_keepalive mqtt_settings)]
         ∧ retry_delays new = []).
Proof.
  intros Hcl out. split.
  - intros Hrole. subst out. unfold Routers.reconnect_mqtt, guarded.
    assert (is_text "admin" (dict_get_or "role" (JString "user") current_user)
            = false) as ->; [|done].
    unfold dict_get_or. destruct (current_user !! "role") as [[]|]; try done.
    simpl. apply bool_decide_eq_false. congruence.
  - intros Hrole. subst out. unfold Routers.reconnect_mqtt, guarded.
    unfold dict_get_or. rewrite Hrole. cbn [default from_option id is_text].
    rewrite bool_decide_eq_true_2 by done. cbn [negb].
    unfold Routers.bind, channel_update, channel, disconnect, connect.
    destruct app as [w s tr]. cbn [service world wire] in *.
    destruct s as [c ic n mx dl hs lc lm]. cbn [client] in Hcl.
    destruct c as [c|]; [|done]. cbn [client is_connected].
    destruct ic, stop as [rc1|e1], disc as [rc2|e2], res as [rc|e];
      simpl; try case_bool_decide; simpl; rewrite <- ?app_assoc;
      (split; [split; [first [by intros [? ?]|intros _; congruence]
                      |first [intros _; by eexists|by intros [= ?]|done]]|]);
      (split; [first [done|by repeat constructor]|]);
      (split; [done|]); (split; [done|]); (split; [done|]);
      eexists; (split; [reflexivity|]); done.
Qed.

End Handlers.

(** The host 192.168.1.7 of the listed network 192.168.1.0/24 is turned
    away: its text does not start with 192.168.1.0. *)
Example a_host_of_the_network_is_turned_away :
  (Routers.validate_ip_whitelist ["192.168.1.0/24"] "192.168.1.7"
     (mkApp (mkWorld NoClient (λ _, 0) 0 []) (init "backend").1 [])).1
  = Return false.
Proof. reflexivity. Qed.

(** The entry 10.0.0.1/32 names one host, and 10.0.0.100 is let in. *)
Example a_longer_address_is_let_in :
  (Routers.validate_ip_whitelist ["10.0.0.1/32"] "10.0.0.100"
     (mkApp (mkWorld NoClient (λ _, 0) 0 []) (init "backend").1 [])).1
  = Return true.
Proof. reflexivity. Qed.

Lemma an_outsider_is_turned_away_uncounted_witness :
  let app := mkApp (mkWorld (Connected ∅) (λ _, 100) 0 [])
               (set_is_connected true (init "backend").1) [] in
  let out := Routers.reboot_device ["10.0.0.1"; "192.168.1.0/24"]
               RateLimiter.default_settings (λ token, token) (λ _, "2024-01-01T00:00:00")
               (mkRequest [] (Some ("192.168.1.7", 40000))) ∅ 0 0 0
               (Returns 0) app in
  out.1 = Fail (HTTPException 403
                  (Text "Access denied: IP not in admin whitelist"))
  ∧ redis (world out.2) = Some ∅
  ∧ wire out.2 = [].
Proof.
  intros app out.
  destruct (an_outsider_is_turned_away_uncounted
    ["10.0.0.1"; "192.168.1.0/24"] RateLimiter.default_settings (λ token, token)
    (λ _, "2024-01-01T00:00:00")
    (mkRequest [] (Some ("192.168.1.7", 40000))) ∅ ∅ "9.9.9.9" "ip" 0 0 0
    (Returns 0) app) with (out := out) as (H1 & H2 & _ & _ & H3 & _).
  - intros [H|(entry & He & Hs & Hp)].
    + rewrite !elem_of_cons in H.
      destruct H as [H|[H|H]]; [discriminate H|discriminate H|].
      by apply elem_of_nil in H.
    + rewrite !elem_of_cons in He. destruct He as [->|[->|He]].
      * assert (bool_decide ("/"%char ∈ list_ascii_of_string "10.0.0.1")
                = false) as Hn by (vm_compute; reflexivity).
        by apply bool_decide_eq_false_1 in Hn.
      * vm_compute in Hp. discriminate Hp.
      * by apply elem_of_nil in He.
  - constructor.
  - split; [exact H1|]. split; [exact H2|exact H3].
Defined.

(** An admitted peer within its limits, on a connected channel whose
    client takes the message: the reboot command goes out. *)
Example a_reboot_that_goes_out :
  let app := mkApp (mkWorld (Connected ∅) (λ _, 100) 0 [])
               (set_is_connected true (init "backend").1) [] in
  let out := Routers.reboot_device ["10.0.0.1"] RateLimiter.default_settings
               (λ token, token) (λ _, "2024-01-01T00:00:00")
               (mkRequest [] (Some ("10.0.0.1", 40000)))
               {[ "sub" := JString "root" ]} 0 7 9 (Returns 0) app in
  published (wire out.2)
  = [("foodyeh/admin/reboot",
      AdminPayload "reboot"
        (JObject [ ("reason", JString "admin_request");
                   ("requested_by", JString "root");
                   ("timestamp", JString "2024-01-01T00:00:00") ]) 7,
      2)].
Proof. vm_compute. reflexivity. Qed.

Lemma a_cancellation_is_confirmed_whatever_was_sent_witness :
  let app := mkApp (mkWorld (Connected ∅) (λ _, 100) 0 []) (init "backend").1 [] in
  let out := Routers.cancel_order RateLimiter.default_settings (λ token, token)
               "ORD-20240101-0001" (mkRequest [] (Some ("9.9.9.9", 40000)))
               ∅ 0 (Returns 0) app in
  out.1 = Return (JObject [("message", JString "Order cancelled successfully")])
  ∧ published (wire out.2) = [].
Proof.
  intros app out.
  destruct (a_cancellation_is_confirmed_whatever_was_sent RateLimiter.default_settings
    (λ token, token) "ORD-20240101-0001"
    (mkRequest [] (Some ("9.9.9.9", 40000))) ∅ 0 (Returns 0) app)
    as (_ & new & Hw & _ & Hok).
  - unfold within_limits. vm_compute. reflexivity.
  - destruct Hok as (Ho & Hdown & _).
    + split; [reflexivity|]. vm_compute. discriminate.
    + split; [exact Ho|]. fold out in Hw. rewrite Hw.
      simpl. apply Hdown. reflexivity.
Defined.

Lemma a_forced_reconnect_is_outside_the_budget_witness :
  let spent := mkService (Some "backend") false 5 5 5 ∅ None None in
  let app := mkApp (mkWorld (Connected ∅) (λ _, 100) 0 []) spent [] in
  let out := Routers.reconnect_mqtt MQTT.default_settings
               {[ "role" := JString "admin" ]} (Returns 0) (Returns 0)
               (Returns 0) app in
  failed spent
  ∧ (∃ body, out.1 = Return body)
  ∧ connection_attempts (service out.2) = 5
  ∧ retry_delays (wire out.2) = [].
Proof.
  intros spent app out.
  destruct (a_forced_reconnect_is_outside_the_budget MQTT.default_settings
    {[ "role" := JString "admin" ]} (Returns 0) (Returns 0) (Returns 0) app)
    as [_ H].
  - discriminate.
  - destruct H as (Hok & _ & Hn & _ & _ & new & Hw & _ & Hd);
      [reflexivity|].
    split; [split; [reflexivity|simpl; lia]|].
    split; [by apply Hok|]. split; [exact Hn|].
    fold out in Hw. rewrite Hw. exact Hd.
Defined.

End RoutersFacts.
